(** * Warp-Plus: a shallow embedding of the orchestrator, the profile
      parser, the identity files, the UDP forwarder, the proxy handler and
      the scanner engine, with the properties stated about them. *)

From Stdlib Require Import ZArith NArith Ascii String List Bool Lia Sorted.
From stdpp Require Import base strings list gmap.

Local Open Scope string_scope.
Local Open Scope list_scope.

(** ** Go values shared by every package *)

(** A Go call returning [(T, error)]: the error carries its message. A
    run-time panic is kept apart from a returned error. *)
Inductive result (A : Type) : Type :=
| Ok (a : A)
| Err (msg : string)
| Panic (msg : string).
Arguments Ok {A} a.
Arguments Err {A} msg.
Arguments Panic {A} msg.

Definition is_ok {A} (r : result A) : bool :=
  match r with Ok _ => true | _ => false end.

Definition rbind {A B} (r : result A) (f : A -> result B) : result B :=
  match r with
  | Ok a => f a
  | Err e => Err e
  | Panic e => Panic e
  end.

Notation "'let?' x ':=' r 'in' k" := (rbind r (fun x => k))
  (at level 10, x binder, r at level 100, k at level 200).

(** Error-propagating loop over a slice, as [for _, x := range xs] with an
    early [return nil, err]. *)
Fixpoint rmapM {A B} (f : A -> result B) (xs : list A) : result (list B) :=
  match xs with
  | [] => Ok []
  | x :: xs' =>
      let? y := f x in
      let? ys := rmapM f xs' in
      Ok (y :: ys)
  end.

(** [fmt.Errorf(prefix + "%w", err)]. *)
Definition wrap_err {A} (prefix : string) (r : result A) : result A :=
  match r with
  | Err e => Err (prefix +:+ e)
  | _ => r
  end.

(** Code that changes a state [S] (files, the log of calls made) and may
    fail: the state reached is kept when it fails. *)
Definition M (S A : Type) : Type := S -> result A * S.

Definition ret {S A} (a : A) : M S A := fun s => (Ok a, s).

Definition lift {S A} (r : result A) : M S A := fun s => (r, s).

Definition bind {S A B} (m : M S A) (f : A -> M S B) : M S B :=
  fun s =>
    match m s with
    | (Ok a, s') => f a s'
    | (Err e, s') => (Err e, s')
    | (Panic e, s') => (Panic e, s')
    end.

Definition gets {S A} (f : S -> A) : M S A := fun s => (Ok (f s), s).

Definition modify {S} (f : S -> S) : M S unit := fun s => (Ok tt, f s).

Definition wrap {S A} (prefix : string) (m : M S A) : M S A :=
  fun s => let '(r, s') := m s in (wrap_err prefix r, s').

(** Running code of a part of the state inside the whole state. *)
Definition zoom {S T A} (get : T -> S) (set : S -> T -> T) (m : M S A)
    : M T A :=
  fun t => let '(r, s') := m (get t) in (r, set s' t).

Notation "'let*' x ':=' m 'in' k" := (bind m (fun x => k))
  (at level 10, x binder, m at level 100, k at level 200).

(** A line feed. *)
Definition LF : string := String (ascii_of_N 10) EmptyString.

(** ** Characters and strings (Go's [strings] and [unicode] helpers) *)

Module gostrings.

Definition chars (s : string) : list ascii := list_ascii_of_string s.
Definition str (l : list ascii) : string := string_of_list_ascii l.

Definition code (c : ascii) : N := N_of_ascii c.

Definition in_range (lo hi c : ascii) : bool :=
  N.leb (code lo) (code c) && N.leb (code c) (code hi).

Definition is_digit (c : ascii) : bool := in_range "0" "9" c.
Definition is_upper (c : ascii) : bool := in_range "A" "Z" c.
Definition is_lower (c : ascii) : bool := in_range "a" "z" c.

Definition digit_val (c : ascii) : N := code c - code "0".

(** [unicode.IsSpace] on ASCII: tab, LF, VT, FF, CR, space.  Text with a
    byte above 127 is turned away before the parsers below look at it. *)
Definition is_space (c : ascii) : bool :=
  let n := code c in
  N.eqb n 32 || (N.leb 9 n && N.leb n 13).

Definition to_lower_char (c : ascii) : ascii :=
  if is_upper c then ascii_of_N (code c + 32) else c.

(** [strings.ToLower] on ASCII text. *)
Definition ToLower (s : string) : string :=
  str (map to_lower_char (chars s)).

Fixpoint trim_left (l : list ascii) : list ascii :=
  match l with
  | c :: l' => if is_space c then trim_left l' else l
  | [] => []
  end.

Definition trim_right (l : list ascii) : list ascii :=
  rev (trim_left (rev l)).

(** [strings.TrimSpace]. *)
Definition trim (l : list ascii) : list ascii := trim_right (trim_left l).

Definition TrimSpace (s : string) : string := str (trim (chars s)).

(** [strings.Split(s, sep)] for a one-byte separator. *)
Fixpoint split_on (sep : ascii) (l : list ascii) : list (list ascii) :=
  match l with
  | [] => [[]]
  | c :: l' =>
      if Ascii.eqb c sep then [] :: split_on sep l'
      else match split_on sep l' with
           | w :: ws => (c :: w) :: ws
           | [] => [[c]]
           end
  end.

(** [strings.HasPrefix]. *)
Definition HasPrefix (s p : string) : bool := String.prefix p s.

(** Position of the last occurrence of [c], as [strings.LastIndexByte]. *)
Fixpoint last_index (c : ascii) (l : list ascii) : option nat :=
  match l with
  | [] => None
  | x :: l' =>
      match last_index c l' with
      | Some i => Some (S i)
      | None => if Ascii.eqb x c then Some 0%nat else None
      end
  end.

(** Position of the first element satisfying [p], as [strings.IndexAny]
    and [strings.IndexByte] give it. *)
Fixpoint index_where {A} (p : A -> bool) (l : list A) : option nat :=
  match l with
  | [] => None
  | x :: l' =>
      if p x then Some 0%nat
      else option_map S (index_where p l')
  end.

(** Decimal rendering of a non-negative number, as [%d] does. *)
Definition digit_char (n : N) : ascii := ascii_of_N (code "0" + n).

Fixpoint decimal_fuel (fuel : nat) (n : N) (acc : list ascii) : list ascii :=
  match fuel with
  | O => acc
  | S fuel' =>
      let acc' := digit_char (n mod 10) :: acc in
      if N.ltb n 10 then acc' else decimal_fuel fuel' (n / 10) acc'
  end.

Definition decimal (n : N) : string :=
  str (decimal_fuel (S (N.to_nat (N.log2 n))) n []).

(** [%d] on an [int]. *)
Definition itoa (z : Z) : string :=
  if Z.ltb z 0 then "-" +:+ decimal (Z.to_N (- z)) else decimal (Z.to_N z).

(** [%t]. *)
Definition btoa (b : bool) : string := if b then "true" else "false".

End gostrings.

(** ** [net/netip]: addresses, prefixes and their textual forms *)

Module netip.
Import gostrings.

(** An address keeps its bytes the way [Addr.As4]/[Addr.As16] give them;
    an IPv6 address also has its zone (empty when there is none). *)
Inductive Addr : Type :=
| IPv4 (b : list N)
| IPv6 (b : list N) (zone : string).

Definition Is6 (a : Addr) : bool :=
  match a with IPv6 _ _ => true | IPv4 _ => false end.

Record Prefix : Type := PrefixFrom { Prefix_Addr : Addr; Prefix_Bits : N }.

Record AddrPort : Type := AddrPortFrom { AddrPort_Addr : Addr; AddrPort_Port : N }.

(** [parseIPv4]: the state of its loop is the fields read so far, the
    value and digit count of the current octet, and whether the byte
    before was a dot ([first] stands for [i == 0]). *)
Fixpoint parseIPv4_loop (s : list ascii) (first prevDot : bool)
    (fields : list N) (val : N) (digLen : nat) : result (list N) :=
  match s with
  | [] =>
      if Nat.ltb (List.length fields) 3 then Err "IPv4 address too short"
      else Ok (fields ++ [val])
  | c :: rest =>
      if is_digit c then
        if Nat.eqb digLen 1 && N.eqb val 0
        then Err "IPv4 field has octet with leading zero"
        else
          let val' := (val * 10 + digit_val c)%N in
          if N.ltb 255 val' then Err "IPv4 field has value >255"
          else parseIPv4_loop rest false false fields val' (S digLen)
      else if Ascii.eqb c "." then
        if first || match rest with [] => true | _ => false end || prevDot
        then Err "IPv4 field must have at least one digit"
        else if Nat.eqb (List.length fields) 3 then Err "IPv4 address too long"
        else parseIPv4_loop rest false true (fields ++ [val]) 0%N 0%nat
      else Err "unexpected character"
  end.

Definition parseIPv4 (s : list ascii) : result (list N) :=
  parseIPv4_loop s true false [] 0%N 0%nat.

Definition hex_val (c : ascii) : option N :=
  if is_digit c then Some (code c - code "0")%N
  else if in_range "a" "f" c then Some (code c - code "a" + 10)%N
  else if in_range "A" "F" c then Some (code c - code "A" + 10)%N
  else None.

(** The inner loop of [parseIPv6]: reads hex digits, gives the number of
    digits, the value and the text left, and fails above 16 bits. *)
Fixpoint hex_run (s : list ascii) (off : nat) (acc : N)
    : result (nat * N * list ascii) :=
  match s with
  | [] => Ok (off, acc, [])
  | c :: rest =>
      match hex_val c with
      | Some d =>
          let acc' := (acc * 16 + d)%N in
          if N.ltb 65535 acc' then Err "IPv6 field has value >=2^16"
          else hex_run rest (S off) acc'
      | None => Ok (off, acc, s)
      end
  end.

(** What [parseIPv6] does after its loop: all text used, and the
    ellipsis expanded to the missing zero bytes. *)
Definition parseIPv6_finish (s : list ascii) (ip : list N)
    (ellipsis : option nat) : result (list N) :=
  match s with
  | _ :: _ => Err "trailing garbage after address"
  | [] =>
      if Nat.ltb (List.length ip) 16 then
        match ellipsis with
        | None => Err "address string too short"
        | Some e =>
            Ok (take e ip ++ replicate (16 - List.length ip) 0%N ++ drop e ip)
        end
      else
        match ellipsis with
        | Some _ => Err "the :: must expand to at least one field of zeros"
        | None => Ok ip
        end
  end.

(** The main loop of [parseIPv6]; [ip] holds the [i] bytes written so far.
    Every round writes at least two bytes, so eight rounds are enough. *)
Fixpoint parseIPv6_loop (fuel : nat) (s : list ascii) (ip : list N)
    (ellipsis : option nat) : result (list N) :=
  match fuel with
  | O => parseIPv6_finish s ip ellipsis
  | S fuel' =>
      if negb (Nat.ltb (List.length ip) 16) then parseIPv6_finish s ip ellipsis
      else
        let? r := hex_run s 0 0%N in
        let '(off, acc, rest) := r in
        if Nat.eqb off 0
        then Err "each colon-separated field must have at least one digit"
        else
          match rest with
          | "."%char :: _ =>
              if match ellipsis with None => true | _ => false end
                 && negb (Nat.eqb (List.length ip) 12)
              then Err "embedded IPv4 address must replace the final 2 fields of the address"
              else if Nat.ltb 16 (List.length ip + 4)
              then Err "too many hex fields to fit an embedded IPv4 at the end of the address"
              else
                let? ip4 := parseIPv4 s in
                parseIPv6_finish [] (ip ++ ip4) ellipsis
          | _ =>
              let ip' := ip ++ [N.shiftr acc 8; N.land acc 255] in
              match rest with
              | [] => parseIPv6_finish [] ip' ellipsis
              | c :: rest1 =>
                  if negb (Ascii.eqb c ":")
                  then Err "unexpected character, want colon"
                  else
                    match rest1 with
                    | [] => Err "colon must be followed by more characters"
                    | ":"%char :: rest2 =>
                        match ellipsis with
                        | Some _ => Err "multiple :: in address"
                        | None =>
                            match rest2 with
                            | [] => parseIPv6_finish [] ip' (Some (List.length ip'))
                            | _ => parseIPv6_loop fuel' rest2 ip' (Some (List.length ip'))
                            end
                        end
                    | _ => parseIPv6_loop fuel' rest1 ip' ellipsis
                    end
              end
          end
  end.

Definition parseIPv6 (input : list ascii) : result Addr :=
  let? sz :=
    match index_where (Ascii.eqb "%") input with
    | Some i =>
        match drop (S i) input with
        | [] => Err "zone must be a non-empty string"
        | z => Ok (take i input, str z)
        end
    | None => Ok (input, "")
    end in
  let '(s, zone) := sz in
  match s with
  | ":"%char :: ":"%char :: [] => Ok (IPv6 (replicate 16 0%N) zone)
  | ":"%char :: ":"%char :: s' =>
      let? ip := parseIPv6_loop 8 s' [] (Some 0%nat) in Ok (IPv6 ip zone)
  | _ =>
      let? ip := parseIPv6_loop 8 s [] None in Ok (IPv6 ip zone)
  end.

(** [ParseAddr]: the first of '.', ':' and '%' decides the family. *)
Fixpoint ParseAddr_scan (whole s : list ascii) : result Addr :=
  match s with
  | [] => Err "unable to parse IP"
  | c :: rest =>
      if Ascii.eqb c "." then let? b := parseIPv4 whole in Ok (IPv4 b)
      else if Ascii.eqb c ":" then parseIPv6 whole
      else if Ascii.eqb c "%" then Err "missing IPv6 address"
      else ParseAddr_scan whole rest
  end.

Definition ParseAddr (s : string) : result Addr :=
  ParseAddr_scan (chars s) (chars s).

Definition has_zone (a : Addr) : bool :=
  match a with
  | IPv6 _ z => negb (String.eqb z "")
  | IPv4 _ => false
  end.

(** The prefix length after the slash: decimal digits only, no sign and
    no leading zero when there is more than one digit. *)
Definition parse_bits (l : list ascii) : result N :=
  match l with
  | [] => Err "bad bits after slash"
  | c :: rest =>
      if negb (forallb is_digit l) then Err "bad bits after slash"
      else if match rest with [] => false | _ => true end
              && negb (in_range "1" "9" c)
      then Err "bad bits after slash"
      else Ok (fold_left (fun acc d => (acc * 10 + digit_val d)%N) l 0%N)
  end.

Definition ParsePrefix (s : string) : result Prefix :=
  let l := chars s in
  match last_index "/" l with
  | None => Err "no '/'"
  | Some i =>
      let? ip := ParseAddr (str (take i l)) in
      if has_zone ip then Err "IPv6 zones cannot be present in a prefix"
      else
        let? bits := parse_bits (drop (S i) l) in
        let maxBits := if Is6 ip then 128%N else 32%N in
        if N.ltb maxBits bits then Err "prefix length out of range"
        else Ok (PrefixFrom ip bits)
  end.

(** [netip.MustParseAddrPort("127.0.0.1:0")], the one literal the
    orchestrator parses. *)
Definition loopback_any_port : AddrPort :=
  AddrPortFrom (IPv4 [127; 0; 0; 1]%N) 0.

End netip.

(** ** [encoding/base64] (standard alphabet, padded) and [encoding/hex] *)

Module base64.
Import gostrings.

Definition sextet (c : ascii) : option N :=
  if is_upper c then Some (code c - code "A")%N
  else if is_lower c then Some (code c - code "a" + 26)%N
  else if is_digit c then Some (code c - code "0" + 52)%N
  else if Ascii.eqb c "+" then Some 62%N
  else if Ascii.eqb c "/" then Some 63%N
  else None.

Definition is_newline (c : ascii) : bool :=
  Ascii.eqb c "010" || Ascii.eqb c "013".

(** Quanta of four characters; padding is accepted in the last one only. *)
Fixpoint decode_quanta (l : list ascii) : result (list N) :=
  match l with
  | [] => Ok []
  | c1 :: c2 :: c3 :: c4 :: rest =>
      match sextet c1, sextet c2 with
      | Some a, Some b =>
          let b1 := (a * 4 + b / 16)%N in
          match sextet c3, sextet c4 with
          | Some c, Some d =>
              let? tl := decode_quanta rest in
              Ok (b1 :: ((b mod 16) * 16 + c / 4)%N :: ((c mod 4) * 64 + d)%N :: tl)
          | Some c, None =>
              if Ascii.eqb c4 "=" && match rest with [] => true | _ => false end
              then Ok [b1; ((b mod 16) * 16 + c / 4)%N]
              else Err "illegal base64 data"
          | None, _ =>
              if Ascii.eqb c3 "=" && Ascii.eqb c4 "="
                 && match rest with [] => true | _ => false end
              then Ok [b1]
              else Err "illegal base64 data"
          end
      | _, _ => Err "illegal base64 data"
      end
  | _ => Err "illegal base64 data"
  end.

(** [base64.StdEncoding.DecodeString]: CR and LF are skipped. *)
Definition DecodeString (s : string) : result (list N) :=
  decode_quanta (filter (fun c => negb (is_newline c)) (chars s)).

End base64.

Module hex.
Import gostrings.

Definition hex_digit (n : N) : ascii :=
  if N.ltb n 10 then ascii_of_N (code "0" + n)
  else ascii_of_N (code "a" + (n - 10)).

(** [hex.EncodeToString]: two lower-case digits per byte. *)
Definition EncodeToString (bs : list N) : string :=
  str (flat_map (fun b => [hex_digit (b / 16); hex_digit (b mod 16)]) bs).

End hex.

(** ** [os] and [path/filepath]: the files the program reads and writes *)

Module os.

(** A regular file: permission bits and contents. *)
Record file : Type := File { mode : N; data : string }.

(** The file system as the program sees it: regular files by path, the
    process umask, and the paths the system refuses to open. Directories
    are implicit: a directory is the set of paths below it. *)
Record FS : Type := MkFS {
  files : gmap string file;
  umask : N;
  denied : string -> bool
}.

Definition with_files (fs : FS) (m : gmap string file) : FS :=
  {| files := m; umask := umask fs; denied := denied fs |}.

(** Permission bits left once the umask is applied: [perm &^ umask]. *)
Definition apply_umask (perm um : N) : N := N.ldiff perm um.

(** [filepath.Join] on a directory and a file name; the path is kept as it
    is written (Go also drops a leading [./], which names the same file). *)
Definition Join (dir name : string) : string := dir +:+ "/" +:+ name.

(** [os.OpenFile(name, O_WRONLY|O_CREATE|O_TRUNC, perm)] followed by the
    write of [contents] and the close: an existing file is truncated and
    keeps its mode, a new file gets [perm] less the umask. *)
Definition open_trunc_write (name : string) (perm : N) (contents : string)
    : M FS unit :=
  fun fs =>
    if denied fs name
    then (Err ("open " +:+ name +:+ ": permission denied"), fs)
    else
      let m := match files fs !! name with
               | Some f => mode f
               | None => apply_umask perm (umask fs)
               end in
      (Ok tt, with_files fs (<[name := File m contents]> (files fs))).

(** [os.Create(name)] is [OpenFile(name, O_RDWR|O_CREATE|O_TRUNC, 0666)]:
    it leaves the file empty. *)
Definition Create_perm : N := 438.   (* 0o666 *)

Definition Create (name : string) : M FS unit :=
  open_trunc_write name Create_perm "".

(** A write on the file that [Create] opened. *)
Definition Write (name contents : string) : M FS unit :=
  modify (fun fs =>
    with_files fs (alter (fun f => File (mode f) contents) name (files fs))).

(** [os.WriteFile(name, data, perm)]. *)
Definition WriteFile (name contents : string) (perm : N) : M FS unit :=
  open_trunc_write name perm contents.

Definition ReadFile (name : string) : M FS string :=
  fun fs =>
    if denied fs name
    then (Err ("open " +:+ name +:+ ": permission denied"), fs)
    else match files fs !! name with
         | Some f => (Ok (data f), fs)
         | None => (Err ("open " +:+ name +:+ ": no such file or directory"), fs)
         end.

Definition Stat (name : string) : M FS N :=
  fun fs =>
    match files fs !! name with
    | Some f => (Ok (mode f), fs)
    | None => (Err ("stat " +:+ name +:+ ": no such file or directory"), fs)
    end.

(** [os.RemoveAll(path)]: the path and everything below it. *)
Definition RemoveAll (path : string) : M FS unit :=
  modify (fun fs =>
    with_files fs
      (filter (fun kv => negb (String.eqb kv.1 path
                               || String.prefix (path +:+ "/") kv.1) = true)
              (files fs))).

(** [os.MkdirAll(path, perm)]: directories being implicit, nothing
    changes. *)
Definition MkdirAll (path : string) : M FS unit := ret tt.

End os.

(** ** [github.com/go-ini/ini]: what the profile parser asks of it *)

Module ini.

(** The calls the code makes on a loaded file. [Load] is
    [ini.LoadSources] with the options of [ParseConfig] (case-insensitive
    names, shadow keys, repeated sections) on the bytes of the file, and
    [LoadDefault] is [ini.Load], with no option set. [SectionOf] is
    [File.Section] and [SectionKey] is [Section.Key]; neither gives nil:
    a missing section or key comes back empty. *)
Class Lib : Type := {
  File : Type;
  Section : Type;
  Key : Type;
  Load : string -> result File;
  LoadDefault : string -> result File;
  SectionOf : File -> string -> Section;
  SectionsByName : File -> string -> result (list Section);
  SectionKey : Section -> string -> Key;
  GetKey : Section -> string -> result Key;
  KeyString : Key -> string;
  StringsWithShadows : Key -> string -> list string;
  KeyInt : Key -> result Z
}.

End ini.

(** ** Package [statute] of the scanner: a scan result *)

Module statute.

(** Round-trip time in nanoseconds ([time.Duration]) and creation time in
    nanoseconds since the start of the scan. *)
Record IPInfo : Type := MkIPInfo {
  AddrPort : netip.AddrPort;
  RTT : Z;
  CreatedAt : Z
}.

End statute.

(** ** Package [wiresocks]: the profile and its parser (config.go) *)

Module wiresocks.

Record PeerConfig : Type := MkPeerConfig {
  PublicKey : string;
  PreSharedKey : string;
  Endpoint : string;
  KeepAlive : Z;
  AllowedIPs : list netip.Prefix;
  Trick : bool
}.

Record InterfaceConfig : Type := MkInterfaceConfig {
  PrivateKey : string;
  Addresses : list netip.Addr;
  DNS : list netip.Addr;
  MTU : Z
}.

Record Configuration : Type := MkConfiguration {
  Interface : InterfaceConfig;
  Peers : list PeerConfig
}.

(** The zero value [InterfaceConfig{}]. *)
Definition InterfaceConfig_zero : InterfaceConfig :=
  {| PrivateKey := ""; Addresses := []; DNS := []; MTU := 0 |}.

Definition set_Endpoint (e : string) (p : PeerConfig) : PeerConfig :=
  {| PublicKey := PublicKey p; PreSharedKey := PreSharedKey p;
     Endpoint := e; KeepAlive := KeepAlive p;
     AllowedIPs := AllowedIPs p; Trick := Trick p |}.

Definition set_KeepAlive (k : Z) (p : PeerConfig) : PeerConfig :=
  {| PublicKey := PublicKey p; PreSharedKey := PreSharedKey p;
     Endpoint := Endpoint p; KeepAlive := k;
     AllowedIPs := AllowedIPs p; Trick := Trick p |}.

Definition set_Trick (t : bool) (p : PeerConfig) : PeerConfig :=
  {| PublicKey := PublicKey p; PreSharedKey := PreSharedKey p;
     Endpoint := Endpoint p; KeepAlive := KeepAlive p;
     AllowedIPs := AllowedIPs p; Trick := t |}.

Definition set_MTU (m : Z) (c : Configuration) : Configuration :=
  {| Interface := {| PrivateKey := PrivateKey (Interface c);
                     Addresses := Addresses (Interface c);
                     DNS := DNS (Interface c); MTU := m |};
     Peers := Peers c |}.

Definition encodeBase64ToHex (key : string) : result string :=
  match base64.DecodeString key with
  | Err _ | Panic _ => Err ("invalid base64 string: " +:+ key)
  | Ok decoded =>
      if negb (Nat.eqb (List.length decoded) 32)
      then Err ("key should be 32 bytes: " +:+ key)
      else Ok (hex.EncodeToString decoded)
  end.

Definition zero_psk : string :=
  "0000000000000000000000000000000000000000000000000000000000000000".

Section Config.
Context {L : ini.Lib}.

(** ParseInterface parses the [Interface] section. The [key == nil]
    tests of the source never fire, since [Section.Key] gives no nil. *)
Definition ParseInterface (cfg : ini.File) : result InterfaceConfig :=
  match ini.SectionsByName cfg "Interface" with
  | Ok [iface] =>
      let key := ini.SectionKey iface "Address" in
      let? addresses :=
        rmapM (fun s => let? prefix := netip.ParsePrefix s in
                        Ok (netip.Prefix_Addr prefix))
              (ini.StringsWithShadows key ",") in
      let key := ini.SectionKey iface "PrivateKey" in
      let? privateKeyHex := encodeBase64ToHex (ini.KeyString key) in
      let key := ini.SectionKey iface "DNS" in
      let? dns := rmapM netip.ParseAddr (ini.StringsWithShadows key ",") in
      let? mtu :=
        match ini.GetKey iface "MTU" with
        | Ok sectionKey => ini.KeyInt sectionKey
        | _ => Ok 0%Z
        end in
      Ok {| PrivateKey := privateKeyHex; Addresses := addresses;
            DNS := dns; MTU := mtu |}
  | _ => Err "only one [Interface] is expected"
  end.

(** The body of the loop of ParsePeers, for one [Peer] section. *)
Definition parsePeer (section : ini.Section) : result PeerConfig :=
  let? publicKey :=
    match ini.GetKey section "PublicKey" with
    | Ok sectionKey => encodeBase64ToHex (ini.KeyString sectionKey)
    | _ => Ok ""
    end in
  let? preSharedKey :=
    match ini.GetKey section "PreSharedKey" with
    | Ok sectionKey => encodeBase64ToHex (ini.KeyString sectionKey)
    | _ => Ok zero_psk
    end in
  let? keepAlive :=
    match ini.GetKey section "PersistentKeepalive" with
    | Ok sectionKey => ini.KeyInt sectionKey
    | _ => Ok 0%Z
    end in
  let? ips :=
    match ini.GetKey section "AllowedIPs" with
    | Ok sectionKey =>
        rmapM netip.ParsePrefix (ini.StringsWithShadows sectionKey ",")
    | _ => Ok []
    end in
  let endpoint :=
    match ini.GetKey section "Endpoint" with
    | Ok sectionKey => ini.KeyString sectionKey
    | _ => ""
    end in
  Ok {| PublicKey := publicKey; PreSharedKey := preSharedKey;
        Endpoint := endpoint; KeepAlive := keepAlive;
        AllowedIPs := ips; Trick := false |}.

(** ParsePeers parses the [Peer] sections. *)
Definition ParsePeers (cfg : ini.File) : result (list PeerConfig) :=
  match ini.SectionsByName cfg "Peer" with
  | Ok (s :: sections) => rmapM parsePeer (s :: sections)
  | _ => Err "at least one [Peer] is expected"
  end.

(** ParseConfig takes the path of a configuration file and parses it
    into a Configuration; every peer gets the endpoint given. *)
Definition ParseConfig (path endpoint : string) : M os.FS Configuration :=
  let* text := os.ReadFile path in
  lift (let? cfg := ini.Load text in
        let? iface := ParseInterface cfg in
        let? peers := ParsePeers cfg in
        Ok {| Interface := iface;
              Peers := map (set_Endpoint endpoint) peers |}).

End Config.

(** *** Starting the tunnel, the proxy and the forwarder *)

(** The virtual network and the device are handles given by the
    libraries that make them. *)
Record VirtualTun : Type := MkVirtualTun { Tnet : nat; Dev : nat }.

Record ScanOptions : Type := MkScanOptions { V4 : bool; V6 : bool; MaxRTT : Z }.

(** What the package gets from outside: the textual forms of [netip],
    the netstack and device calls, the sockets, and what the scanner
    shows at each poll of RunScan, in order, until its context is done. *)
Record Env : Type := MkEnv {
  PrefixString : netip.Prefix -> string;
  AddrPortString : netip.AddrPort -> string;
  CreateNetTUN : list netip.Addr -> list netip.Addr -> Z -> result nat;
  NewDevice : nat -> nat;
  IpcSet : nat -> string -> result unit;
  Up : nat -> result unit;
  net_Listen : string -> result netip.AddrPort;
  ResolveUDPAddr : string -> result netip.AddrPort;
  ListenUDP : netip.AddrPort -> result netip.AddrPort;
  DialUDP : nat -> netip.AddrPort -> result unit;
  GetAvailableIPs : string -> string -> ScanOptions -> list (list statute.IPInfo)
}.

(** The calls made, in order. *)
Inductive event : Type :=
| EvStartWireguard (conf : Configuration)
| EvStartProxy (vt : VirtualTun) (bindAddress : netip.AddrPort)
| EvUDPForwarder (localBind : netip.AddrPort) (dest : string)
                 (vtun : VirtualTun) (mtu : Z)
| EvRunScan (opts : ScanOptions).

Definition log (e : event) : M (list event) unit :=
  modify (fun tr => tr ++ [e]).

Section Run.
Context {L : ini.Lib}.
Variable env : Env.

(** The request that StartWireguard hands to [IpcSet]. *)
Definition peer_request (peer : PeerConfig) : string :=
  "public_key=" +:+ PublicKey peer +:+ LF
  +:+ "persistent_keepalive_interval=" +:+ gostrings.itoa (KeepAlive peer) +:+ LF
  +:+ "preshared_key=" +:+ PreSharedKey peer +:+ LF
  +:+ "endpoint=" +:+ Endpoint peer +:+ LF
  +:+ "trick=" +:+ gostrings.btoa (Trick peer) +:+ LF
  +:+ String.concat ""
        (map (fun cidr => "allowed_ip=" +:+ PrefixString env cidr +:+ LF)
             (AllowedIPs peer)).

Definition ipc_request (conf : Configuration) : string :=
  "private_key=" +:+ PrivateKey (Interface conf) +:+ LF
  +:+ String.concat "" (map peer_request (Peers conf)).

(** StartWireguard creates a tun interface on netstack given a
    configuration. *)
Definition StartWireguard (conf : Configuration) : M (list event) VirtualTun :=
  let* _ := log (EvStartWireguard conf) in
  let request := ipc_request conf in
  let* tnet := lift (CreateNetTUN env (Addresses (Interface conf))
                       (DNS (Interface conf)) (MTU (Interface conf))) in
  let dev := NewDevice env tnet in
  let* _ := lift (IpcSet env dev request) in
  let* _ := lift (Up env dev) in
  ret {| Tnet := tnet; Dev := dev |}.

(** StartProxy spawns the mixed proxy on a listener bound to
    [bindAddress] and gives the address the listener got. *)
Definition StartProxy (vt : VirtualTun) (bindAddress : netip.AddrPort)
    : M (list event) netip.AddrPort :=
  let* _ := log (EvStartProxy vt bindAddress) in
  lift (net_Listen env (AddrPortString env bindAddress)).

(** NewVtunUDPForwarder, up to the start of its goroutines: it gives
    the local address of the host listener. *)
Definition NewVtunUDPForwarder (localBind : netip.AddrPort) (dest : string)
    (vtun : VirtualTun) (mtu : Z) : M (list event) netip.AddrPort :=
  let* _ := log (EvUDPForwarder localBind dest vtun mtu) in
  let* destAddr := lift (ResolveUDPAddr env dest) in
  let* local := lift (ListenUDP env localBind) in
  let* _ := lift (DialUDP env (Tnet vtun) destAddr) in
  ret local.

(** The polling loop of RunScan: the first snapshot with more than one
    entry gives its first two; the context being done ends it. *)
Fixpoint poll (snapshots : list (list statute.IPInfo))
    : result (list statute.IPInfo) :=
  match snapshots with
  | [] => Err "user canceled the operation"
  | ipList :: rest =>
      if Nat.ltb 1 (List.length ipList) then Ok (take 2 ipList)
      else poll rest
  end.

Definition RunScan (opts : ScanOptions)
    : M (os.FS * list event) (list statute.IPInfo) :=
  let* text := wrap "failed to read file: "
                 (zoom fst (fun fs s => (fs, s.2))
                    (os.ReadFile "./stuff/primary/wgcf-profile.ini")) in
  let* cfg := lift (wrap_err "failed to read file: " (ini.LoadDefault text)) in
  let privateKey :=
    ini.KeyString (ini.SectionKey (ini.SectionOf cfg "Interface") "PrivateKey") in
  let publicKey :=
    ini.KeyString (ini.SectionKey (ini.SectionOf cfg "Peer") "PublicKey") in
  let* _ := zoom snd (fun tr s => (s.1, tr)) (log (EvRunScan opts)) in
  lift (poll (GetAvailableIPs env privateKey publicKey opts)).

End Run.

(** *** The goroutines of NewVtunUDPForwarder (udpfw.go) *)

Module fwd.

(** Where a forwarding goroutine is: at the [select] at the top of its
    loop, inside the blocking [ReadFrom] of its [default] case, or
    returned after [wg.Done()]. *)
Inductive gstate : Type := AtSelect | InRead | Exited.

Inductive goroutine : Type := HostToTun | TunToHost | Closer.

(** The calls made on the two sockets, in order. *)
Inductive io : Type :=
| HostRead (src : netip.AddrPort) (payload : string)
| TunWrite (payload : string)
| TunRead (payload : string)
| HostWrite (target : netip.AddrPort) (payload : string)
| CloseListener
| CloseRconn.

Record state : Type := MkState {
  cancelled : bool;                       (* ctx.Done() is closed *)
  g_host : gstate;                        (* the goroutine reading the listener *)
  g_tun : gstate;                         (* the goroutine reading rconn *)
  closer_done : bool;                     (* the third goroutine has run *)
  clientAddr : option netip.AddrPort;     (* nil until a datagram is read *)
  listener_open : bool;
  rconn_open : bool;
  host_queue : list (netip.AddrPort * string);  (* received, not yet read *)
  tun_queue : list string;
  calls : list io
}.

(** What happens around the goroutines, and which goroutine runs next. *)
Inductive action : Type :=
| Cancel
| HostDatagram (src : netip.AddrPort) (payload : string)
| TunDatagram (payload : string)
| HostReadError
| TunReadError
| Run (g : goroutine).

(** The state when NewVtunUDPForwarder returns. *)
Definition init : state :=
  {| cancelled := false; g_host := AtSelect; g_tun := AtSelect;
     closer_done := false; clientAddr := None;
     listener_open := true; rconn_open := true;
     host_queue := []; tun_queue := []; calls := [] |}.

(** One turn of the first goroutine. *)
Definition run_host (s : state) : state :=
  match g_host s with
  | Exited => s
  | AtSelect =>
      if cancelled s
      then {| cancelled := cancelled s; g_host := Exited; g_tun := g_tun s;
              closer_done := closer_done s; clientAddr := clientAddr s;
              listener_open := listener_open s; rconn_open := rconn_open s;
              host_queue := host_queue s; tun_queue := tun_queue s;
              calls := calls s |}
      else {| cancelled := cancelled s; g_host := InRead; g_tun := g_tun s;
              closer_done := closer_done s; clientAddr := clientAddr s;
              listener_open := listener_open s; rconn_open := rconn_open s;
              host_queue := host_queue s; tun_queue := tun_queue s;
              calls := calls s |}
  | InRead =>
      match host_queue s with
      | [] => s                               (* ReadFrom blocks *)
      | (cAddr, payload) :: rest =>
          {| cancelled := cancelled s; g_host := AtSelect; g_tun := g_tun s;
             closer_done := closer_done s; clientAddr := Some cAddr;
             listener_open := listener_open s; rconn_open := rconn_open s;
             host_queue := rest; tun_queue := tun_queue s;
             calls := calls s ++ [HostRead cAddr payload; TunWrite payload] |}
      end
  end.

(** One turn of the second goroutine. *)
Definition run_tun (s : state) : state :=
  match g_tun s with
  | Exited => s
  | AtSelect =>
      {| cancelled := cancelled s; g_host := g_host s;
         g_tun := if cancelled s then Exited else InRead;
         closer_done := closer_done s; clientAddr := clientAddr s;
         listener_open := listener_open s; rconn_open := rconn_open s;
         host_queue := host_queue s; tun_queue := tun_queue s;
         calls := calls s |}
  | InRead =>
      match tun_queue s with
      | [] => s                               (* ReadFrom blocks *)
      | payload :: rest =>
          {| cancelled := cancelled s; g_host := g_host s; g_tun := AtSelect;
             closer_done := closer_done s; clientAddr := clientAddr s;
             listener_open := listener_open s; rconn_open := rconn_open s;
             host_queue := host_queue s; tun_queue := rest;
             calls := calls s ++ TunRead payload ::
                      match clientAddr s with
                      | Some c => [HostWrite c payload]
                      | None => []
                      end |}
      end
  end.

(** The third goroutine: [wg.Wait()], then both closes. *)
Definition run_closer (s : state) : state :=
  match g_host s, g_tun s, closer_done s with
  | Exited, Exited, false =>
      {| cancelled := cancelled s; g_host := g_host s; g_tun := g_tun s;
         closer_done := true; clientAddr := clientAddr s;
         listener_open := false; rconn_open := false;
         host_queue := host_queue s; tun_queue := tun_queue s;
         calls := calls s ++ [CloseListener; CloseRconn] |}
  | _, _, _ => s
  end.

(** A failed [ReadFrom] sends its goroutine back to the [select]. *)
Definition fail_read (host : bool) (s : state) : state :=
  {| cancelled := cancelled s;
     g_host := if host then match g_host s with InRead => AtSelect | g => g end
               else g_host s;
     g_tun := if host then g_tun s
              else match g_tun s with InRead => AtSelect | g => g end;
     closer_done := closer_done s; clientAddr := clientAddr s;
     listener_open := listener_open s; rconn_open := rconn_open s;
     host_queue := host_queue s; tun_queue := tun_queue s;
     calls := calls s |}.

Definition step (s : state) (a : action) : state :=
  match a with
  | Cancel =>
      {| cancelled := true; g_host := g_host s; g_tun := g_tun s;
         closer_done := closer_done s; clientAddr := clientAddr s;
         listener_open := listener_open s; rconn_open := rconn_open s;
         host_queue := host_queue s; tun_queue := tun_queue s;
         calls := calls s |}
  | HostDatagram src payload =>
      {| cancelled := cancelled s; g_host := g_host s; g_tun := g_tun s;
         closer_done := closer_done s; clientAddr := clientAddr s;
         listener_open := listener_open s; rconn_open := rconn_open s;
         host_queue := if listener_open s
                       then host_queue s ++ [(src, payload)] else host_queue s;
         tun_queue := tun_queue s; calls := calls s |}
  | TunDatagram payload =>
      {| cancelled := cancelled s; g_host := g_host s; g_tun := g_tun s;
         closer_done := closer_done s; clientAddr := clientAddr s;
         listener_open := listener_open s; rconn_open := rconn_open s;
         host_queue := host_queue s;
         tun_queue := if rconn_open s
                      then tun_queue s ++ [payload] else tun_queue s;
         calls := calls s |}
  | HostReadError => fail_read true s
  | TunReadError => fail_read false s
  | Run HostToTun => run_host s
  | Run TunToHost => run_tun s
  | Run Closer => run_closer s
  end.

Definition run (tr : list action) (s : state) : state := fold_left step tr s.

(** The source of the first, and of the latest, datagram that the
    first goroutine has read. *)
Definition host_reads (l : list io) : list netip.AddrPort :=
  omap (fun c => match c with HostRead src _ => Some src | _ => None end) l.

Definition latest_read (l : list io) : option netip.AddrPort := last (host_reads l).

(** Every reply written on the listener goes to the address that [pick]
    gives for the calls made before it. *)
Definition replies_to (pick : list io -> option netip.AddrPort) (s : state) : Prop :=
  forall i target payload,
    calls s !! i = Some (HostWrite target payload) ->
    pick (take i (calls s)) = Some target.

(** The variable [clientAddr] holds the source of the latest datagram
    read, and the replies so far went there. *)
Definition consistent (s : state) : Prop :=
  clientAddr s = latest_read (calls s) /\ replies_to latest_read s.

End fwd.

(** *** generalHandler and its two copies (proxy.go) *)

Module handler.

Inductive side : Type := Client | Upstream.   (* req.Conn and conn *)

(** One end of a connection, seen from the handler: what the peer has
    sent and the handler has not read yet, whether the peer has ended
    its stream after that, whether the handler has closed the
    connection, and what the handler has written to the peer. *)
Record conn : Type := MkConn {
  inbox : list string;
  peer_eof : bool;
  closed : bool;
  outbox : list string
}.

(** An [io.Copy] goroutine: copying, holding the result it is about to
    send on [done], or finished. *)
Inductive copier : Type :=
| Copying
| Sending (err : option string)
| Finished.

(** The handler itself, after the start of both copies. *)
Inductive pc : Type := WaitFirst | Closing | WaitSecond | Returned.

Record state : Type := MkState {
  client : conn;
  upstream : conn;
  c2u : copier;                   (* io.Copy(conn, req.Conn) *)
  u2c : copier;                   (* io.Copy(req.Conn, conn) *)
  done : list (option string);    (* the channel, of capacity 1 *)
  main : pc;
  warned : list string
}.

Inductive thread : Type := Main | CopyC2U | CopyU2C.

Inductive action : Type :=
| PeerSend (s : side) (chunk : string)
| PeerEOF (s : side)
| Run (t : thread).

Definition close (c : conn) : conn :=
  {| inbox := inbox c; peer_eof := peer_eof c; closed := true; outbox := outbox c |}.

(** One turn of [io.Copy(dst, src)]: a read of [src], then a write of
    what was read to [dst]. *)
Definition copy_turn (src dst : conn) : conn * conn * copier :=
  if closed src then (src, dst, Sending (Some "use of closed network connection"))
  else
    match inbox src with
    | chunk :: rest =>
        let src' := {| inbox := rest; peer_eof := peer_eof src;
                       closed := closed src; outbox := outbox src |} in
        if closed dst
        then (src', dst, Sending (Some "use of closed network connection"))
        else (src',
              {| inbox := inbox dst; peer_eof := peer_eof dst;
                 closed := closed dst; outbox := outbox dst ++ [chunk] |},
              Copying)
    | [] =>
        if peer_eof src then (src, dst, Sending None)   (* EOF: Copy gives nil *)
        else (src, dst, Copying)                          (* Read blocks *)
    end.

Definition run_copier (c2u_dir : bool) (s : state) : state :=
  let me := if c2u_dir then c2u s else u2c s in
  let put (cl up : conn) (me' : copier) (d : list (option string)) : state :=
    {| client := cl; upstream := up;
       c2u := if c2u_dir then me' else c2u s;
       u2c := if c2u_dir then u2c s else me';
       done := d; main := main s; warned := warned s |} in
  match me with
  | Copying =>
      if c2u_dir
      then let '(src, dst, me') := copy_turn (client s) (upstream s) in
           put src dst me' (done s)
      else let '(src, dst, me') := copy_turn (upstream s) (client s) in
           put dst src me' (done s)
  | Sending err =>
      match done s with
      | [] => put (client s) (upstream s) Finished [err]
      | _ => s                                  (* the channel is full *)
      end
  | Finished => s
  end.

Definition run_main (s : state) : state :=
  match main s with
  | WaitFirst =>
      match done s with
      | err :: rest =>
          {| client := client s; upstream := upstream s; c2u := c2u s; u2c := u2c s;
             done := rest; main := Closing;
             warned := match err with
                       | Some e => warned s ++ [e]
                       | None => warned s
                       end |}
      | [] => s
      end
  | Closing =>
      (* Close connections and wait for the other copy operation to finish *)
      {| client := close (client s); upstream := close (upstream s);
         c2u := c2u s; u2c := u2c s; done := done s; main := WaitSecond;
         warned := warned s |}
  | WaitSecond =>
      match done s with
      | _ :: rest =>
          {| client := close (client s); upstream := close (upstream s);
             c2u := c2u s; u2c := u2c s; done := rest; main := Returned;
             warned := warned s |}
      | [] => s
      end
  | Returned => s
  end.

Definition receive (chunk : option string) (c : conn) : conn :=
  if closed c || peer_eof c then c
  else match chunk with
       | Some d => {| inbox := inbox c ++ [d]; peer_eof := false;
                      closed := closed c; outbox := outbox c |}
       | None => {| inbox := inbox c; peer_eof := true;
                    closed := closed c; outbox := outbox c |}
       end.

Definition on_side (sd : side) (f : conn -> conn) (s : state) : state :=
  {| client := match sd with Client => f (client s) | Upstream => client s end;
     upstream := match sd with Upstream => f (upstream s) | Client => upstream s end;
     c2u := c2u s; u2c := u2c s; done := done s; main := main s;
     warned := warned s |}.

Definition step (s : state) (a : action) : state :=
  match a with
  | PeerSend sd chunk => on_side sd (receive (Some chunk)) s
  | PeerEOF sd => on_side sd (receive None) s
  | Run Main => run_main s
  | Run CopyC2U => run_copier true s
  | Run CopyU2C => run_copier false s
  end.

Definition run (tr : list action) (s : state) : state := fold_left step tr s.

Definition fresh : conn :=
  {| inbox := []; peer_eof := false; closed := false; outbox := [] |}.

(** The state once the dial has succeeded and both copies are started. *)
Definition init : state :=
  {| client := fresh; upstream := fresh; c2u := Copying; u2c := Copying;
     done := []; main := WaitFirst; warned := [] |}.

(** What a peer has sent in a run, in order. *)
Definition sent (sd : side) (tr : list action) : list string :=
  omap (fun a => match a, sd with
                 | PeerSend Client d, Client => Some d
                 | PeerSend Upstream d, Upstream => Some d
                 | _, _ => None
                 end) tr.

(** Both connections are torn down. *)
Definition torn_down (s : state) : bool :=
  closed (client s) && closed (upstream s).

(** The handler is past its two Close calls. *)
Definition past_closing (p : pc) : bool :=
  match p with WaitSecond | Returned => true | _ => false end.

(** What a graceful half-close would give: with [tr1] leading to the
    point where the handler has learnt of a clean end of stream, and
    [tr2] from there to its return, all that was in flight at that
    point has been delivered at the return. *)
Definition graceful (tr1 tr2 : list action) : Prop :=
  let s1 := run tr1 init in
  let s2 := run tr2 s1 in
  main s1 = Closing -> warned s1 = [] -> main s2 = Returned ->
  (exists more, outbox (client s2) = outbox (client s1) ++ inbox (upstream s1) ++ more)
  /\ (exists more, outbox (upstream s2) = outbox (upstream s1) ++ inbox (client s1) ++ more).

(** Results taken from [done] by the handler, and sent by a copy. *)
Definition received (p : pc) : nat :=
  match p with WaitFirst => 0 | Closing | WaitSecond => 1 | Returned => 2 end.

Definition finished (c : copier) : nat :=
  match c with Finished => 1 | _ => 0 end.

Definition consistent (s : state) : Prop :=
  (received (main s) + List.length (done s) = finished (c2u s) + finished (u2c s))%nat
  /\ (past_closing (main s) = true -> torn_down s = true).

End handler.

End wiresocks.

(** ** Package [warp]: identities and the profile written from them
       (account.go) *)

Module warp.

Definition identityFile : string := "wgcf-identity.json".
Definition profileFile : string := "wgcf-profile.ini".

(** The fields of the registration response that the code reads. *)
Record IdentityAccount : Type := MkIdentityAccount { License : string }.

Record IdentityConfigPeerEndpoint : Type := MkIdentityConfigPeerEndpoint {
  Host : string
}.

Record IdentityConfigPeer : Type := MkIdentityConfigPeer {
  PublicKey : string;
  Endpoint : IdentityConfigPeerEndpoint
}.

Record IdentityConfigInterfaceAddresses : Type :=
  MkIdentityConfigInterfaceAddresses { V4 : string; V6 : string }.

Record IdentityConfig : Type := MkIdentityConfig {
  Peers : list IdentityConfigPeer;
  InterfaceAddresses : IdentityConfigInterfaceAddresses
}.

Record Identity : Type := MkIdentity {
  PrivateKey : string;
  Account : IdentityAccount;
  Config : IdentityConfig;
  Token : string;
  ID : string
}.

Definition set_PrivateKey (k : string) (i : Identity) : Identity :=
  {| PrivateKey := k; Account := Account i; Config := Config i;
     Token := Token i; ID := ID i |}.

Definition set_Account (a : IdentityAccount) (i : Identity) : Identity :=
  {| PrivateKey := PrivateKey i; Account := a; Config := Config i;
     Token := Token i; ID := ID i |}.

(** What the package gets from outside the process: key generation, the
    two calls to the registration API, and the JSON codec. *)
Record Env : Type := MkEnv {
  GeneratePrivateKey : result (string * string);
  doRegister : string -> result Identity;
  updateLicenseKey : string -> string -> string -> result IdentityAccount;
  json_Encode : Identity -> result string;
  json_Unmarshal : string -> result Identity
}.

Definition mode_0600 : N := 384.   (* 0o600 *)

Section Account.
Variable env : Env.

Definition saveIdentity (a : Identity) (path : string) : M os.FS unit :=
  let name := os.Join path identityFile in
  let* _ := os.Create name in
  let* text := lift (json_Encode env a) in
  os.Write name text.

(** The text that createConf builds in its buffer. *)
Definition profile_text (privateKey v4 v6 publicKey host : string)
    : string :=
  "[Interface]" +:+ LF
  +:+ "PrivateKey = " +:+ privateKey +:+ LF
  +:+ "DNS = " +:+ "1.1.1.1, " +:+ "1.0.0.1, " +:+ "8.8.8.8, "
  +:+ "8.8.4.4, " +:+ "9.9.9.9, " +:+ "149.112.112.112, "
  +:+ "2606:4700:4700::1111, " +:+ "2606:4700:4700::1001, "
  +:+ "2001:4860:4860::8888, " +:+ "2001:4860:4860::8844, "
  +:+ "2620:fe::fe, " +:+ "2620:fe::9" +:+ LF
  +:+ "Address = " +:+ v4 +:+ "/24" +:+ LF
  +:+ "Address = " +:+ v6 +:+ "/128" +:+ LF
  +:+ "[Peer]" +:+ LF
  +:+ "PublicKey = " +:+ publicKey +:+ LF
  +:+ "AllowedIPs = 0.0.0.0/0" +:+ LF
  +:+ "AllowedIPs = ::/0" +:+ LF
  +:+ "Endpoint = " +:+ host +:+ LF.

(** [i.Config.Peers[0]] panics on an identity without peers, before
    anything is written. *)
Definition createConf (i : Identity) (path : string) : M os.FS unit :=
  match Peers (Config i) with
  | [] => lift (Panic "runtime error: index out of range [0] with length 0")
  | peer0 :: _ =>
      os.WriteFile (os.Join path profileFile)
        (profile_text (PrivateKey i)
           (V4 (InterfaceAddresses (Config i)))
           (V6 (InterfaceAddresses (Config i)))
           (PublicKey peer0) (Host (Endpoint peer0)))
        mode_0600
  end.

Definition LoadIdentity (path : string) : M os.FS Identity :=
  let identityPath := os.Join path identityFile in
  let* _ := os.Stat identityPath in
  let profilePath := os.Join path profileFile in
  let* _ := os.Stat profilePath in
  let* fileBytes := os.ReadFile identityPath in
  let* i := lift (json_Unmarshal env fileBytes) in
  if Nat.ltb (List.length (Peers (Config i))) 1
  then lift (Err "identity contains 0 peers")
  else ret i.

Definition CreateIdentity (path license : string) : M os.FS Identity :=
  let* keys := lift (GeneratePrivateKey env) in
  let '(privateKey, publicKey) := keys in
  let* i := lift (doRegister env publicKey) in
  let* i :=
    if negb (String.eqb license "") then
      let* ac := lift (updateLicenseKey env (ID i) (Token i) license) in
      ret (set_Account ac i)
    else ret i in
  let i := set_PrivateKey privateKey i in
  let* _ := saveIdentity i path in
  ret i.

(** What both branches of LoadOrCreateIdentity do to start afresh. *)
Definition recreate (path license : string) : M os.FS Identity :=
  let* _ := os.RemoveAll path in
  let* _ := os.MkdirAll path in
  CreateIdentity path license.

Definition LoadOrCreateIdentity (path license : string) : M os.FS unit :=
  fun fs =>
    let first : M os.FS Identity :=
      match LoadIdentity path fs with
      | (Ok i, _) => ret i
      | (Panic e, _) => lift (Panic e)
      | (Err _, _) => recreate path license
      end in
    (let* i := first in
     let* i :=
       if negb (String.eqb license "")
          && negb (String.eqb (License (Account i)) license)
       then recreate path license
       else ret i in
     wrap "unable to enable write config file: " (createConf i path)) fs.

End Account.

End warp.

(** ** Package [engine] of the scanner: the loop and its queue *)

Module engine.
Import statute.



(** Modelled from the spec: the type IPQueue, whose file is not among the
    sources: "an ordered collection of IPInfos, capped at N (default 8),
    keyed by address, sorted ascending by RTT". *)
Record IPQueue : Type := MkIPQueue {
  queue : list IPInfo;
  maxQueueSize : nat;
  maxTTL : Z
}.


Definition with_queue (q : IPQueue) (l : list IPInfo) : IPQueue :=
  {| queue := l; maxQueueSize := maxQueueSize q; maxTTL := maxTTL q |}.

Definition addr_of (i : IPInfo) : netip.Addr := netip.AddrPort_Addr (AddrPort i).

#[export] Instance Addr_eq_dec : EqDecision netip.Addr.
Proof. solve_decision. Defined.

(** The place of a new entry in a list sorted by RTT: before the first
    entry with a larger RTT. *)
Fixpoint insert_sorted (info : IPInfo) (l : list IPInfo) : list IPInfo :=
  match l with
  | [] => [info]
  | x :: l' =>
      if Z.ltb (RTT info) (RTT x) then info :: l
      else x :: insert_sorted info l'
  end.

(** Modelled from the spec: IPQueue.Enqueue, which is not among the
    sources: "(a) if size < capacity, insert; (b) else if new RTT < max
    RTT in set, evict the max and insert; (c) ignore on duplicate
    address". The set being sorted, its maximum is its last entry. *)
Definition Enqueue (info : IPInfo) (q : IPQueue) : IPQueue :=
  if existsb (fun x => bool_decide (addr_of x = addr_of info)) (queue q)
  then q
  else if Nat.ltb (List.length (queue q)) (maxQueueSize q)
  then with_queue q (insert_sorted info (queue q))
  else
    match last (queue q) with
    | Some m =>
        if Z.ltb (RTT info) (RTT m)
        then with_queue q (insert_sorted info (removelast (queue q)))
        else q
    | None => q
    end.

(** Modelled from the spec: IPQueue.Expire, which is not among the
    sources: "entries older than a fixed TTL (default 30 s) are
    dropped". *)
Definition Expire (now : Z) (q : IPQueue) : IPQueue :=
  with_queue q (filter (fun x => (now - CreatedAt x <= maxTTL q)%Z) (queue q)).

(** Modelled from the spec: IPQueue.AvailableIPs, which is not among the
    sources: "snapshot of current best IPInfos", in descending order of
    RTT when [desc] is set. *)
Definition AvailableIPs (desc : bool) (q : IPQueue) : list IPInfo :=
  if desc then rev (queue q) else queue q.

(** The engine; its generator and its ping come from outside through
    what the loop observes. *)
Record Engine : Type := MkEngine { ipQueue : option IPQueue }.


Definition GetAvailableIPs (e : Engine) (desc : bool) : list IPInfo :=
  match ipQueue e with
  | Some q => AvailableIPs desc q
  | None => []
  end.

(** One address of a batch: whether the context is done when its turn
    comes, and what the ping gives. *)
Record probe : Type := MkProbe {
  ctx_done : bool;
  ping : result IPInfo
}.

(** What the outer [select] of Run finds at one turn of the loop: the
    context done, the queue asking for more (with what NextBatch gives),
    or neither (with the time at which Expire runs). *)
Inductive turn : Type :=
| Done
| Available (batch : result (list probe))
| Idle (now : Z).

(** The inner loop of Run over a batch: the queue after each address
    and whether the loop returned on a done context. *)
Fixpoint run_batch (batch : list probe) (q : IPQueue) : list IPQueue * bool :=
  match batch with
  | [] => ([], false)
  | p :: rest =>
      if ctx_done p then ([], true)
      else
        let q' := match ping p with
                  | Ok ipInfo => Enqueue ipInfo q
                  | _ => q
                  end in
        let '(qs, stopped) := run_batch rest q' in
        (q' :: qs, stopped)
  end.

Definition last_or (q : IPQueue) (qs : list IPQueue) : IPQueue :=
  match last qs with Some q' => q' | None => q end.

(** Run: the states of the queue, one after each change, for the turns
    that the loop takes. *)
Fixpoint Run_from (turns : list turn) (q : IPQueue) : list IPQueue :=
  match turns with
  | [] => []
  | Done :: _ => []
  | Available (Ok batch) :: rest =>
      let '(qs, stopped) := run_batch batch q in
      if stopped then qs else qs ++ Run_from rest (last_or q qs)
  | Available _ :: rest => Run_from rest q
  | Idle now :: rest =>
      let q' := Expire now q in
      q' :: Run_from rest q'
  end.

(** The states of the queue of an engine during a scan, the first one
    included. A nil queue makes Run panic at once. *)
Definition Run (e : Engine) (turns : list turn) : list IPQueue :=
  match ipQueue e with
  | Some q => q :: Run_from turns q
  | None => []
  end.






End engine.

(** ** Package [psiphon]: the Psiphon tunnel on top of Warp (p.go) *)

Module psiphon.

(** What wakes the loop of RunPsiphon: its ticker, or its context being
    cancelled or past its deadline. *)
Inductive wake : Type := Tick | Canceled | DeadlineExceeded.

(** From outside: [net.SplitHostPort], the wake-ups of the loop in order
    (the two-minute deadline ends them), and the result of the n-th
    [StartTunnel]: the SOCKS port of the tunnel. *)
Record Env : Type := MkEnv {
  SplitHostPort : string -> result (string * string);
  wakes : list wake;
  StartTunnel : nat -> string -> result N
}.

Inductive event : Type :=
| EvRunPsiphon (wgBind localSocksPort country : string)
| EvStartTunnel (configJSON : string).

Definition log (e : event) : M (list event) unit :=
  modify (fun tr => tr ++ [e]).

Definition HT : string := String (ascii_of_N 9) EmptyString.
Definition DQ : string := String (ascii_of_N 34) EmptyString.

(** A line of the embedded configuration: two tabs, the quoted key, a
    colon, what follows it, and a line feed. *)
Definition entry (key rest : string) : string :=
  HT +:+ HT +:+ DQ +:+ key +:+ DQ +:+ ":" +:+ rest +:+ LF.

Definition quoted (s : string) : string := DQ +:+ s +:+ DQ.

Definition RemoteServerListSignaturePublicKey : string :=
  "MIICIDANBgkqhkiG9w0BAQEFAAOCAg0AMIICCAKCAgEAt7Ls+/39r+T6zNW7GiVpJfzq/xvL9SBH5rIFnk0RXYEYavax3WS6HOD35eTAqn8AniOwiH+DOkvgSKF2caqk/y1dfq47Pdymtwzp9ikpB1C5OfAysXzBiwVJlCdajBKvBZDerV1cMvRzCKvKwRmvDmHgphQQ7WfXIGbRbmmk6opMBh3roE42KcotLFtqp0RRwLtcBRNtCdsrVsjiI1Lqz/lH+T61sGjSjQ3CHMuZYSQJZo/KrvzgQXpkaCTdbObxHqb6/+i1qaVOfEsvjoiyzTxJADvSytVtcTjijhPEV6XskJVHE1Zgl+7rATr/pDQkw6DPCNBS1+Y6fy7GstZALQXwEDN/qhQI9kWkHijT8ns+i1vGg00Mk/6J75arLhqcodWsdeG/M/moWgqQAnlZAGVtJI1OgeF5fsPpXu4kctOfuZlGjVZXQNW34aOzm8r8S0eVZitPlbhcPiR4gT/aSMz/wd8lZlzZYsje/Jr8u/YtlwjjreZrGRmG8KMOzukV3lLmMppXFMvl4bxv6YFEmIuTsOhbLTwFgh7KYNjodLj/LsqRVfwz31PgWQFTEPICV7GCvgVlPRxnofqKSjgTWI4mxDhBpVcATvaoBl1L/6WLbFvBsoAUBItWwctO2xalKxF5szhGm8lccoc5MZr8kfE0uxMgsxz4er68iCID+rsCAQM=".

(** The embedded configuration of RunPsiphon. *)
Definition configJSON (country host port wgBind : string) : string :=
  "{" +:+ LF
  +:+ entry "EgressRegion" (" " +:+ quoted country +:+ ",")
  +:+ entry "ListenInterface" (" " +:+ quoted host +:+ ",")
  +:+ entry "LocalSocksProxyPort" (" " +:+ port +:+ ",")
  +:+ entry "UpstreamProxyURL" (" " +:+ quoted ("socks5://" +:+ wgBind) +:+ ",")
  +:+ entry "DisableLocalHTTPProxy" " true,"
  +:+ entry "PropagationChannelId" (quoted "FFFFFFFFFFFFFFFF" +:+ ",")
  +:+ entry "RemoteServerListDownloadFilename" (quoted "remote_server_list" +:+ ",")
  +:+ entry "RemoteServerListSignaturePublicKey"
        (quoted RemoteServerListSignaturePublicKey +:+ ",")
  +:+ entry "RemoteServerListUrl"
        (quoted "https://s3.amazonaws.com//psiphon/web/mjr4-p23r-puwl/server_list_compressed" +:+ ",")
  +:+ entry "SponsorId" (quoted "FFFFFFFFFFFFFFFF" +:+ ",")
  +:+ entry "UseIndistinguishableTLS" "true,"
  +:+ entry "AllowDefaultDNSResolverWithBindToDevice" "true"
  +:+ HT +:+ "}".

Section Run.
Variable env : Env.

(** The loop of RunPsiphon: the n-th tick makes the n-th attempt. A
    start that gives an error is tried again at the next tick; a start
    that panics ends the loop, and RunPsiphon, with its panic. *)
Fixpoint attempts (ws : list wake) (n : nat) (config : string)
    : M (list event) unit :=
  match ws with
  | [] | DeadlineExceeded :: _ =>
      lift (Err "psiphon handshake maximum time exceeded")
  | Canceled :: _ => lift (Err "psiphon handshake operation canceled")
  | Tick :: ws' =>
      let* _ := log (EvStartTunnel config) in
      match StartTunnel env n config with
      | Ok _ => ret tt
      | Err _ => attempts ws' (S n) config
      | Panic e => lift (Panic e)
      end
  end.

Definition RunPsiphon (wgBind localSocksPort country : string)
    : M (list event) unit :=
  let* _ := log (EvRunPsiphon wgBind localSocksPort country) in
  let* hp := lift (SplitHostPort env localSocksPort) in
  let '(host, port) := hp in
  let host := if gostrings.HasPrefix host "127.0.0" then "" else "any" in
  attempts (wakes env) 0 (configJSON country host port wgBind).

End Run.

End psiphon.

(** ** Package [app] and the command line: the orchestrator (app.go) *)

Module app.

Definition singleMTU : Z := 1330.
Definition doubleMTU : Z := 1280.

Record PsiphonOptions : Type := MkPsiphonOptions { Country : string }.

Record WarpOptions : Type := MkWarpOptions {
  Bind : netip.AddrPort;
  Endpoint : string;
  License : string;
  Psiphon : option PsiphonOptions;
  Gool : bool;
  Scan : option wiresocks.ScanOptions
}.

(** The state the orchestrator acts on: the files, and the calls made
    into [wiresocks] and into [psiphon]. *)
Record Sys : Type := MkSys {
  fs : os.FS;
  wg : list wiresocks.event;
  psi : list psiphon.event
}.

Definition on_fs {A} (m : M os.FS A) : M Sys A :=
  zoom fs (fun f s => {| fs := f; wg := wg s; psi := psi s |}) m.

Definition on_wg {A} (m : M (list wiresocks.event) A) : M Sys A :=
  zoom wg (fun w s => {| fs := fs s; wg := w; psi := psi s |}) m.

Definition on_psi {A} (m : M (list psiphon.event) A) : M Sys A :=
  zoom psi (fun p s => {| fs := fs s; wg := wg s; psi := p |}) m.

Definition on_fs_wg {A} (m : M (os.FS * list wiresocks.event) A) : M Sys A :=
  zoom (fun s => (fs s, wg s))
       (fun fw s => {| fs := fw.1; wg := fw.2; psi := psi s |}) m.

(** [xs[i]], which panics out of range. *)
Definition index {A} (xs : list A) (i : nat) : result A :=
  match xs !! i with
  | Some x => Ok x
  | None => Panic "runtime error: index out of range"
  end.

Record Env : Type := MkEnv {
  warp_env : warp.Env;
  ws_env : wiresocks.Env;
  psi_env : psiphon.Env
}.

Section Orchestrator.
Context {L : ini.Lib}.
Variable env : Env.

(** The loop that every scenario runs over the parsed peers. *)
Definition outer_peer (peer : wiresocks.PeerConfig) : wiresocks.PeerConfig :=
  wiresocks.set_KeepAlive 3 (wiresocks.set_Trick true peer).

Definition inner_peer (peer : wiresocks.PeerConfig) : wiresocks.PeerConfig :=
  wiresocks.set_KeepAlive 10 peer.

Definition with_peers (f : wiresocks.PeerConfig -> wiresocks.PeerConfig)
    (conf : wiresocks.Configuration) : wiresocks.Configuration :=
  {| wiresocks.Interface := wiresocks.Interface conf;
     wiresocks.Peers := map f (wiresocks.Peers conf) |}.

Definition runWarp (bind : netip.AddrPort) (endpoint : string) : M Sys unit :=
  let* conf := on_fs (wiresocks.ParseConfig "./stuff/primary/wgcf-profile.ini" endpoint) in
  let conf := wiresocks.set_MTU singleMTU conf in
  let conf := with_peers outer_peer conf in
  let* tnet := on_wg (wiresocks.StartWireguard (ws_env env) conf) in
  let* _ := on_wg (wiresocks.StartProxy (ws_env env) tnet bind) in
  ret tt.

Definition runWarpWithPsiphon (bind : netip.AddrPort) (endpoint country : string)
    : M Sys unit :=
  let* conf := on_fs (wiresocks.ParseConfig "./stuff/primary/wgcf-profile.ini" endpoint) in
  let conf := wiresocks.set_MTU singleMTU conf in
  let conf := with_peers outer_peer conf in
  let* tnet := on_wg (wiresocks.StartWireguard (ws_env env) conf) in
  let* warpBind := on_wg (wiresocks.StartProxy (ws_env env) tnet netip.loopback_any_port) in
  wrap "unable to run psiphon "
    (on_psi (psiphon.RunPsiphon (psi_env env)
               (wiresocks.AddrPortString (ws_env env) warpBind)
               (wiresocks.AddrPortString (ws_env env) bind) country)).

Definition runWarpInWarp (bind : netip.AddrPort) (endpoints : list string)
    : M Sys unit :=
  (* Run outer warp *)
  let* endpoint0 := lift (index endpoints 0) in
  let* conf := on_fs (wiresocks.ParseConfig "./stuff/primary/wgcf-profile.ini" endpoint0) in
  let conf := wiresocks.set_MTU singleMTU conf in
  let conf := with_peers outer_peer conf in
  let* tnet := on_wg (wiresocks.StartWireguard (ws_env env) conf) in
  (* Create a UDP port forward between localhost and the remote endpoint *)
  let* endpoint1 := lift (index endpoints 1) in
  let* addr := on_wg (wiresocks.NewVtunUDPForwarder (ws_env env)
                        netip.loopback_any_port endpoint1 tnet singleMTU) in
  (* Run inner warp *)
  let* conf := on_fs (wiresocks.ParseConfig "./stuff/secondary/wgcf-profile.ini"
                        (wiresocks.AddrPortString (ws_env env) addr)) in
  let conf := wiresocks.set_MTU doubleMTU conf in
  let conf := with_peers inner_peer conf in
  let* tnet := on_wg (wiresocks.StartWireguard (ws_env env) conf) in
  let* _ := on_wg (wiresocks.StartProxy (ws_env env) tnet bind) in
  ret tt.

Definition createPrimaryAndSecondaryIdentities (license : string) : M Sys unit :=
  (* make primary identity *)
  let* _ := on_fs (warp.LoadOrCreateIdentity (warp_env env) "./stuff/primary" license) in
  (* make secondary *)
  on_fs (warp.LoadOrCreateIdentity (warp_env env) "./stuff/secondary" license).

Definition has_psiphon (opts : WarpOptions) : bool :=
  match Psiphon opts with Some _ => true | None => false end.

Definition RunWarp (opts : WarpOptions) : M Sys unit :=
  if has_psiphon opts && Gool opts
  then lift (Err "can't use psiphon and gool at the same time")
  else if match Psiphon opts with
          | Some p => String.eqb (Country p) ""
          | None => false
          end
  then lift (Err "must provide country for psiphon")
  else
    (* create identities *)
    let* _ := createPrimaryAndSecondaryIdentities (License opts) in
    (* Decide Working Scenario *)
    let* endpoints :=
      match Scan opts with
      | Some scan =>
          let* res := on_fs_wg (wiresocks.RunScan (ws_env env) scan) in
          ret (map (fun r => wiresocks.AddrPortString (ws_env env)
                               (statute.AddrPort r)) res)
      | None => ret [Endpoint opts; Endpoint opts]
      end in
    match Psiphon opts with
    | Some p =>
        (* run primary warp on a random tcp port and run psiphon on bind address *)
        let* endpoint0 := lift (index endpoints 0) in
        runWarpWithPsiphon (Bind opts) endpoint0 (Country p)
    | None =>
        if Gool opts
        then (* run warp in warp *)
          runWarpInWarp (Bind opts) endpoints
        else (* just run primary warp on bindAddress *)
          let* endpoint0 := lift (index endpoints 0) in
          runWarp (Bind opts) endpoint0
    end.

End Orchestrator.

(** *** The command line (main.go) *)

Record Flags : Type := MkFlags {
  v4 : bool; v6 : bool; verbose : bool;
  bind : string; endpoint : string; key : string;
  gool : bool; psiphon : bool; country : string;
  scan : bool; rtt : Z
}.

(** From outside: [netip.ParseAddrPort] and [warp.RandomWarpEndpoint]. *)
Record MainEnv : Type := MkMainEnv {
  ParseAddrPort : string -> result netip.AddrPort;
  RandomWarpEndpoint : bool -> bool -> result netip.AddrPort
}.

(** How [main] ends: [fatal] logs the error and exits with status 1;
    otherwise RunWarp has run, and its error is fatal too. *)
Inductive outcome : Type :=
| Fatal (msg : string)
| Serving.

Section Main.
Context {L : ini.Lib}.
Variable env : Env.
Variable menv : MainEnv.

(** The options that [main] builds from the flags, after its checks. *)
Definition options (f : Flags) : result WarpOptions :=
  if psiphon f && gool f
  then Err "can't use cfon and gool at the same time"
  else if v4 f && v6 f
  then Err "can't force v4 and v6 at the same time"
  else
    let '(v4', v6') :=
      if negb (v4 f) && negb (v6 f) then (true, true) else (v4 f, v6 f) in
    let? bindAddrPort := wrap_err "invalid bind address: " (ParseAddrPort menv (bind f)) in
    let psiphonOpts :=
      if psiphon f then Some {| Country := country f |} else None in
    let scanOpts :=
      if scan f
      then Some {| wiresocks.V4 := v4'; wiresocks.V6 := v6';
                   wiresocks.MaxRTT := rtt f |}
      else None in
    let? endpoint' :=
      if String.eqb (endpoint f) "" then
        let? addrPort := RandomWarpEndpoint menv v4' v6' in
        Ok (wiresocks.AddrPortString (ws_env env) addrPort)
      else Ok (endpoint f) in
    Ok {| Bind := bindAddrPort; Endpoint := endpoint';
          License := key f; Psiphon := psiphonOpts;
          Gool := gool f; Scan := scanOpts |}.

Definition main (f : Flags) (s : Sys) : outcome * Sys :=
  match options f with
  | Ok opts =>
      match RunWarp env opts s with
      | (Ok _, s') => (Serving, s')
      | (Err e, s') | (Panic e, s') => (Fatal e, s')
      end
  | Err e | Panic e => (Fatal e, s)
  end.

End Main.

End app.

(** ** A model of go-ini for profiles in plain syntax *)

Module goini.
Import gostrings.

(** A key keeps its first value and, with shadows allowed, the values of
    its repetitions. A file is its sections in order, the default one
    first. *)
Record Key : Type := MkKey { name : string; value : string; shadows : list string }.

Record Section : Type := MkSection { sname : string; keys : list Key }.

Record options : Type := MkOptions {
  Insensitive : bool;
  AllowShadows : bool;
  AllowNonUniqueSections : bool
}.

Record File : Type := MkFile { opts : options; sections : list Section }.

(** The model covers text in ASCII where no key name is quoted or "-",
    no value is in back quotes or triple quotes, ends in a backslash or
    holds a percent sign, and no section name holds a dot. A file outside
    of that is refused with this message, which go-ini does not have. *)
Definition unmodelled {A} : result A := Err "ini: outside the modelled syntax".

Definition is_char (c : ascii) (x : ascii) : bool := Ascii.eqb x c.

(** The double quote. *)
Definition dquote : ascii := ascii_of_N 34.

Definition hasSurroundedQuote (l : list ascii) (quote : ascii) : bool :=
  match l with
  | c :: rest =>
      Nat.leb 2 (List.length l) && Ascii.eqb c quote
      && match last l with Some z => Ascii.eqb z quote | None => false end
      && match index_where (is_char quote) rest with
         | Some i => Nat.eqb i (List.length l - 2)
         | None => false
         end
  | [] => false
  end.

(** Whether the text is longer than three bytes and starts with three
    double quotes. *)
Definition starts_triple_quote (line : list ascii) : bool :=
  Nat.ltb 3 (List.length line)
  && match line with
     | c1 :: c2 :: c3 :: _ =>
         Ascii.eqb c1 dquote && Ascii.eqb c2 dquote && Ascii.eqb c3 dquote
     | _ => false
     end.

(** [parser.readValue] on the text after the delimiter. *)
Definition readValue (input : list ascii) : result string :=
  match trim_left input with
  | [] => Ok ""
  | c :: rest =>
      let line := c :: rest in
      if Ascii.eqb c "`" || starts_triple_quote line
      then unmodelled
      else
        let line := trim line in
        if match last line with Some z => Ascii.eqb z "\" | None => false end
        then unmodelled
        else
          let line :=
            match index_where (fun x => Ascii.eqb x "#" || Ascii.eqb x ";") line with
            | Some i => trim (take i line)
            | None => line
            end in
          let line :=
            if hasSurroundedQuote line "'" || hasSurroundedQuote line dquote
            then take (List.length line - 2) (drop 1 line)
            else line in
          if existsb (is_char "%") line then unmodelled else Ok (str line)
  end.

(** [readKeyName] with the delimiters "=:": the name and the text after
    the delimiter. *)
Definition readKeyName (line : list ascii) : result (string * list ascii) :=
  match line with
  | c :: _ =>
      if Ascii.eqb c dquote || Ascii.eqb c "`" then unmodelled
      else
        match index_where (fun x => Ascii.eqb x "=" || Ascii.eqb x ":") line with
        | None => Err "key-value delimiter not found"
        | Some O => Err "empty key name"
        | Some endIdx =>
            let kname := str (trim (take endIdx line)) in
            if String.eqb kname "-" then unmodelled
            else Ok (kname, drop (S endIdx) line)
        end
  | [] => Err "key-value delimiter not found"
  end.

Definition fold_name (insensitive : bool) (n : string) : string :=
  if insensitive then ToLower n else n.

(** [Key.addShadow]: a value already there is not added again. *)
Definition addShadow (k : Key) (val : string) : Key :=
  if String.eqb (value k) val || existsb (String.eqb val) (shadows k)
  then k
  else {| name := name k; value := value k; shadows := shadows k ++ [val] |}.

(** [Section.NewKey] on the keys of a section. *)
Fixpoint NewKey_in (o : options) (kname val : string) (ks : list Key) : list Key :=
  match ks with
  | [] => [{| name := kname; value := val; shadows := [] |}]
  | k :: ks' =>
      if String.eqb (name k) kname then
        (if AllowShadows o then addShadow k val
         else {| name := name k; value := val; shadows := shadows k |}) :: ks'
      else k :: NewKey_in o kname val ks'
  end.

Definition NewKey (o : options) (kname val : string) (s : Section) : Section :=
  {| sname := sname s;
     keys := NewKey_in o (fold_name (Insensitive o) kname) val (keys s) |}.

Definition find_section (n : string) (secs : list Section) : option nat :=
  index_where (fun s => String.eqb (sname s) n) secs.

(** [File.NewSection]: the sections after it and the position of the
    section that the next keys go to. *)
Definition NewSection (o : options) (n : string) (secs : list Section)
    : list Section * nat :=
  let n := if Insensitive o && negb (String.eqb n "DEFAULT") then ToLower n else n in
  match (if AllowNonUniqueSections o then None else find_section n secs) with
  | Some i => (secs, i)
  | None => (secs ++ [{| sname := n; keys := [] |}], List.length secs)
  end.

(** One round of the loop of [File.parse], on one line. *)
Definition parse_line (o : options) (line : list ascii)
    (st : list Section * nat) : result (list Section * nat) :=
  let '(secs, cur) := st in
  match trim_left line with
  | [] => Ok st
  | c :: rest =>
      let line := c :: rest in
      if Ascii.eqb c "#" || Ascii.eqb c ";" then Ok st
      else if Ascii.eqb c "[" then
        match last_index "]" line with
        | None => Err "unclosed section"
        | Some closeIdx =>
            let n := take (closeIdx - 1) rest in
            match n with
            | [] => Err "empty section name"
            | _ =>
                if existsb (is_char ".") n then unmodelled
                else Ok (NewSection o (str n) secs)
            end
        end
      else
        let? kv := readKeyName line in
        let '(kname, after) := kv in
        let? val := readValue after in
        Ok (alter (NewKey o kname val) cur secs, cur)
  end.

Fixpoint parse_lines (o : options) (lines : list (list ascii))
    (st : list Section * nat) : result (list Section * nat) :=
  match lines with
  | [] => Ok st
  | l :: ls =>
      let? st' := parse_line o l st in
      parse_lines o ls st'
  end.

Definition is_ascii (c : ascii) : bool := N.ltb (code c) 128.

Definition LoadSources (o : options) (text : string) : result File :=
  let l := chars text in
  if negb (forallb is_ascii l) then unmodelled
  else
    let default := if Insensitive o then "default" else "DEFAULT" in
    let? st := parse_lines o (split_on (ascii_of_N 10) l)
                 ([{| sname := default; keys := [] |}], 0%nat) in
    Ok {| opts := o; sections := st.1 |}.

(** The options of ParseConfig, and those of [ini.Load]. *)
Definition iniOpt : options :=
  {| Insensitive := true; AllowShadows := true; AllowNonUniqueSections := true |}.

Definition noOpt : options :=
  {| Insensitive := false; AllowShadows := false; AllowNonUniqueSections := false |}.

Definition SectionsByName (f : File) (n : string) : result (list Section) :=
  let n := if String.eqb n "" then "DEFAULT" else n in
  let n := fold_name (Insensitive (opts f)) n in
  match filter (fun s => String.eqb (sname s) n = true) (sections f) with
  | [] => Err ("section " +:+ n +:+ " does not exist")
  | secs => Ok secs
  end.

(** [File.Section]: the first section of that name, or a new, empty one. *)
Definition SectionOf (f : File) (n : string) : Section :=
  match SectionsByName f n with
  | Ok (s :: _) => s
  | _ => {| sname := n; keys := [] |}
  end.

Section Keys.
(** [strconv.ParseInt(s, 0, 64)], from outside. *)
Variable ParseInt : string -> result Z.

(** A section knows the options of its file. *)
Definition Sec : Type := options * Section.

Definition GetKey (s : Sec) (n : string) : result Key :=
  let n := fold_name (Insensitive s.1) n in
  match List.find (fun k => String.eqb (name k) n) (keys s.2) with
  | Some k => Ok k
  | None => Err ("error when getting key of section " +:+ sname s.2
                 +:+ ": key " +:+ n +:+ " not exists")
  end.

(** [Section.Key]. *)
Definition SectionKey (s : Sec) (n : string) : Key :=
  match GetKey s n with
  | Ok k => k
  | _ => {| name := fold_name (Insensitive s.1) n; value := ""; shadows := [] |}
  end.

(** [Key.ValueWithShadows]: empty values are left out. *)
Definition ValueWithShadows (k : Key) : list string :=
  filter (fun v => String.eqb v "" = false) (value k :: shadows k).

(** [Key.StringsWithShadows] for a one-byte delimiter. *)
Definition StringsWithShadows (k : Key) (delim : string) : list string :=
  match chars delim with
  | [d] =>
      flat_map (fun v => map (fun w => str (trim w)) (split_on d (chars v)))
               (ValueWithShadows k)
  | _ => ValueWithShadows k
  end.

Definition lib : ini.Lib := {|
  ini.File := File;
  ini.Section := Sec;
  ini.Key := Key;
  ini.Load := LoadSources iniOpt;
  ini.LoadDefault := LoadSources noOpt;
  ini.SectionOf := fun f n => (opts f, SectionOf f n);
  ini.SectionsByName := fun f n =>
    let? secs := SectionsByName f n in Ok (map (pair (opts f)) secs);
  ini.SectionKey := SectionKey;
  ini.GetKey := GetKey;
  ini.KeyString := value;
  ini.StringsWithShadows := StringsWithShadows;
  ini.KeyInt := fun k => ParseInt (value k)
|}.

End Keys.

End goini.

(** ** The profile as text, as a file of go-ini and as a configuration *)

Module profile.
Import gostrings.

(** A byte that go-ini takes as it is inside a value: ASCII, no white
    space, no comment sign, no quote, no backslash, no percent sign, no
    comma. *)
Definition plain_char (c : ascii) : bool :=
  goini.is_ascii c && negb (is_space c)
  && negb (existsb (Ascii.eqb c)
             [goini.dquote; "#"; ";"; "%"; ","; "'"; "`"; "\"]%char).

Definition plain (s : string) : bool := forallb plain_char (chars s).

Definition no_lf (l : list ascii) : bool :=
  forallb (fun c => negb (Ascii.eqb c (ascii_of_N 10))) l.

Definition is_letter (c : ascii) : bool := is_upper c || is_lower c.

(** The lines of the profile, as createConf writes them. *)
Definition dns_value : string :=
  "1.1.1.1, 1.0.0.1, 8.8.8.8, 8.8.4.4, 9.9.9.9, 149.112.112.112, 2606:4700:4700::1111, 2606:4700:4700::1001, 2001:4860:4860::8888, 2001:4860:4860::8844, 2620:fe::fe, 2620:fe::9".

Definition profile_lines (privateKey v4 v6 publicKey host : string)
    : list (list ascii) :=
  [chars "[Interface]";
   chars "PrivateKey" ++ chars " = " ++ chars privateKey;
   chars "DNS" ++ chars " = " ++ chars dns_value;
   chars "Address" ++ chars " = " ++ chars (v4 +:+ "/24");
   chars "Address" ++ chars " = " ++ chars (v6 +:+ "/128");
   chars "[Peer]";
   chars "PublicKey" ++ chars " = " ++ chars publicKey;
   chars "AllowedIPs" ++ chars " = " ++ chars "0.0.0.0/0";
   chars "AllowedIPs" ++ chars " = " ++ chars "::/0";
   chars "Endpoint" ++ chars " = " ++ chars host].

Definition unlines (ls : list (list ascii)) : list ascii :=
  concat (map (fun l => l ++ [ascii_of_N 10]) ls).

Definition interface_section (privateKey v4 v6 : string) : goini.Section :=
  {| goini.sname := "interface";
     goini.keys :=
       [{| goini.name := "privatekey"; goini.value := privateKey;
           goini.shadows := [] |};
        {| goini.name := "dns"; goini.value := dns_value;
           goini.shadows := [] |};
        {| goini.name := "address"; goini.value := v4 +:+ "/24";
           goini.shadows := [v6 +:+ "/128"] |}] |}.

Definition peer_section (publicKey host : string) : goini.Section :=
  {| goini.sname := "peer";
     goini.keys :=
       [{| goini.name := "publickey"; goini.value := publicKey;
           goini.shadows := [] |};
        {| goini.name := "allowedips"; goini.value := "0.0.0.0/0";
           goini.shadows := ["::/0"] |};
        {| goini.name := "endpoint"; goini.value := host;
           goini.shadows := [] |}] |}.

(** The file that go-ini makes of the profile. *)
Definition profile_file (privateKey v4 v6 publicKey host : string) : goini.File :=
  {| goini.opts := goini.iniOpt;
     goini.sections :=
       [{| goini.sname := "default"; goini.keys := [] |};
        interface_section privateKey v4 v6;
        peer_section publicKey host] |}.

(** The resolvers and the routes that createConf writes. *)
Definition resolvers : list netip.Addr :=
  [netip.IPv4 [1; 1; 1; 1]%N; netip.IPv4 [1; 0; 0; 1]%N;
   netip.IPv4 [8; 8; 8; 8]%N; netip.IPv4 [8; 8; 4; 4]%N;
   netip.IPv4 [9; 9; 9; 9]%N; netip.IPv4 [149; 112; 112; 112]%N;
   netip.IPv6 [38; 6; 71; 0; 71; 0; 0; 0; 0; 0; 0; 0; 0; 0; 17; 17]%N "";
   netip.IPv6 [38; 6; 71; 0; 71; 0; 0; 0; 0; 0; 0; 0; 0; 0; 16; 1]%N "";
   netip.IPv6 [32; 1; 72; 96; 72; 96; 0; 0; 0; 0; 0; 0; 0; 0; 136; 136]%N "";
   netip.IPv6 [32; 1; 72; 96; 72; 96; 0; 0; 0; 0; 0; 0; 0; 0; 136; 68]%N "";
   netip.IPv6 [38; 32; 0; 254; 0; 0; 0; 0; 0; 0; 0; 0; 0; 0; 0; 254]%N "";
   netip.IPv6 [38; 32; 0; 254; 0; 0; 0; 0; 0; 0; 0; 0; 0; 0; 0; 9]%N ""].

Definition all_routes : list netip.Prefix :=
  [netip.PrefixFrom (netip.IPv4 [0; 0; 0; 0]%N) 0;
   netip.PrefixFrom (netip.IPv6 (replicate 16 0%N) "") 0].

(** What ParseConfig makes of a profile written by createConf: the keys
    in hex, the addresses without their masks, the endpoint given to
    ParseConfig. *)
Definition parsed_profile (key pub : string) (p4 p6 : netip.Prefix)
    (endpoint : string) : wiresocks.Configuration :=
  {| wiresocks.Interface :=
       {| wiresocks.PrivateKey := key;
          wiresocks.Addresses := [netip.Prefix_Addr p4; netip.Prefix_Addr p6];
          wiresocks.DNS := resolvers;
          wiresocks.MTU := 0 |};
     wiresocks.Peers :=
       [{| wiresocks.PublicKey := pub;
           wiresocks.PreSharedKey := wiresocks.zero_psk;
           wiresocks.Endpoint := endpoint;
           wiresocks.KeepAlive := 0;
           wiresocks.AllowedIPs := all_routes;
           wiresocks.Trick := false |}] |}.

(** The configuration holds what the identity holds, in the fields that
    both have. *)
Definition same_fields (i : warp.Identity) (c : wiresocks.Configuration) : Prop :=
  wiresocks.PrivateKey (wiresocks.Interface c) = warp.PrivateKey i
  /\ match warp.Peers (warp.Config i), wiresocks.Peers c with
     | peer0 :: _, [p] =>
         wiresocks.PublicKey p = warp.PublicKey peer0
         /\ wiresocks.Endpoint p = warp.Host (warp.Endpoint peer0)
     | _, _ => False
     end.

(** Writing a profile and parsing it gives back what was written. *)
Definition round_trip (ParseInt : string -> result Z) (i : warp.Identity)
    (path endpoint : string) (fs : os.FS) : Prop :=
  exists fs' c,
    warp.createConf i path fs = (Ok tt, fs')
    /\ wiresocks.ParseConfig (L := goini.lib ParseInt)
         (os.Join path warp.profileFile) endpoint fs' = (Ok c, fs')
    /\ same_fields i c.

End profile.

(** ** Vocabulary of the properties *)

Module obs.

(** The configurations that StartWireguard was called with, in order. *)
Definition started (tr : list wiresocks.event) : list wiresocks.Configuration :=
  omap (fun e => match e with
                 | wiresocks.EvStartWireguard c => Some c
                 | _ => None
                 end) tr.

(** The addresses that StartProxy was asked to bind, in order. *)
Definition proxy_binds (tr : list wiresocks.event) : list netip.AddrPort :=
  omap (fun e => match e with
                 | wiresocks.EvStartProxy _ b => Some b
                 | _ => None
                 end) tr.

Definition peers_have (keepAlive : Z) (trick : bool)
    (c : wiresocks.Configuration) : Prop :=
  Forall (fun p => wiresocks.KeepAlive p = keepAlive /\ wiresocks.Trick p = trick)
         (wiresocks.Peers c).

(** What the psiphon scenario asks of a call into [psiphon]: the upstream
    proxy is the address that the listener of the mixed proxy got for
    127.0.0.1:0, and the local SOCKS listener is the bind address of the
    caller. *)
Definition psiphon_call_ok (ws : wiresocks.Env) (ps : psiphon.Env)
    (bind : netip.AddrPort) (country : string) (e : psiphon.event) : Prop :=
  exists warpBind,
    wiresocks.net_Listen ws (wiresocks.AddrPortString ws netip.loopback_any_port)
      = Ok warpBind
    /\ match e with
       | psiphon.EvRunPsiphon wgBind localSocksPort c =>
           wgBind = wiresocks.AddrPortString ws warpBind
           /\ localSocksPort = wiresocks.AddrPortString ws bind
           /\ c = country
       | psiphon.EvStartTunnel cfg =>
           exists host port,
             psiphon.SplitHostPort ps (wiresocks.AddrPortString ws bind)
               = Ok (host, port)
             /\ cfg = psiphon.configJSON country
                        (if gostrings.HasPrefix host "127.0.0" then "" else "any")
                        port (wiresocks.AddrPortString ws warpBind)
       end.


(** The mode of a file, if it is there. *)
Definition mode_of (fs : os.FS) (name : string) : option N :=
  os.mode <$> os.files fs !! name.

End obs.

(** ** A concrete world to run the definitions in *)

Module sample.
Import gostrings.

(** Signed decimal numbers, the plain case of [strconv.ParseInt]. *)
Definition ParseInt (s : string) : result Z :=
  let digits l :=
    match l with
    | [] => Err "invalid syntax"
    | _ => if forallb is_digit l
           then Ok (Z.of_N (fold_left (fun acc d => (acc * 10 + digit_val d)%N) l 0%N))
           else Err "invalid syntax"
    end in
  match chars s with
  | "-"%char :: l => let? n := digits l in Ok (- n)%Z
  | "+"%char :: l => digits l
  | l => digits l
  end.

Definition L : ini.Lib := goini.lib ParseInt.

(** Addresses in dotted or in full colon form, for the examples. *)
Definition hex4 (hi lo : N) : string :=
  str [hex.hex_digit (hi / 16); hex.hex_digit (hi mod 16);
       hex.hex_digit (lo / 16); hex.hex_digit (lo mod 16)].

Fixpoint groups (b : list N) : list string :=
  match b with
  | hi :: lo :: rest => hex4 hi lo :: groups rest
  | _ => []
  end.

Definition AddrString (a : netip.Addr) : string :=
  match a with
  | netip.IPv4 b => String.concat "." (map decimal b)
  | netip.IPv6 b _ => String.concat ":" (groups b)
  end.

Definition AddrPortString (ap : netip.AddrPort) : string :=
  match netip.AddrPort_Addr ap with
  | netip.IPv4 _ => AddrString (netip.AddrPort_Addr ap)
  | netip.IPv6 _ _ => "[" +:+ AddrString (netip.AddrPort_Addr ap) +:+ "]"
  end +:+ ":" +:+ decimal (netip.AddrPort_Port ap).

Definition PrefixString (p : netip.Prefix) : string :=
  AddrString (netip.Prefix_Addr p) +:+ "/" +:+ decimal (netip.Prefix_Bits p).

Definition loopback (port : N) : netip.AddrPort :=
  netip.AddrPortFrom (netip.IPv4 [127; 0; 0; 1]%N) port.

Definition privateKey : string := "yGXeX7gMyUIZmK5QIgC7+XX5USUSskQvBYiQ6LdkiXI=".
Definition publicKey : string := "bmXOC+F1FxEMF9dyiK2H5/1SUtzH0JuVo51h2wPfgyo=".

Definition identity : warp.Identity :=
  {| warp.PrivateKey := privateKey;
     warp.Account := {| warp.License := "" |};
     warp.Config :=
       {| warp.Peers :=
            [{| warp.PublicKey := publicKey;
                warp.Endpoint := {| warp.Host := "engage.cloudflareclient.com:2408" |} |}];
          warp.InterfaceAddresses :=
            {| warp.V4 := "172.16.0.2";
               warp.V6 := "2606:4700:110:8f5b:7c46:852e:f45c:6d35" |} |};
     warp.Token := "token";
     warp.ID := "id" |}.

Definition warp_env : warp.Env :=
  {| warp.GeneratePrivateKey := Ok (privateKey, publicKey);
     warp.doRegister := fun _ => Ok identity;
     warp.updateLicenseKey := fun _ _ license => Ok {| warp.License := license |};
     warp.json_Encode := fun _ => Ok "{}";
     warp.json_Unmarshal := fun _ => Ok identity |}.

Definition scanned (d : N) (rtt : Z) : statute.IPInfo :=
  {| statute.AddrPort := netip.AddrPortFrom (netip.IPv4 [162; 159; 192; d]%N) 2408;
     statute.RTT := rtt; statute.CreatedAt := 0 |}.

Definition ws_env : wiresocks.Env :=
  {| wiresocks.PrefixString := PrefixString;
     wiresocks.AddrPortString := AddrPortString;
     wiresocks.CreateNetTUN := fun _ _ mtu => Ok (Z.to_nat mtu);
     wiresocks.NewDevice := fun tnet => tnet;
     wiresocks.IpcSet := fun _ _ => Ok tt;
     wiresocks.Up := fun _ => Ok tt;
     wiresocks.net_Listen := fun a =>
       if String.eqb a "127.0.0.1:0" then Ok (loopback 40001) else Ok (loopback 8086);
     wiresocks.ResolveUDPAddr := fun _ =>
       Ok (netip.AddrPortFrom (netip.IPv4 [162; 159; 192; 1]%N) 2408);
     wiresocks.ListenUDP := fun _ => Ok (loopback 40002);
     wiresocks.DialUDP := fun _ _ => Ok tt;
     wiresocks.GetAvailableIPs := fun _ _ _ =>
       [[]; [scanned 1 20]; [scanned 1 20; scanned 7 35; scanned 9 50]] |}.

(** The port after the last colon, the host before it. *)
Definition SplitHostPort (hostport : string) : result (string * string) :=
  let l := chars hostport in
  match last_index ":" l with
  | Some i => Ok (str (take i l), str (drop (S i) l))
  | None => Err "missing port in address"
  end.

Definition psi_env : psiphon.Env :=
  {| psiphon.SplitHostPort := SplitHostPort;
     psiphon.wakes := [psiphon.Tick; psiphon.Tick; psiphon.Tick];
     psiphon.StartTunnel := fun n _ =>
       if Nat.eqb n 0 then Err "tunnel start produced error" else Ok 8086%N |}.

Definition env : app.Env :=
  {| app.warp_env := warp_env; app.ws_env := ws_env; app.psi_env := psi_env |}.

Definition main_env : app.MainEnv :=
  {| app.ParseAddrPort := fun _ => Ok (loopback 8086);
     app.RandomWarpEndpoint := fun _ _ =>
       Ok (netip.AddrPortFrom (netip.IPv4 [162; 159; 192; 1]%N) 2408) |}.

(** An empty disk with the usual umask 022. *)
Definition disk : os.FS :=
  {| os.files := ∅; os.umask := 18; os.denied := fun _ => false |}.

Definition sys : app.Sys := {| app.fs := disk; app.wg := []; app.psi := [] |}.

Definition options (psiphon : option app.PsiphonOptions) (gool scan : bool)
    : app.WarpOptions :=
  {| app.Bind := loopback 8086;
     app.Endpoint := "162.159.192.1:2408";
     app.License := "";
     app.Psiphon := psiphon;
     app.Gool := gool;
     app.Scan := if scan
                 then Some {| wiresocks.V4 := true; wiresocks.V6 := false;
                              wiresocks.MaxRTT := 1000000000 |}
                 else None |}.

(** Two datagrams from two clients, then one reply from the tunnel. *)
Definition client1 : netip.AddrPort := loopback 50001.


(** The upstream has sent a chunk and the client has ended its stream;
    the copy from the client sees the end of stream first, and the
    handler learns of it. Then the handler tears down. *)
Definition eof_first : list wiresocks.handler.action :=
  [wiresocks.handler.PeerSend wiresocks.handler.Upstream "x";
   wiresocks.handler.PeerEOF wiresocks.handler.Client;
   wiresocks.handler.Run wiresocks.handler.CopyC2U;
   wiresocks.handler.Run wiresocks.handler.CopyC2U;
   wiresocks.handler.Run wiresocks.handler.Main].

Definition second_copy : list wiresocks.handler.action :=
  [wiresocks.handler.Run wiresocks.handler.CopyU2C;
   wiresocks.handler.Run wiresocks.handler.CopyU2C;
   wiresocks.handler.Run wiresocks.handler.Main].

Definition teardown : list wiresocks.handler.action :=
  wiresocks.handler.Run wiresocks.handler.Main :: second_copy.



Definition flags (psiphon gool : bool) : app.Flags :=
  {| app.v4 := false; app.v6 := false; app.verbose := false;
     app.bind := "127.0.0.1:8086"; app.endpoint := ""; app.key := "";
     app.gool := gool; app.psiphon := psiphon; app.country := "AT";
     app.scan := false; app.rtt := 1000000000 |}.

End sample.

(** ** Package [warp], tls.go: the two hand-written ClientHello extensions *)

Module warptls.
Import gostrings.

(** [io.EOF] and [io.ErrShortBuffer], the two errors that the readers
    give. *)
Inductive ioerr : Type := EOF | ErrShortBuffer.

Definition extensionServerName : Z := 0.
Definition utlsExtensionSNICurve : Z := 21.   (* 0x15 *)

(** The conversion [byte(x)] of an [int]: its low eight bits. *)
Definition byte (x : Z) : N := Z.to_N (x mod 256)%Z.

(** The bytes of a string. *)
Definition bytes (s : string) : list N := map code (chars s).

(** [b[i] = v], which panics out of range. *)
Definition store (i : nat) (v : N) (b : list N) : result (list N) :=
  if Nat.ltb i (List.length b) then Ok (<[i := v]> b)
  else Panic "runtime error: index out of range".

(** [copy(b[off:], src)]: as many bytes as fit; the slice expression
    panics when [off] is past the end. *)
Definition copy_at (off : nat) (src b : list N) : result (list N) :=
  if Nat.ltb (List.length b) off
  then Panic "runtime error: slice bounds out of range"
  else
    let n := Nat.min (List.length b - off) (List.length src) in
    Ok (take off b ++ take n src ++ drop (off + n) b).

Definition hostnameInSNI (name : string) : string := name.

Module SNIExtension.

Record t : Type := Mk { ServerName : string }.

(** Len returns the length of the SNIExtension. *)
Definition Len (e : t) : Z :=
  let hostName := hostnameInSNI (ServerName e) in
  if Nat.eqb (String.length hostName) 0 then 0%Z
  else (4 + 2 + 1 + 2 + Z.of_nat (String.length hostName))%Z.

(** Read reads the SNIExtension: the count, the error, and the buffer
    after the call. Byte 6, the name type, is not written. *)
Definition Read (e : t) (b : list N) : result (Z * ioerr * list N) :=
  let hostName := hostnameInSNI (ServerName e) in
  let n := Z.of_nat (String.length hostName) in
  if Nat.eqb (String.length hostName) 0 then Ok (0%Z, EOF, b)
  else if Z.ltb (Z.of_nat (List.length b)) (Len e) then Ok (0%Z, ErrShortBuffer, b)
  else
    let? b := store 0 (byte (Z.shiftr extensionServerName 8)) b in
    let? b := store 1 (byte extensionServerName) b in
    let? b := store 2 (byte (Z.shiftr (n + 5)%Z 8)) b in
    let? b := store 3 (byte (n + 5)%Z) b in
    let? b := store 4 (byte (Z.shiftr (n + 3)%Z 8)) b in
    let? b := store 5 (byte (n + 3)%Z) b in
    let? b := store 7 (byte (Z.shiftr n 8)) b in
    let? b := store 8 (byte n) b in
    let? b := copy_at 9 (bytes hostName) b in
    Ok (Len e, EOF, b).

End SNIExtension.

Module SNICurveExtension.

Record t : Type := Mk {
  SNICurveLen : Z;
  WillPad : bool   (* set false to disable extension *)
}.

(** Len returns the length of the SNICurveExtension. *)
Definition Len (e : t) : Z :=
  if WillPad e then (4 + SNICurveLen e)%Z else 0%Z.

(** Read reads the SNICurveExtension; the padding copied in is a fresh
    slice of 1200 zero bytes, whatever [SNICurveLen] is. *)
Definition Read (e : t) (b : list N) : result (Z * ioerr * list N) :=
  if negb (WillPad e) then Ok (0%Z, EOF, b)
  else if Z.ltb (Z.of_nat (List.length b)) (Len e) then Ok (0%Z, ErrShortBuffer, b)
  else
    let? b := store 0 (byte (Z.shiftr utlsExtensionSNICurve 8)) b in
    let? b := store 1 (byte utlsExtensionSNICurve) b in
    let? b := store 2 (byte (Z.shiftr (SNICurveLen e) 8)) b in
    let? b := store 3 (byte (SNICurveLen e)) b in
    let y := replicate 1200 0%N in
    let? b := copy_at 4 y b in
    Ok (Len e, EOF, b).

End SNICurveExtension.

(** The padding extension that makeTLSHelloPacketWithSNICurve puts in
    its ClientHello. *)
Definition SNICurveSize : Z := 1200.

Definition hello_padding : SNICurveExtension.t :=
  {| SNICurveExtension.SNICurveLen := SNICurveSize;
     SNICurveExtension.WillPad := true |}.

(** A 16-bit number from its two bytes, the high one first. *)
Definition be16 (hi lo : N) : Z := (Z.of_N hi * 256 + Z.of_N lo)%Z.

End warptls.

(** ** Package [warp], account.go: the calls to the registration API *)

Module warpapi.
Import gostrings.

Definition apiVersion : string := "v0a3596".
Definition apiURL : string := "https://api.cloudflareclient.com".
Definition regURL : string := apiURL +:+ "/" +:+ apiVersion +:+ "/reg".

(** [textproto.CanonicalMIMEHeaderKey], which [Header.Set] applies to
    its key: a key made of token bytes gets an upper-case letter first
    and after each dash and lower-case letters elsewhere; any other key
    is kept as it is. *)
Definition validHeaderFieldByte (c : ascii) : bool :=
  is_digit c || is_upper c || is_lower c
  || existsb (Ascii.eqb c)
       ["!"; "#"; "$"; "%"; "&"; "'"; "*"; "+"; "-"; "."; "^"; "_"; "`"; "|"; "~"]%char.

Definition to_upper_char (c : ascii) : ascii :=
  if is_lower c then ascii_of_N (code c - 32) else c.

Fixpoint canonical_case (upper : bool) (l : list ascii) : list ascii :=
  match l with
  | [] => []
  | c :: l' =>
      let c' := if upper then to_upper_char c else to_lower_char c in
      c' :: canonical_case (Ascii.eqb c' "-") l'
  end.

Definition CanonicalMIMEHeaderKey (s : string) : string :=
  if forallb validHeaderFieldByte (chars s)
  then str (canonical_case true (chars s))
  else s.

(** [fmt.Sprintf("%s/%s/account", regURL, accountID)]. *)
Definition account_url (accountID : string) : string :=
  regURL +:+ "/" +:+ accountID +:+ "/account".

(** The values that the code hands to [json.Marshal]. *)
Inductive jvalue : Type := JString (s : string) | JBool (b : bool).

Record Request : Type := MkRequest {
  Method : string;
  URL : string;
  Header : gmap string string;
  Body : option string
}.

(** A response: its status, and what [io.ReadAll] gives for its body. *)
Record Response : Type := MkResponse {
  StatusCode : Z;
  Status : string;
  RespBody : result string
}.

(** From outside: the clock, the JSON codec, the check that
    [http.NewRequest] makes of its method and URL, and the server, whose
    answer may depend on the requests sent before. *)
Record Env : Type := MkEnv {
  now_RFC3339Nano : list Request -> string;
  json_Marshal : gmap string jvalue -> result string;
  request_ok : string -> string -> result unit;
  client_Do : list Request -> Request -> result Response;
  json_Unmarshal : string -> result warp.Identity;
  json_Decode : Response -> result warp.IdentityAccount
}.

(** What the package keeps between calls: the map [defaultHeaders],
    which every function reads and two of them write, and the requests
    handed to the client so far. *)
Record World : Type := MkWorld {
  defaultHeaders : gmap string string;
  sent : list Request
}.

Definition makeDefaultHeaders : gmap string string :=
  <["Content-Type" := "application/json; charset=UTF-8"]>
    (<["User-Agent" := "okhttp/3.12.1"]>
       (<["CF-Client-Version" := "a-6.30-3596"]> ∅)).

(** The state of a process that has made no call yet. *)
Definition fresh : World :=
  {| defaultHeaders := makeDefaultHeaders; sent := [] |}.

Section Calls.
Variable env : Env.

Definition NewRequest (method url : string) (body : option string)
    : M World Request :=
  let* _ := lift (request_ok env method url) in
  ret {| Method := method; URL := url; Header := ∅; Body := body |}.

(** [for k, v := range headers { req.Header.Set(k, v) }]. *)
Definition set_headers (headers : gmap string string) (req : Request) : Request :=
  {| Method := Method req; URL := URL req;
     Header := map_fold (fun k v h => <[CanonicalMIMEHeaderKey k := v]> h)
                 (Header req) headers;
     Body := Body req |}.

(** [client.Do(req)]. *)
Definition Do (req : Request) : M World Response :=
  fun w =>
    (client_Do env (sent w) req,
     {| defaultHeaders := defaultHeaders w; sent := sent w ++ [req] |}).

(** [headers := defaultHeaders; headers["Authorization"] = ...]: a map
    is a reference, so the assignment writes into [defaultHeaders]. *)
Definition authorize (accessToken : string) : M World (gmap string string) :=
  fun w =>
    let headers := <["Authorization" := "Bearer " +:+ accessToken]> (defaultHeaders w) in
    (Ok headers, {| defaultHeaders := headers; sent := sent w |}).

(** The body of a registration, before it is marshalled. *)
Definition register_data (tos publicKey : string) : gmap string jvalue :=
  <["install_id" := JString ""]>
    (<["fcm_token" := JString ""]>
       (<["tos" := JString tos]>
          (<["key" := JString publicKey]>
             (<["type" := JString "Android"]>
                (<["model" := JString "PC"]>
                   (<["locale" := JString "en_US"]>
                      (<["warp_enabled" := JBool true]> ∅))))))).

Definition doRegister (publicKey : string) : M World warp.Identity :=
  let* tos := gets (fun w => now_RFC3339Nano env (sent w)) in
  let data := register_data tos publicKey in
  let* jsonBody := lift (json_Marshal env data) in
  let* req := NewRequest "POST" regURL (Some jsonBody) in
  (* Set headers *)
  let* headers := gets defaultHeaders in
  let req := set_headers headers req in
  (* Create HTTP client and execute request *)
  let* resp := Do req in
  (* convert response to byte array *)
  let* responseData := lift (RespBody resp) in
  lift (json_Unmarshal env responseData).

(** The error of updateLicenseKey for a status other than 200. *)
Definition activation_error (resp : Response) : M World warp.IdentityAccount :=
  let* s := lift (RespBody resp) in
  lift (Err ("activation error, status " +:+ itoa (StatusCode resp)
             +:+ " " +:+ s)).

Definition updateLicenseKey (accountID accessToken license : string)
    : M World warp.IdentityAccount :=
  let* jsonData :=
    lift (json_Marshal env (<["license" := JString license]> ∅)) in
  let url := account_url accountID in
  let* req := NewRequest "PATCH" url (Some jsonData) in
  let* headers := authorize accessToken in
  let req := set_headers headers req in
  let* resp := Do req in
  if negb (Z.eqb (StatusCode resp) 200) then activation_error resp
  else
    let* req := NewRequest "GET" url None in
    let req := set_headers headers req in
    let* resp1 := Do req in
    if negb (Z.eqb (StatusCode resp1) 200) then activation_error resp1
    else lift (json_Decode env resp1).

Definition RemoveDevice (accountID accessToken : string) : M World unit :=
  let url := regURL +:+ "/" +:+ accountID in
  let* req := NewRequest "DELETE" url None in
  let* headers := authorize accessToken in
  let req := set_headers headers req in
  (* Create HTTP client and execute request *)
  let* resp := Do req in
  if negb (Z.eqb (StatusCode resp) 204)
  then lift (Err ("error in deleting account " +:+ itoa (StatusCode resp)
                  +:+ " " +:+ Status resp))
  else ret tt.

End Calls.

(** The three headers of [makeDefaultHeaders] under the names that
    [Header.Set] gives them. *)
Definition default_request_headers : gmap string string :=
  <["Content-Type" := "application/json; charset=UTF-8"]>
    (<["User-Agent" := "okhttp/3.12.1"]>
       (<["Cf-Client-Version" := "a-6.30-3596"]> ∅)).

(** The map [defaultHeaders] as [makeDefaultHeaders] made it, and with
    the token that a call has left in it. *)
Definition clean (w : World) : Prop := defaultHeaders w = makeDefaultHeaders.

Definition holds_token (token : string) (w : World) : Prop :=
  defaultHeaders w = <["Authorization" := "Bearer " +:+ token]> makeDefaultHeaders.

Definition known (w : World) : Prop := clean w \/ exists token, holds_token token w.

(** The requests sent between two states. *)
Definition new_requests (w w' : World) : list Request :=
  drop (List.length (sent w)) (sent w').

Definition bearer (token : string) (req : Request) : Prop :=
  Header req !! "Authorization" = Some ("Bearer " +:+ token).

End warpapi.

(** ** What the later properties say of files and of runs *)

Module disk_view.

(** The paths that [os.RemoveAll(path)] removes: the path and all below. *)
Definition under (path name : string) : bool :=
  String.eqb name path || String.prefix (path +:+ "/") name.

(** Nothing has changed outside of a directory. *)
Definition same_outside (path : string) (fs fs' : os.FS) : Prop :=
  os.umask fs' = os.umask fs
  /\ os.denied fs' = os.denied fs
  /\ forall name, under path name = false ->
       os.files fs' !! name = os.files fs !! name.

(** The profile that createConf writes for an identity with a peer. *)
Definition profile_of (i : warp.Identity) : option string :=
  match warp.Peers (warp.Config i) with
  | peer0 :: _ =>
      Some (warp.profile_text (warp.PrivateKey i)
              (warp.V4 (warp.InterfaceAddresses (warp.Config i)))
              (warp.V6 (warp.InterfaceAddresses (warp.Config i)))
              (warp.PublicKey peer0) (warp.Host (warp.Endpoint peer0)))
  | [] => None
  end.

(** The identity file holds [i], with the license asked for. *)
Definition stored (env : warp.Env) (path license : string) (fs : os.FS)
    (i : warp.Identity) : Prop :=
  (exists f, os.files fs !! os.Join path warp.identityFile = Some f
             /\ warp.json_Unmarshal env (os.data f) = Ok i)
  /\ os.denied fs (os.Join path warp.identityFile) = false
  /\ (license = "" \/ warp.License (warp.Account i) = license).

(** A directory as a run that succeeds leaves it: the identity file
    decodes to an identity with the license asked for, and the profile
    is the one of that identity. *)
Definition settled (env : warp.Env) (path license : string) (fs : os.FS)
    (i : warp.Identity) : Prop :=
  (exists f, os.files fs !! os.Join path warp.identityFile = Some f
             /\ warp.json_Unmarshal env (os.data f) = Ok i)
  /\ (exists p, os.files fs !! os.Join path warp.profileFile = Some p
                /\ profile_of i = Some (os.data p))
  /\ os.denied fs (os.Join path warp.identityFile) = false
  /\ os.denied fs (os.Join path warp.profileFile) = false
  /\ (license = "" \/ warp.License (warp.Account i) = license).

(** The JSON codec gives back what it has written. *)
Definition codec_round_trip (env : warp.Env) : Prop :=
  forall i text, warp.json_Encode env i = Ok text -> warp.json_Unmarshal env text = Ok i.

(** The server gives back an account with the license it was sent. *)
Definition license_echoed (env : warp.Env) (license : string) : Prop :=
  forall accountID token ac,
    warp.updateLicenseKey env accountID token license = Ok ac ->
    warp.License ac = license.



End disk_view.

Module key_view.
Import gostrings.

(** A key as the device takes it: 64 lower-case hexadecimal digits. *)
Definition is_hex_digit (c : ascii) : bool := is_digit c || in_range "a" "f" c.

Definition is_hex64 (s : string) : Prop :=
  List.length (chars s) = 64%nat /\ forallb is_hex_digit (chars s) = true.

(** What ParseConfig has checked of a peer: its keys, when it has them,
    are in the form the device takes; its endpoint is the one given to
    ParseConfig; the trick is off. *)
Definition peer_checked (endpoint : string) (p : wiresocks.PeerConfig) : Prop :=
  (wiresocks.PublicKey p = "" \/ is_hex64 (wiresocks.PublicKey p))
  /\ is_hex64 (wiresocks.PreSharedKey p)
  /\ wiresocks.Endpoint p = endpoint
  /\ wiresocks.Trick p = false.

End key_view.

Module wiring_view.

(** The tunnel that StartWireguard gives for a configuration: the
    netstack made for its addresses, DNS and MTU, and the device made on
    it, configured with the request of that configuration and brought
    up. *)
Definition tunnel (env : wiresocks.Env) (conf : wiresocks.Configuration)
    (vt : wiresocks.VirtualTun) : Prop :=
  wiresocks.CreateNetTUN env
    (wiresocks.Addresses (wiresocks.Interface conf))
    (wiresocks.DNS (wiresocks.Interface conf))
    (wiresocks.MTU (wiresocks.Interface conf)) = Ok (wiresocks.Tnet vt)
  /\ wiresocks.Dev vt = wiresocks.NewDevice env (wiresocks.Tnet vt)
  /\ wiresocks.IpcSet env (wiresocks.Dev vt) (wiresocks.ipc_request env conf) = Ok tt
  /\ wiresocks.Up env (wiresocks.Dev vt) = Ok tt.

(** Every peer of a configuration has this endpoint. *)
Definition peers_reach (endpoint : string) (conf : wiresocks.Configuration) : Prop :=
  Forall (fun p => wiresocks.Endpoint p = endpoint) (wiresocks.Peers conf).

End wiring_view.

Module shutdown_view.
Import wiresocks.fwd.

(** The sockets are open until the third goroutine has run, and it runs
    only once both forwarding goroutines have returned. *)
Definition closing_order (s : state) : Prop :=
  if closer_done s
  then g_host s = Exited /\ g_tun s = Exited
       /\ listener_open s = false /\ rconn_open s = false
  else listener_open s = true /\ rconn_open s = true.

(** After cancellation: a datagram on each socket, then turns for every
    goroutine. *)
Definition wake_up (src : netip.AddrPort) (p q : string) : list action :=
  [HostDatagram src p; TunDatagram q;
   Run HostToTun; Run HostToTun; Run TunToHost; Run TunToHost; Run Closer].

End shutdown_view.

Module relay_view.
Import wiresocks.handler.

(** What one direction of the handler has done with what a peer has
    sent: written to the other side, read and lost on a closed
    connection, still waiting to be read, or not taken any more. *)
Definition relayed (sent_by_peer : list string) (src dst : conn) (cp : copier)
    : Prop :=
  exists lost dropped,
    sent_by_peer = outbox dst ++ lost ++ inbox src ++ dropped
    /\ (lost <> [] -> cp <> Copying)
    /\ (dropped <> [] -> closed src || peer_eof src = true).

Definition relays (tr : list action) (s : state) : Prop :=
  relayed (sent Client tr) (client s) (upstream s) (c2u s)
  /\ relayed (sent Upstream tr) (upstream s) (client s) (u2c s).

End relay_view.

Module default_profile.
Import gostrings.

(** The file that [ini.Load], with no option set, makes of the profile:
    names keep their case, and of the two lines of a repeated key the
    second one stays. *)
Definition default_file (privateKey v6 publicKey host : string) : goini.File :=
  {| goini.opts := goini.noOpt;
     goini.sections :=
       [{| goini.sname := "DEFAULT"; goini.keys := [] |};
        {| goini.sname := "Interface";
           goini.keys :=
             [{| goini.name := "PrivateKey"; goini.value := privateKey;
                 goini.shadows := [] |};
              {| goini.name := "DNS"; goini.value := profile.dns_value;
                 goini.shadows := [] |};
              {| goini.name := "Address"; goini.value := v6 +:+ "/128";
                 goini.shadows := [] |}] |};
        {| goini.sname := "Peer";
           goini.keys :=
             [{| goini.name := "PublicKey"; goini.value := publicKey;
                 goini.shadows := [] |};
              {| goini.name := "AllowedIPs"; goini.value := "::/0";
                 goini.shadows := [] |};
              {| goini.name := "Endpoint"; goini.value := host;
                 goini.shadows := [] |}] |}] |}.

End default_profile.

(** ** More of the concrete world *)

Module more_samples.

(** A registration server that answers every request with 200 and the
    sample identity, and a DELETE with 204. *)
Definition account : warp.IdentityAccount := {| warp.License := "key-1" |}.

Definition api_env : warpapi.Env :=
  {| warpapi.now_RFC3339Nano := fun _ => "2024-03-20T10:00:00.000000001Z";
     warpapi.json_Marshal := fun _ => Ok "{}";
     warpapi.request_ok := fun _ _ => Ok tt;
     warpapi.client_Do := fun _ req =>
       Ok {| warpapi.StatusCode :=
               if String.eqb (warpapi.Method req) "DELETE" then 204 else 200;
             warpapi.Status :=
               if String.eqb (warpapi.Method req) "DELETE"
               then "204 No Content" else "200 OK";
             warpapi.RespBody := Ok "{}" |};
     warpapi.json_Unmarshal := fun _ => Ok sample.identity;
     warpapi.json_Decode := fun _ => Ok account |}.

#[export] Instance IdentityAccount_eq_dec : EqDecision warp.IdentityAccount.
Proof. solve_decision. Defined.

#[export] Instance IdentityConfigPeerEndpoint_eq_dec :
  EqDecision warp.IdentityConfigPeerEndpoint.
Proof. solve_decision. Defined.

#[export] Instance IdentityConfigPeer_eq_dec : EqDecision warp.IdentityConfigPeer.
Proof. solve_decision. Defined.

#[export] Instance IdentityConfigInterfaceAddresses_eq_dec :
  EqDecision warp.IdentityConfigInterfaceAddresses.
Proof. solve_decision. Defined.

#[export] Instance IdentityConfig_eq_dec : EqDecision warp.IdentityConfig.
Proof. solve_decision. Defined.

#[export] Instance Identity_eq_dec : EqDecision warp.Identity.
Proof. solve_decision. Defined.

(** A codec that knows one text: it writes the sample identity as that
    text, refuses any other identity, and reads the text back. *)
Definition codec_env : warp.Env :=
  {| warp.GeneratePrivateKey := Ok (sample.privateKey, sample.publicKey);
     warp.doRegister := fun _ => Ok sample.identity;
     warp.updateLicenseKey := fun _ _ license => Ok {| warp.License := license |};
     warp.json_Encode := fun i =>
       if bool_decide (i = sample.identity) then Ok "{}"
       else Err "json: unsupported value";
     warp.json_Unmarshal := fun _ => Ok sample.identity |}.

(** A server that answers a registration with an error body, which
    decodes to an identity without peers. *)
Definition no_peers : warp.Identity :=
  {| warp.PrivateKey := "";
     warp.Account := {| warp.License := "" |};
     warp.Config :=
       {| warp.Peers := [];
          warp.InterfaceAddresses := {| warp.V4 := ""; warp.V6 := "" |} |};
     warp.Token := "";
     warp.ID := "" |}.

Definition no_peers_env : warp.Env :=
  {| warp.GeneratePrivateKey := Ok (sample.privateKey, sample.publicKey);
     warp.doRegister := fun _ => Ok no_peers;
     warp.updateLicenseKey := fun _ _ license => Ok {| warp.License := license |};
     warp.json_Encode := fun _ => Ok "{}";
     warp.json_Unmarshal := fun _ => Ok no_peers |}.

(** A disk with a file of the user in the directory of the identity and
    one beside it. *)
Definition used_disk : os.FS :=
  {| os.files :=
       <["./stuff/primary/notes.txt" := os.File 420 "mine"]>
         (<["./stuff/notes.txt" := os.File 420 "mine too"]> ∅);
     os.umask := 18;
     os.denied := fun _ => false |}.

End more_samples.

(** * Properties *)

(** ** The state monad *)

Lemma bind_Ok_inv {S A B} (m : M S A) (f : A -> M S B) s b s' :
  bind m f s = (Ok b, s') ->
  exists a s1, m s = (Ok a, s1) /\ f a s1 = (Ok b, s').
Proof.
  unfold bind. destruct (m s) as [[a | e | e] s1]; intros H; try discriminate.
  exists a, s1. split; [reflexivity | exact H].
Qed.

Lemma lift_inv {S A} (r : result A) (s : S) r' s' :
  lift r s = (r', s') -> r' = r /\ s' = s.
Proof. unfold lift. intros H; inversion H; auto. Qed.

Lemma wrap_inv {S A} prefix (m : M S A) s r s' :
  wrap prefix m s = (r, s') ->
  exists r0, m s = (r0, s') /\ r = wrap_err prefix r0.
Proof.
  unfold wrap. destruct (m s) as [r0 s1]. intros H; inversion H; subst.
  exists r0; auto.
Qed.

Lemma wrap_err_Ok {A} prefix (r : result A) a :
  wrap_err prefix r = Ok a -> r = Ok a.
Proof. destruct r; simpl; congruence. Qed.

(** A relation between the state before and the state after that every run
    of [m] satisfies, whatever its result. *)
Definition steps {S A} (R : S -> S -> Prop) (m : M S A) : Prop :=
  forall s r s', m s = (r, s') -> R s s'.

Section Steps.
Context {S : Type} (R : S -> S -> Prop).
Hypothesis R_refl : forall s, R s s.
Hypothesis R_trans : forall s1 s2 s3, R s1 s2 -> R s2 s3 -> R s1 s3.

Lemma steps_ret {A} (a : A) : steps R (ret a).
Proof using R_refl. intros s r s' H. inversion H; subst. apply R_refl. Qed.

Lemma steps_lift {A} (r : result A) : steps R (lift r).
Proof using R_refl. intros s r' s' H. inversion H; subst. apply R_refl. Qed.

Lemma steps_bind {A B} (m : M S A) (f : A -> M S B) :
  steps R m -> (forall a, steps R (f a)) -> steps R (bind m f).
Proof using R_trans.
  intros Hm Hf s r s'. unfold bind.
  destruct (m s) as [[a | e | e] s1] eqn:E; intros H.
  - eapply R_trans; [eapply Hm; eauto | eapply Hf; eauto].
  - inversion H; subst. eapply Hm; eauto.
  - inversion H; subst. eapply Hm; eauto.
Qed.

Lemma steps_wrap {A} prefix (m : M S A) : steps R m -> steps R (wrap prefix m).
Proof.
  intros Hm s r s' H. apply wrap_inv in H as (r0 & H & _). eapply Hm; eauto.
Qed.
End Steps.

(** ** The orchestrator *)

Section Orchestrator.
Context {L : ini.Lib}.
Variable env : app.Env.

Lemma on_fs_inv {A} (m : M os.FS A) s r s' :
  app.on_fs m s = (r, s') ->
  m (app.fs s) = (r, app.fs s') /\ app.wg s' = app.wg s /\ app.psi s' = app.psi s.
Proof.
  unfold app.on_fs, zoom. destruct (m (app.fs s)) as [r0 f].
  intros H; inversion H; subst; auto.
Qed.

Lemma on_wg_inv {A} (m : M (list wiresocks.event) A) s r s' :
  app.on_wg m s = (r, s') ->
  m (app.wg s) = (r, app.wg s') /\ app.fs s' = app.fs s /\ app.psi s' = app.psi s.
Proof.
  unfold app.on_wg, zoom. destruct (m (app.wg s)) as [r0 f].
  intros H; inversion H; subst; auto.
Qed.

Lemma on_psi_inv {A} (m : M (list psiphon.event) A) s r s' :
  app.on_psi m s = (r, s') ->
  m (app.psi s) = (r, app.psi s') /\ app.fs s' = app.fs s /\ app.wg s' = app.wg s.
Proof.
  unfold app.on_psi, zoom. destruct (m (app.psi s)) as [r0 f].
  intros H; inversion H; subst; auto.
Qed.

Lemma on_fs_wg_inv {A} (m : M (os.FS * list wiresocks.event) A) s r s' :
  app.on_fs_wg m s = (r, s') ->
  m (app.fs s, app.wg s) = (r, (app.fs s', app.wg s')) /\ app.psi s' = app.psi s.
Proof.
  unfold app.on_fs_wg, zoom. destruct (m (app.fs s, app.wg s)) as [r0 [f w]].
  intros H; inversion H; subst; auto.
Qed.

(** Each call into [wiresocks] adds its own event, whatever comes of it. *)
Lemma log_inv {E} (e : E) (tr : list E) r tr' :
  modify (fun t => t ++ [e]) tr = (r, tr') -> r = Ok tt /\ tr' = tr ++ [e].
Proof. unfold modify. intros H; inversion H; auto. Qed.

Lemma lifts_keep {S A} (m : M S A) (R : S -> S -> Prop) :
  (forall s r s', m s = (r, s') -> s' = s) -> (forall s, R s s) -> steps R m.
Proof. intros Hm Hr s r s' H. apply Hm in H. subst. apply Hr. Qed.

Lemma StartWireguard_log conf tr r tr' :
  wiresocks.StartWireguard (app.ws_env env) conf tr = (r, tr') ->
  tr' = tr ++ [wiresocks.EvStartWireguard conf].
Proof.
  unfold wiresocks.StartWireguard, wiresocks.log, bind, modify, lift, ret.
  repeat match goal with
         | |- context [match ?x with _ => _ end] => destruct x
         end; intros H; inversion H; reflexivity.
Qed.

Lemma StartProxy_log vt b tr r tr' :
  wiresocks.StartProxy (app.ws_env env) vt b tr = (r, tr') ->
  tr' = tr ++ [wiresocks.EvStartProxy vt b]
  /\ r = wiresocks.net_Listen (app.ws_env env)
           (wiresocks.AddrPortString (app.ws_env env) b).
Proof.
  unfold wiresocks.StartProxy, wiresocks.log, bind, modify, lift.
  intros H; inversion H; auto.
Qed.

Lemma NewVtunUDPForwarder_log b d vt mtu tr r tr' :
  wiresocks.NewVtunUDPForwarder (app.ws_env env) b d vt mtu tr = (r, tr') ->
  tr' = tr ++ [wiresocks.EvUDPForwarder b d vt mtu].
Proof.
  unfold wiresocks.NewVtunUDPForwarder, wiresocks.log, bind, modify, lift, ret.
  repeat match goal with
         | |- context [match ?x with _ => _ end] => destruct x
         end; intros H; inversion H; reflexivity.
Qed.

Lemma ReadFile_keeps name fs r fs' :
  os.ReadFile name fs = (r, fs') -> fs' = fs.
Proof.
  unfold os.ReadFile.
  repeat match goal with
         | |- context [match ?x with _ => _ end] => destruct x
         | |- context [if ?x then _ else _] => destruct x
         end; intros H; inversion H; reflexivity.
Qed.

Lemma RunScan_log opts fs tr r fs' tr' :
  wiresocks.RunScan (app.ws_env env) opts (fs, tr) = (r, (fs', tr')) ->
  fs' = fs /\ (tr' = tr \/ tr' = tr ++ [wiresocks.EvRunScan opts])
  /\ (is_ok r = true -> tr' = tr ++ [wiresocks.EvRunScan opts]).
Proof.
  unfold wiresocks.RunScan, bind, wrap, zoom, lift, wiresocks.log, modify. simpl.
  destruct (os.ReadFile _ fs) as [r0 f0] eqn:E. apply ReadFile_keeps in E. subst f0.
  destruct r0 as [text | e | e]; simpl.
  - destruct (ini.LoadDefault text) as [cfg | e | e]; simpl;
      intros H; inversion H; subst; simpl; intuition discriminate.
  - intros H; inversion H; subst; simpl; intuition discriminate.
  - intros H; inversion H; subst; simpl; intuition discriminate.
Qed.

Lemma ParseConfig_keeps path endpoint fs r fs' :
  wiresocks.ParseConfig path endpoint fs = (r, fs') -> fs' = fs.
Proof.
  unfold wiresocks.ParseConfig, bind, lift.
  destruct (os.ReadFile path fs) as [r0 f0] eqn:E. apply ReadFile_keeps in E. subst.
  destruct r0; intros H; inversion H; reflexivity.
Qed.

(** No peer comes out of the parser with the trick set. *)
Lemma rmapM_Forall {A B} (f : A -> result B) (P : B -> Prop) xs ys :
  (forall x y, f x = Ok y -> P y) -> rmapM f xs = Ok ys -> Forall P ys.
Proof.
  intros Hf. revert ys. induction xs as [| x xs IH]; simpl; intros ys H.
  - inversion H. constructor.
  - destruct (f x) as [y | e | e] eqn:E; simpl in H; try discriminate.
    destruct (rmapM f xs) as [ys0 | e | e]; simpl in H; try discriminate.
    inversion H; subst. constructor; eauto.
Qed.

Lemma parsePeer_Trick section peer :
  wiresocks.parsePeer section = Ok peer -> wiresocks.Trick peer = false.
Proof.
  unfold wiresocks.parsePeer, rbind.
  repeat match goal with
         | |- context [match ?x with _ => _ end] => destruct x
         end; intros H; inversion H; reflexivity.
Qed.

Lemma ParsePeers_Trick cfg peers :
  wiresocks.ParsePeers cfg = Ok peers ->
  Forall (fun p => wiresocks.Trick p = false) peers.
Proof.
  unfold wiresocks.ParsePeers.
  destruct (ini.SectionsByName cfg "Peer") as [[| s0 secs] | e | e]; try discriminate.
  apply rmapM_Forall. apply parsePeer_Trick.
Qed.

Lemma ParseConfig_Trick path endpoint fs conf fs' :
  wiresocks.ParseConfig path endpoint fs = (Ok conf, fs') ->
  Forall (fun p => wiresocks.Trick p = false) (wiresocks.Peers conf).
Proof.
  unfold wiresocks.ParseConfig, bind, lift, rbind.
  destruct (os.ReadFile path fs) as [[text | e | e] f0]; try discriminate.
  destruct (ini.Load text) as [cfg | e | e]; try discriminate.
  destruct (wiresocks.ParseInterface cfg) as [iface | e | e]; try discriminate.
  destruct (wiresocks.ParsePeers cfg) as [peers | e | e] eqn:E; try discriminate.
  intros H; inversion H; subst; simpl.
  apply ParsePeers_Trick in E. apply Forall_map.
  eapply Forall_impl; [exact E | ]. intros p Hp. exact Hp.
Qed.

Lemma outer_peers_have conf :
  obs.peers_have 3 true (app.with_peers app.outer_peer conf).
Proof.
  unfold obs.peers_have. simpl. apply Forall_map. apply Forall_forall.
  intros p _. split; reflexivity.
Qed.

Lemma inner_peers_have conf :
  Forall (fun p => wiresocks.Trick p = false) (wiresocks.Peers conf) ->
  obs.peers_have 10 false (app.with_peers app.inner_peer conf).
Proof.
  intros H. unfold obs.peers_have. simpl. apply Forall_map.
  eapply Forall_impl; [exact H | ]. intros p Hp. split; [reflexivity | exact Hp].
Qed.

End Orchestrator.

Ltac inv_bind H :=
  repeat (let a := fresh "a" in let s := fresh "s" in let E := fresh "E" in
          apply bind_Ok_inv in H as (a & s & E & H); cbv beta zeta in H).

Lemma ret_inv {S A} (a : A) (s : S) r s' : ret a s = (r, s') -> r = Ok a /\ s' = s.
Proof. unfold ret. intros H; inversion H; auto. Qed.

Lemma steps_bind_dep {S A B} (R : S -> S -> Prop) (m : M S A) (f : A -> M S B) :
  (forall s1 s2 s3, R s1 s2 -> R s2 s3 -> R s1 s3) ->
  steps R m ->
  (forall s a s1 r s', m s = (Ok a, s1) -> f a s1 = (r, s') -> R s1 s') ->
  steps R (bind m f).
Proof.
  intros Ht Hm Hf s r s'. unfold bind.
  destruct (m s) as [[a | e | e] s1] eqn:E; intros H.
  - eapply Ht; [eapply Hm; eauto | eapply Hf; eauto].
  - inversion H; subst. eapply Hm; eauto.
  - inversion H; subst. eapply Hm; eauto.
Qed.

Section Psiphon.
Variable env : psiphon.Env.

Lemma attempts_log ws n config tr r tr' :
  psiphon.attempts env ws n config tr = (r, tr') ->
  exists k, tr' = tr ++ replicate k (psiphon.EvStartTunnel config)
            /\ (r = Ok tt -> (1 <= k)%nat).
Proof.
  revert n tr. induction ws as [| w ws IH]; intros n tr; simpl.
  - unfold lift. intros H; inversion H. exists 0%nat. simpl. rewrite app_nil_r.
    split; [reflexivity | discriminate].
  - destruct w.
    + unfold bind, psiphon.log, modify.
      destruct (psiphon.StartTunnel env n config).
      * unfold ret. intros H; inversion H; subst. exists 1%nat. simpl. split; [reflexivity | lia].
      * intros H. apply IH in H as (k & -> & Hk). exists (S k). simpl.
        rewrite <- app_assoc. simpl. split; [reflexivity | lia].
      * unfold lift. intros H; inversion H; subst. exists 1%nat. simpl.
        split; [reflexivity | lia].
    + unfold lift. intros H; inversion H. exists 0%nat. simpl. rewrite app_nil_r.
      split; [reflexivity | discriminate].
    + unfold lift. intros H; inversion H. exists 0%nat. simpl. rewrite app_nil_r.
      split; [reflexivity | discriminate].
Qed.

Lemma RunPsiphon_log wgBind localSocksPort country tr r tr' :
  psiphon.RunPsiphon env wgBind localSocksPort country tr = (r, tr') ->
  exists k cfg,
    tr' = tr ++ psiphon.EvRunPsiphon wgBind localSocksPort country
                :: replicate k (psiphon.EvStartTunnel cfg)
    /\ (r = Ok tt -> (1 <= k)%nat)
    /\ ((1 <= k)%nat ->
        exists host port,
          psiphon.SplitHostPort env localSocksPort = Ok (host, port)
          /\ cfg = psiphon.configJSON country
                     (if gostrings.HasPrefix host "127.0.0" then "" else "any")
                     port wgBind).
Proof.
  unfold psiphon.RunPsiphon, bind, psiphon.log, modify, lift.
  destruct (psiphon.SplitHostPort env localSocksPort) as [[host port] | e | e].
  - intros H. apply attempts_log in H as (k & -> & Hk). exists k. eexists.
    rewrite <- app_assoc. simpl. split; [reflexivity | split; [exact Hk | ]].
    intros _. exists host, port. split; reflexivity.
  - intros H; inversion H; subst. exists 0%nat, "".
    split; [reflexivity | split; [discriminate | lia]].
  - intros H; inversion H; subst. exists 0%nat, "".
    split; [reflexivity | split; [discriminate | lia]].
Qed.
End Psiphon.

Section Scenarios.
Context {L : ini.Lib}.
Variable env : app.Env.

Lemma identities_keep license s r s' :
  app.createPrimaryAndSecondaryIdentities env license s = (r, s') ->
  app.wg s' = app.wg s /\ app.psi s' = app.psi s.
Proof.
  unfold app.createPrimaryAndSecondaryIdentities, bind.
  destruct (app.on_fs _ s) as [[a | e | e] s1] eqn:E1;
    apply on_fs_inv in E1 as (_ & Ew1 & Ep1).
  - intros H. apply on_fs_inv in H as (_ & Ew & Ep). split; congruence.
  - intros H; inversion H; subst; auto.
  - intros H; inversion H; subst; auto.
Qed.

Lemma runWarp_ok b endpoint s s' :
  app.runWarp env b endpoint s = (Ok tt, s') ->
  exists conf vt,
    app.wg s' = app.wg s ++ [wiresocks.EvStartWireguard conf; wiresocks.EvStartProxy vt b]
    /\ obs.peers_have 3 true conf.
Proof.
  unfold app.runWarp. intros H. inv_bind H.
  apply on_fs_inv in E as (_ & Ew & Ep).
  apply on_wg_inv in E0 as (E0 & _ & Ep0). apply StartWireguard_log in E0.
  apply on_wg_inv in E1 as (E1 & _ & Ep1). apply StartProxy_log in E1 as (E1 & _).
  apply ret_inv in H as (_ & ->).
  eexists _, _. split.
  - rewrite E1, E0, Ew, <- app_assoc. reflexivity.
  - apply outer_peers_have.
Qed.

Lemma runWarpInWarp_ok b endpoints s s' :
  app.runWarpInWarp env b endpoints s = (Ok tt, s') ->
  exists outer inner vt1 vt2 dest,
    app.wg s' = app.wg s ++ [wiresocks.EvStartWireguard outer;
                             wiresocks.EvUDPForwarder netip.loopback_any_port dest vt1 app.singleMTU;
                             wiresocks.EvStartWireguard inner;
                             wiresocks.EvStartProxy vt2 b]
    /\ obs.peers_have 3 true outer /\ obs.peers_have 10 false inner.
Proof.
  unfold app.runWarpInWarp. intros H. inv_bind H.
  apply lift_inv in E as (_ & ->).
  apply on_fs_inv in E0 as (_ & Ew0 & _).
  apply on_wg_inv in E1 as (E1 & _ & _). apply StartWireguard_log in E1.
  apply lift_inv in E2 as (_ & ->).
  apply on_wg_inv in E3 as (E3 & _ & _). apply NewVtunUDPForwarder_log in E3.
  apply on_fs_inv in E4 as (E4 & Ew4 & _). apply ParseConfig_Trick in E4.
  apply on_wg_inv in E5 as (E5 & _ & _). apply StartWireguard_log in E5.
  apply on_wg_inv in E6 as (E6 & _ & _). apply StartProxy_log in E6 as (E6 & _).
  apply ret_inv in H as (_ & ->).
  eexists _, _, _, _, _. split; [ | split].
  - rewrite E6, E5, Ew4, E3, E1, Ew0, <- !app_assoc. reflexivity.
  - apply outer_peers_have.
  - apply inner_peers_have. simpl. exact E4.
Qed.

Lemma runWarpWithPsiphon_log b endpoint country s r s' :
  app.runWarpWithPsiphon env b endpoint country s = (r, s') ->
  exists new newp,
    app.wg s' = app.wg s ++ new /\ app.psi s' = app.psi s ++ newp
    /\ Forall (fun a => a = netip.loopback_any_port) (obs.proxy_binds new)
    /\ Forall (obs.psiphon_call_ok (app.ws_env env) (app.psi_env env) b country) newp
    /\ (r = Ok tt ->
        (exists conf vt, new = [wiresocks.EvStartWireguard conf;
                                wiresocks.EvStartProxy vt netip.loopback_any_port]
                         /\ obs.peers_have 3 true conf)
        /\ exists w l c k cfg,
             newp = psiphon.EvRunPsiphon w l c
                    :: replicate (S k) (psiphon.EvStartTunnel cfg)).
Proof.
  unfold app.runWarpWithPsiphon, bind.
  destruct (app.on_fs _ s) as [[conf | e | e] s1] eqn:E1;
    apply on_fs_inv in E1 as (_ & Ew1 & Ep1);
    [ | intros H; inversion H; subst; exists [], []; rewrite !app_nil_r;
        split; [congruence | split; [congruence | ]];
        split; [constructor | split; [constructor | discriminate]] ..].
  destruct (app.on_wg _ s1) as [[vt | e | e] s2] eqn:E2;
    apply on_wg_inv in E2 as (E2 & _ & Ep2); apply StartWireguard_log in E2;
    [ | intros H; inversion H; subst; eexists [_], []; rewrite !app_nil_r;
        split; [rewrite E2, Ew1; reflexivity | split; [congruence | ]];
        split; [constructor | split; [constructor | discriminate]] ..].
  destruct (app.on_wg _ s2) as [[warpBind | e | e] s3] eqn:E3;
    apply on_wg_inv in E3 as (E3 & _ & Ep3); apply StartProxy_log in E3 as (E3 & Er);
    [ | intros H; inversion H; subst; eexists [_; _], []; rewrite !app_nil_r;
        split; [rewrite E3, E2, Ew1, <- !app_assoc; reflexivity | split; [congruence | ]];
        split; [repeat constructor | split; [constructor | discriminate]] ..].
  intros H. apply wrap_inv in H as (r0 & H & Hr).
  apply on_psi_inv in H as (H & _ & Ew4).
  apply RunPsiphon_log in H as (k & cfg & Hp & Hk & Hcfg).
  eexists [_; _], _. split; [ | split; [ | split; [ | split]]].
  - rewrite Ew4, E3, E2, Ew1, <- !app_assoc. reflexivity.
  - rewrite Hp, Ep3, Ep2, Ep1. reflexivity.
  - repeat constructor.
  - constructor.
    + exists warpBind. split; [congruence | auto].
    + apply Forall_forall. intros e He. apply elem_of_replicate in He as (-> & Hne).
      exists warpBind. split; [congruence | ].
      apply Hcfg. lia.
  - intros ->. symmetry in Hr. apply wrap_err_Ok in Hr. specialize (Hk Hr). split.
    + eexists _, _. split; [reflexivity | apply outer_peers_have].
    + destruct k as [| k]; [lia | ]. eexists _, _, _, k, _. reflexivity.
Qed.
End Scenarios.

Section RunWarp.
Context {L : ini.Lib}.
Variable env : app.Env.

(** What RunWarp does before it picks its scenario: the files change, a
    scan may be logged, nothing else. *)
Lemma endpoints_log opts s r s' :
  (match app.Scan opts with
   | Some scan =>
       bind (app.on_fs_wg (wiresocks.RunScan (app.ws_env env) scan))
         (fun res => ret (map (fun r => wiresocks.AddrPortString (app.ws_env env)
                                          (statute.AddrPort r)) res))
   | None => ret [app.Endpoint opts; app.Endpoint opts]
   end) s = (r, s') ->
  exists pre, app.wg s' = app.wg s ++ pre /\ app.psi s' = app.psi s
              /\ obs.started pre = [] /\ obs.proxy_binds pre = [].
Proof.
  destruct (app.Scan opts) as [scan | ].
  - unfold bind. destruct (app.on_fs_wg _ s) as [r0 s1] eqn:E.
    apply on_fs_wg_inv in E as (E & Ep). apply RunScan_log in E as (_ & [Ew | Ew] & _).
    + intros H. exists []. rewrite app_nil_r.
      destruct r0; inversion H; subst; auto.
    + intros H. exists [wiresocks.EvRunScan scan].
      destruct r0; inversion H; subst; auto.
  - intros H. apply ret_inv in H as (_ & ->). exists []. rewrite app_nil_r. auto.
Qed.

(** C6: in a run of the orchestrator that succeeds, every peer of a
    single hop and of the outer hop of warp-in-warp has KeepAlive 3 and
    the trick set, and every peer of the inner hop has KeepAlive 10 and
    the trick unset, whatever the profiles hold. *)
Theorem RunWarp_peers opts s s' :
  app.RunWarp env opts s = (Ok tt, s') ->
  exists new,
    app.wg s' = app.wg s ++ new
    /\ if app.Gool opts
       then exists outer inner,
              obs.started new = [outer; inner]
              /\ obs.peers_have 3 true outer /\ obs.peers_have 10 false inner
       else exists conf,
              obs.started new = [conf] /\ obs.peers_have 3 true conf.
Proof.
  unfold app.RunWarp.
  destruct (app.has_psiphon opts && app.Gool opts) eqn:Hpg; [discriminate | ].
  destruct (match app.Psiphon opts with Some p => _ | None => false end);
    [discriminate | ].
  intros H. apply bind_Ok_inv in H as (u & s1 & E1 & H).
  apply identities_keep in E1 as (Ew1 & Ep1).
  apply bind_Ok_inv in H as (endpoints & s2 & E2 & H).
  apply endpoints_log in E2 as (pre & Ew2 & Ep2 & Hst & _).
  unfold app.has_psiphon in Hpg.
  destruct (app.Psiphon opts) as [p | ].
  - simpl in Hpg. rewrite Hpg.
    apply bind_Ok_inv in H as (endpoint0 & s3 & E3 & H).
    apply lift_inv in E3 as (_ & ->).
    apply runWarpWithPsiphon_log in H as (new & newp & Ew & _ & _ & _ & Hok).
    destruct (Hok eq_refl) as ((conf & vt & -> & Hc) & _).
    eexists. split; [rewrite Ew, Ew2, Ew1, <- app_assoc; reflexivity | ].
    exists conf. unfold obs.started in *. rewrite omap_app, Hst. auto.
  - destruct (app.Gool opts).
    + apply runWarpInWarp_ok in H as (outer & inner & vt1 & vt2 & dest & Ew & Ho & Hi).
      eexists. split; [rewrite Ew, Ew2, Ew1, <- app_assoc; reflexivity | ].
      exists outer, inner. unfold obs.started in *. rewrite omap_app, Hst. auto.
    + apply bind_Ok_inv in H as (endpoint0 & s3 & E3 & H).
      apply lift_inv in E3 as (_ & ->).
      apply runWarp_ok in H as (conf & vt & Ew & Hc).
      eexists. split; [rewrite Ew, Ew2, Ew1, <- app_assoc; reflexivity | ].
      exists conf. unfold obs.started in *. rewrite omap_app, Hst. auto.
Qed.


(** C5: RunWarp given both the Psiphon option and the gool flag returns
    an error and changes nothing: no file, no tunnel, no proxy, no scan;
    [main] refuses the two flags together before it builds any option. *)
Theorem psiphon_and_gool_rejected menv opts p f s :
  (app.Psiphon opts = Some p -> app.Gool opts = true ->
   app.RunWarp env opts s
   = (Err "can't use psiphon and gool at the same time", s))
  /\ (app.psiphon f = true -> app.gool f = true ->
      app.main env menv f s
      = (app.Fatal "can't use cfon and gool at the same time", s)).
Proof.
  split.
  - intros Hp Hg. unfold app.RunWarp, app.has_psiphon. rewrite Hp, Hg. reflexivity.
  - intros Hp Hg. unfold app.main, app.options. rewrite Hp, Hg. reflexivity.
Qed.
End RunWarp.

Lemma psiphon_and_gool_rejected_witness :
  app.RunWarp (L := sample.L) sample.env
    (sample.options (Some {| app.Country := "JP" |}) true false) sample.sys
  = (Err "can't use psiphon and gool at the same time", sample.sys)
  /\ app.main (L := sample.L) sample.env sample.main_env (sample.flags true true) sample.sys
     = (app.Fatal "can't use cfon and gool at the same time", sample.sys).
Proof.
  destruct (psiphon_and_gool_rejected (L := sample.L) sample.env sample.main_env
              (sample.options (Some {| app.Country := "JP" |}) true false)
              {| app.Country := "JP" |} (sample.flags true true) sample.sys)
    as [H1 H2].
  split; [apply H1; reflexivity | apply H2; reflexivity].
Defined.

Lemma RunWarp_peers_witness :
  exists new,
    app.wg (app.RunWarp (L := sample.L) sample.env (sample.options None true true) sample.sys).2
    = app.wg sample.sys ++ new
    /\ exists outer inner,
         obs.started new = [outer; inner]
         /\ obs.peers_have 3 true outer /\ obs.peers_have 10 false inner.
Proof.
  apply (RunWarp_peers (L := sample.L) sample.env (sample.options None true true) sample.sys).
  vm_compute. reflexivity.
Defined.


(** ** The identity files *)

Section Identity.
Variable env : warp.Env.

Lemma saveIdentity_mode a path fs fs' :
  os.files fs !! os.Join path warp.identityFile = None ->
  warp.saveIdentity env a path fs = (Ok tt, fs') ->
  obs.mode_of fs' (os.Join path warp.identityFile)
  = Some (os.apply_umask os.Create_perm (os.umask fs)).
Proof.
  intros Hnew. unfold warp.saveIdentity, bind, os.Create, os.open_trunc_write.
  destruct (os.denied fs _); [discriminate | ]. rewrite Hnew.
  unfold lift. destruct (warp.json_Encode env a); try discriminate.
  unfold os.Write, modify. intros H; inversion H; subst. clear H.
  unfold obs.mode_of. simpl. rewrite lookup_alter_eq, lookup_insert_eq. reflexivity.
Qed.

Lemma createConf_mode i path fs fs' :
  os.files fs !! os.Join path warp.profileFile = None ->
  warp.createConf i path fs = (Ok tt, fs') ->
  obs.mode_of fs' (os.Join path warp.profileFile)
  = Some (os.apply_umask warp.mode_0600 (os.umask fs)).
Proof.
  intros Hnew. unfold warp.createConf.
  destruct (warp.Peers (warp.Config i)); [discriminate | ].
  unfold os.WriteFile, os.open_trunc_write.
  destruct (os.denied fs _); [discriminate | ]. rewrite Hnew.
  intros H; inversion H; subst. clear H.
  unfold obs.mode_of. simpl. rewrite lookup_insert_eq. reflexivity.
Qed.
End Identity.

(** C9 fails on the code for the identity file: on an empty disk with
    umask 022, saveIdentity creates wgcf-identity.json with mode 0644 (420),
    where createConf creates wgcf-profile.ini with mode 0600 (384); so does
    LoadOrCreateIdentity, which calls both. *)
Theorem identity_file_created_0644 :
  obs.mode_of (warp.saveIdentity sample.warp_env sample.identity "./stuff/primary"
                 sample.disk).2
    "./stuff/primary/wgcf-identity.json" = Some 420%N
  /\ obs.mode_of (warp.createConf sample.identity "./stuff/primary" sample.disk).2
       "./stuff/primary/wgcf-profile.ini" = Some 384%N
  /\ (let fs' := (warp.LoadOrCreateIdentity sample.warp_env "./stuff/primary" ""
                    sample.disk).2 in
      obs.mode_of fs' "./stuff/primary/wgcf-identity.json" = Some 420%N
      /\ obs.mode_of fs' "./stuff/primary/wgcf-profile.ini" = Some 384%N)
  /\ warp.mode_0600 = 384%N.
Proof. vm_compute. repeat split. Qed.

(** ** The UDP forwarder *)

Section Forwarder.
Import wiresocks.fwd.








(** While both goroutines sit in ReadFrom with nothing to read, no turn
    of any goroutine changes the state. *)
Lemma blocked_run (sched : list goroutine) s :
  g_host s = InRead -> g_tun s = InRead ->
  host_queue s = [] -> tun_queue s = [] ->
  run (map Run sched) s = s.
Proof.
  intros Hh Ht Hq1 Hq2. induction sched as [| g sched IH]; [reflexivity | ].
  change (run (map Run (g :: sched)) s) with (run (map Run sched) (step s (Run g))).
  assert (Hs : step s (Run g) = s).
  { destruct g; simpl.
    - unfold run_host. rewrite Hh, Hq1. reflexivity.
    - unfold run_tun. rewrite Ht, Hq2. reflexivity.
    - unfold run_closer. rewrite Hh. reflexivity. }
  rewrite Hs. exact IH.
Qed.

(** C3 fails on the code: with both goroutines in ReadFrom when the
    context is cancelled, and no datagram after that, no goroutine ever
    returns and no socket is ever closed, however long they are run. *)
Theorem cancel_while_reading_closes_nothing (sched : list goroutine) :
  let s := run ([Run HostToTun; Run TunToHost; Cancel] ++ map Run sched) init in
  cancelled s = true
  /\ g_host s = InRead /\ g_tun s = InRead
  /\ listener_open s = true /\ rconn_open s = true.
Proof.
  unfold run. rewrite fold_left_app. fold (run (map Run sched)).
  rewrite blocked_run; simpl; auto.
Qed.


End Forwarder.

(** ** The proxy handler *)

Section Handler.
Import wiresocks.handler.

Ltac cases :=
  repeat (match goal with
          | H : (_, _) = (_, _) |- _ => inversion H; clear H; subst
          | |- context [match ?x with _ => _ end] => destruct x eqn:?
          | H : context [match ?x with _ => _ end] |- _ => destruct x eqn:?
          end; simpl in *; try congruence; try lia).

Ltac finish :=
  try match goal with
      | E : main ?s = _, H : past_closing (main ?s) = true |- _ =>
          rewrite E in H; simpl in H; discriminate
      end;
  repeat match goal with
         | E : ?x = _ |- context [?x] => rewrite E
         end;
  simpl; solve [auto | lia | congruence].

Ltac open_step :=
  unfold step, run_main, run_copier, copy_turn, on_side, receive, close, torn_down in *;
  simpl in *.

Lemma step_keeps_closed s a :
  torn_down s = true -> torn_down (step s a) = true.
Proof.
  intros H. apply andb_true_iff in H as [H1 H2]. apply andb_true_iff.
  open_step. destruct a as [[|] chunk | [|] | [| |]]; cases; auto; finish.
Qed.

Lemma step_keeps_outbox s a :
  torn_down s = true ->
  outbox (client (step s a)) = outbox (client s)
  /\ outbox (upstream (step s a)) = outbox (upstream s).
Proof.
  intros H. apply andb_true_iff in H as [H1 H2].
  open_step. destruct a as [[|] chunk | [|] | [| |]]; cases; auto; finish.
Qed.

Lemma step_counts s a :
  (received (main s) + List.length (done s) = finished (c2u s) + finished (u2c s))%nat ->
  (received (main (step s a)) + List.length (done (step s a))
   = finished (c2u (step s a)) + finished (u2c (step s a)))%nat.
Proof.
  intros H. open_step. destruct a as [[|] chunk | [|] | [| |]]; cases; auto; finish.
Qed.

Lemma step_past_closing s a :
  (past_closing (main s) = true -> torn_down s = true) ->
  past_closing (main (step s a)) = true -> torn_down (step s a) = true.
Proof.
  intros H Hp. destruct (past_closing (main s)) eqn:E.
  - apply step_keeps_closed. auto.
  - clear H. open_step. destruct a as [[|] chunk | [|] | [| |]]; cases; auto; finish.
Qed.

Lemma consistent_run_handler tr s : consistent s -> consistent (run tr s).
Proof.
  revert s. induction tr as [| a tr IH]; intros s [H1 H2]; [split; assumption | ].
  apply IH. split; [apply step_counts; exact H1 | apply step_past_closing; exact H2].
Qed.

Lemma torn_down_frozen tr s :
  torn_down s = true ->
  torn_down (run tr s) = true
  /\ outbox (client (run tr s)) = outbox (client s)
  /\ outbox (upstream (run tr s)) = outbox (upstream s).
Proof.
  revert s. induction tr as [| a tr IH]; intros s H; [auto | ].
  destruct (IH (step s a) (step_keeps_closed s a H)) as (Ht & Hc & Hu).
  destruct (step_keeps_outbox s a H) as (Hc1 & Hu1).
  simpl. split; [exact Ht | split; congruence].
Qed.

(** C2, as the code has it: once the handler has learnt that one copy has
    ended and has gone past its two Close calls, both connections are
    closed, nothing more is ever delivered in either direction, and the
    handler returns only when both copies have ended. *)
Theorem handler_closes_both_after_first_copy tr tr' :
  let s := run tr init in
  past_closing (main s) = true ->
  torn_down s = true
  /\ (c2u s = Finished \/ u2c s = Finished)
  /\ outbox (client (run tr' s)) = outbox (client s)
  /\ outbox (upstream (run tr' s)) = outbox (upstream s)
  /\ (main (run tr' s) = Returned ->
      c2u (run tr' s) = Finished /\ u2c (run tr' s) = Finished).
Proof.
  intros s Hp.
  assert (Hi : consistent s) by (apply consistent_run_handler; split; [reflexivity | discriminate]).
  destruct Hi as [Hc Ht]. specialize (Ht Hp).
  destruct (torn_down_frozen tr' s Ht) as (_ & Ho1 & Ho2).
  split; [exact Ht | ]. split; [ | split; [exact Ho1 | split; [exact Ho2 | ]]].
  - destruct (main s); try discriminate; simpl in Hc;
      destruct (c2u s), (u2c s); simpl in Hc; auto; lia.
  - intros Hr.
    assert (Hi : consistent (run tr' s)).
    { unfold s, run. rewrite <- fold_left_app. apply (consistent_run_handler (tr ++ tr') init).
      split; [reflexivity | discriminate]. }
    destruct Hi as [Hc' _]. rewrite Hr in Hc'. simpl in Hc'.
    destruct (c2u (run tr' s)), (u2c (run tr' s)); simpl in Hc'; auto; lia.
Qed.

(** C2 as stated fails: the chunk in flight from the upstream is never
    delivered to the client. *)
Lemma handler_drops_in_flight_data : ~ graceful sample.eof_first sample.teardown.
Proof.
  intros H. destruct (H eq_refl eq_refl eq_refl) as [[more Hm] _].
  vm_compute in Hm. discriminate.
Qed.

Lemma handler_closes_both_after_first_copy_witness :
  let s := run (sample.eof_first ++ [Run Main]) init in
  torn_down s = true
  /\ (c2u s = Finished \/ u2c s = Finished)
  /\ outbox (client (run sample.second_copy s)) = outbox (client s)
  /\ outbox (upstream (run sample.second_copy s)) = outbox (upstream s)
  /\ (main (run sample.second_copy s) = Returned ->
      c2u (run sample.second_copy s) = Finished
      /\ u2c (run sample.second_copy s) = Finished).
Proof.
  apply (handler_closes_both_after_first_copy (sample.eof_first ++ [Run Main])
           sample.second_copy).
  reflexivity.
Defined.
End Handler.

(** ** The scanner *)

Section Scanner.
Import statute engine.





















End Scanner.

(** ** The profile: written by createConf, read by ParseConfig *)

Section Profile.
Import gostrings profile.

Lemma chars_app a b : chars (a +:+ b) = chars a ++ chars b.
Proof. unfold chars. induction a as [| c a IH]; simpl; [reflexivity | ]. rewrite IH. reflexivity. Qed.

Lemma str_chars s : str (chars s) = s.
Proof. apply string_of_list_ascii_of_string. Qed.

Lemma chars_str l : chars (str l) = l.
Proof. apply list_ascii_of_string_of_list_ascii. Qed.

Lemma plain_char_facts c :
  plain_char c = true ->
  goini.is_ascii c = true /\ is_space c = false
  /\ Ascii.eqb c "#" = false /\ Ascii.eqb c ";" = false
  /\ Ascii.eqb c "%" = false /\ Ascii.eqb c "," = false
  /\ Ascii.eqb c goini.dquote = false /\ Ascii.eqb c "'" = false
  /\ Ascii.eqb c "`" = false /\ Ascii.eqb c "\" = false
  /\ Ascii.eqb c (ascii_of_N 10) = false.
Proof.
  destruct c as [[] [] [] [] [] [] [] []]; vm_compute; intros H;
    try discriminate H; repeat split.
Qed.

Lemma trim_left_plain c l : plain_char c = true -> trim_left (c :: l) = c :: l.
Proof. intros H. apply plain_char_facts in H as (_ & H & _). simpl. rewrite H. reflexivity. Qed.

Lemma trim_left_snoc l c :
  is_space c = false -> trim_left (l ++ [c]) = trim_left l ++ [c].
Proof.
  intros H. induction l as [| x l IH]; simpl; [rewrite H; reflexivity | ].
  destruct (is_space x); [exact IH | reflexivity].
Qed.

Lemma trim_plain l : forallb plain_char l = true -> trim l = l.
Proof.
  intros H. unfold trim, trim_right.
  destruct l as [| c l]; [reflexivity | ].
  simpl in H. apply andb_true_iff in H as [Hc Hl].
  rewrite trim_left_plain by exact Hc.
  destruct (rev (c :: l)) as [| z r] eqn:E.
  - apply (f_equal (@rev ascii)) in E. rewrite rev_involutive in E. discriminate.
  - assert (Hz : plain_char z = true).
    { assert (Hin : In z (c :: l)).
      { apply in_rev. rewrite E. left. reflexivity. }
      destruct Hin as [<- | Hin]; [exact Hc | ].
      rewrite forallb_forall in Hl. apply Hl, Hin. }
    rewrite trim_left_plain by exact Hz. rewrite <- E. apply rev_involutive.
Qed.

Lemma index_where_none {A} (p : A -> bool) l :
  forallb (fun x => negb (p x)) l = true -> index_where p l = None.
Proof.
  induction l as [| x l IH]; simpl; [reflexivity | ].
  intros H. apply andb_true_iff in H as [Hx Hl]. apply negb_true_iff in Hx.
  rewrite Hx, IH by exact Hl. reflexivity.
Qed.

Lemma forallb_impl {A} (p q : A -> bool) l :
  (forall x, p x = true -> q x = true) -> forallb p l = true -> forallb q l = true.
Proof.
  intros Hpq. rewrite !forallb_forall. intros H x Hx. apply Hpq, H, Hx.
Qed.

Lemma existsb_none {A} (p : A -> bool) l :
  forallb (fun x => negb (p x)) l = true -> existsb p l = false.
Proof.
  induction l as [| x l IH]; simpl; [reflexivity | ].
  intros H. apply andb_true_iff in H as [Hx Hl]. apply negb_true_iff in Hx.
  rewrite Hx, IH by exact Hl. reflexivity.
Qed.

Lemma last_plain l z : forallb plain_char l = true -> last l = Some z -> plain_char z = true.
Proof.
  intros H Hl. rewrite forallb_forall in H. apply H.
  apply list_elem_of_In. eapply last_Some_elem_of. exact Hl.
Qed.

(** A plain value after the delimiter and one space comes back as it is. *)
Lemma readValue_plain l :
  forallb plain_char l = true -> goini.readValue (" "%char :: l) = Ok (str l).
Proof.
  intros H. unfold goini.readValue.
  change (trim_left (" "%char :: l)) with (trim_left l).
  destruct l as [| c rest]; [reflexivity | ].
  pose proof H as H0. simpl in H0. apply andb_true_iff in H0 as [Hc Hrest].
  rewrite trim_left_plain by exact Hc.
  pose proof (plain_char_facts c Hc) as (_ & _ & _ & _ & _ & _ & Hq & Hsq & Hbq & _ & _).
  rewrite Hbq. simpl orb.
  assert (Ht : goini.starts_triple_quote (c :: rest) = false).
  { unfold goini.starts_triple_quote.
    destruct rest as [| c2 [| c3 rest']]; simpl; rewrite ?Hq; simpl;
      rewrite ?andb_false_r; reflexivity. }
  rewrite Ht.
  rewrite trim_plain by exact H.
  destruct (last (c :: rest)) as [z | ] eqn:El.
  2:{ rewrite last_cons in El. destruct (last rest); discriminate. }
  pose proof (last_plain _ _ H El) as Hz.
  pose proof (plain_char_facts z Hz) as (_ & _ & _ & _ & _ & _ & _ & _ & _ & Hbs & _).
  rewrite Hbs.
  rewrite index_where_none.
  2:{ eapply forallb_impl; [ | exact H]. intros x Hx.
      apply plain_char_facts in Hx as (_ & _ & H1 & H2 & _). rewrite H1, H2. reflexivity. }
  unfold goini.hasSurroundedQuote. rewrite Hsq, Hq, !andb_false_r. simpl orb.
  rewrite existsb_none; [reflexivity | ].
  eapply forallb_impl; [ | exact H]. intros x Hx.
  apply plain_char_facts in Hx as (_ & _ & _ & _ & H1 & _).
  unfold goini.is_char. rewrite H1. reflexivity.
Qed.

Lemma plain_no_lf l : forallb plain_char l = true -> no_lf l = true.
Proof.
  apply forallb_impl. intros x Hx.
  apply plain_char_facts in Hx as (_ & _ & _ & _ & _ & _ & _ & _ & _ & _ & Hlf).
  rewrite Hlf. reflexivity.
Qed.

Lemma no_lf_app l1 l2 : no_lf (l1 ++ l2) = no_lf l1 && no_lf l2.
Proof. apply forallb_app. Qed.

Lemma split_on_line l rest :
  no_lf l = true ->
  split_on (ascii_of_N 10) (l ++ ascii_of_N 10 :: rest)
  = l :: split_on (ascii_of_N 10) rest.
Proof.
  induction l as [| c l IH]; intros H.
  - reflexivity.
  - unfold no_lf in H. cbn [forallb] in H.
    apply andb_true_iff in H as [Hc Hl]. apply negb_true_iff in Hc.
    change ((c :: l) ++ ascii_of_N 10 :: rest) with (c :: (l ++ ascii_of_N 10 :: rest)).
    cbn [split_on]. rewrite Hc, IH by exact Hl. reflexivity.
Qed.

Lemma plain_ascii l : forallb plain_char l = true -> forallb goini.is_ascii l = true.
Proof.
  apply forallb_impl. intros x Hx. apply plain_char_facts in Hx as (H & _). exact H.
Qed.

Lemma profile_text_lines privateKey v4 v6 publicKey host :
  chars (warp.profile_text privateKey v4 v6 publicKey host)
  = unlines (profile_lines privateKey v4 v6 publicKey host).
Proof.
  unfold warp.profile_text, profile_lines, unlines.
  rewrite !chars_app. cbn [map concat]. rewrite <- !app_assoc. reflexivity.
Qed.

Lemma split_unlines ls :
  forallb no_lf ls = true ->
  split_on (ascii_of_N 10) (unlines ls) = ls ++ [[]].
Proof.
  unfold unlines. induction ls as [| l ls IH]; intros H; [reflexivity | ].
  cbn [forallb] in H. apply andb_true_iff in H as [Hl Hls].
  cbn [map concat]. rewrite <- app_assoc. cbn [app].
  rewrite split_on_line by exact Hl. rewrite IH by exact Hls. reflexivity.
Qed.

Lemma letter_facts c :
  is_letter c = true ->
  is_space c = false
  /\ Ascii.eqb c "#" = false /\ Ascii.eqb c ";" = false /\ Ascii.eqb c "[" = false
  /\ Ascii.eqb c goini.dquote = false /\ Ascii.eqb c "`" = false
  /\ Ascii.eqb c "=" = false /\ Ascii.eqb c ":" = false /\ Ascii.eqb c "-" = false.
Proof.
  destruct c as [[] [] [] [] [] [] [] []]; vm_compute; intros H;
    try discriminate H; repeat split.
Qed.

Lemma trim_letters key : forallb is_letter key = true -> trim (key ++ [" "%char]) = key.
Proof.
  intros H. unfold trim, trim_right.
  destruct key as [| c key]; [reflexivity | ].
  pose proof H as H0. cbn [forallb] in H0. apply andb_true_iff in H0 as [Hc Hk].
  apply letter_facts in Hc as (Hs & _).
  change ((c :: key) ++ [" "%char]) with (c :: (key ++ [" "%char])).
  cbn [trim_left]. rewrite Hs.
  change (c :: key ++ [" "%char]) with ((c :: key) ++ [" "%char]).
  rewrite rev_app_distr. cbn [rev app trim_left].
  change (is_space " ") with true. cbv iota.
  destruct (rev key ++ [c]) as [| z r] eqn:E.
  - destruct (rev key); discriminate.
  - assert (Hz : is_letter z = true).
    { assert (Hin : In z (c :: key)).
      { apply in_rev. cbn [rev]. rewrite E. left. reflexivity. }
      rewrite forallb_forall in H. apply H, Hin. }
    apply letter_facts in Hz as (Hzs & _). cbn [trim_left]. rewrite Hzs.
    rewrite <- E. rewrite rev_app_distr. cbn [rev app]. rewrite rev_involutive. reflexivity.
Qed.

Lemma index_delim key rest :
  forallb is_letter key = true ->
  index_where (fun x => Ascii.eqb x "=" || Ascii.eqb x ":")
    (key ++ " "%char :: "="%char :: rest)
  = Some (S (List.length key)).
Proof.
  induction key as [| c key IH]; intros H; [reflexivity | ].
  cbn [forallb] in H. apply andb_true_iff in H as [Hc Hk].
  apply letter_facts in Hc as (_ & _ & _ & _ & _ & _ & He & Hco & _).
  cbn [app index_where]. rewrite He, Hco, IH by exact Hk. reflexivity.
Qed.

(** A line "Key = value" with a plain value sets that key to that value. *)
Lemma parse_line_kv key l secs cur :
  key <> [] -> forallb is_letter key = true -> forallb plain_char l = true ->
  goini.parse_line goini.iniOpt (key ++ chars " = " ++ l) (secs, cur)
  = Ok (alter (goini.NewKey goini.iniOpt (str key) (str l)) cur secs, cur).
Proof.
  intros Hne Hk Hl. unfold goini.parse_line.
  destruct key as [| c key]; [congruence | ].
  pose proof Hk as H0. cbn [forallb] in H0. apply andb_true_iff in H0 as [Hc Hk'].
  pose proof (letter_facts c Hc) as (Hs & H1 & H2 & H3 & H4 & H5 & _ & _ & H6).
  change ((c :: key) ++ chars " = " ++ l)
    with (c :: (key ++ " "%char :: "="%char :: " "%char :: l)).
  cbn [trim_left]. rewrite Hs, H1, H2, H3. cbn [orb].
  unfold goini.readKeyName. rewrite H4, H5. cbn [orb].
  change (c :: key ++ " "%char :: "="%char :: " "%char :: l)
    with ((c :: key) ++ " "%char :: "="%char :: " "%char :: l).
  rewrite index_delim by exact Hk.
  replace (take (S (List.length (c :: key)))
             ((c :: key) ++ " "%char :: "="%char :: " "%char :: l))
    with ((c :: key) ++ [" "%char]).
  2:{ change ((c :: key) ++ " "%char :: "="%char :: " "%char :: l)
        with ((c :: key) ++ [" "%char] ++ "="%char :: " "%char :: l).
      rewrite app_assoc. rewrite take_app_length'; [reflexivity | ].
      rewrite length_app. simpl. lia. }
  rewrite trim_letters by exact Hk.
  replace (drop (S (S (List.length (c :: key))))
             ((c :: key) ++ " "%char :: "="%char :: " "%char :: l))
    with (" "%char :: l).
  2:{ change ((c :: key) ++ " "%char :: "="%char :: " "%char :: l)
        with ((c :: key) ++ [" "%char; "="%char] ++ " "%char :: l).
      rewrite app_assoc. rewrite drop_app_length'; [reflexivity | ].
      rewrite length_app. simpl. lia. }
  assert (Hdash : String.eqb (str (c :: key)) "-" = false).
  { apply String.eqb_neq. intros E. apply (f_equal chars) in E.
    rewrite chars_str in E. inversion E; subst. discriminate. }
  rewrite Hdash. cbn [rbind]. rewrite readValue_plain by exact Hl. reflexivity.
Qed.

Lemma forallb_unlines (p : ascii -> bool) ls :
  forallb p (unlines ls) = forallb (fun l => forallb p l && p (ascii_of_N 10)) ls.
Proof.
  unfold unlines. induction ls as [| l ls IH]; [reflexivity | ].
  cbn [map concat forallb]. rewrite forallb_app, forallb_app, IH.
  cbn [forallb]. rewrite andb_true_r. reflexivity.
Qed.

Lemma parse_line_header name secs cur :
  name = "[Interface]" \/ name = "[Peer]" ->
  goini.parse_line goini.iniOpt (chars name) (secs, cur)
  = Ok (secs ++ [{| goini.sname := ToLower (str (take (List.length (chars name) - 2)
                                                     (drop 1 (chars name))));
                    goini.keys := [] |}],
        List.length secs).
Proof. intros [-> | ->]; reflexivity. Qed.

Lemma parse_line_dns secs cur :
  goini.parse_line goini.iniOpt (chars "DNS" ++ chars " = " ++ chars dns_value) (secs, cur)
  = Ok (alter (goini.NewKey goini.iniOpt "DNS" dns_value) cur secs, cur).
Proof. reflexivity. Qed.

Lemma parse_line_empty st : goini.parse_line goini.iniOpt [] st = Ok st.
Proof. destruct st. reflexivity. Qed.

Lemma suffix_differs a b : String.eqb (a +:+ "/24") (b +:+ "/128") = false.
Proof.
  apply String.eqb_neq. intros E. apply (f_equal chars) in E.
  rewrite !chars_app in E. apply (f_equal (@rev ascii)) in E.
  rewrite !rev_app_distr in E. simpl in E. inversion E.
Qed.

Lemma plain_app a b : plain a = true -> plain b = true -> plain (a +:+ b) = true.
Proof. unfold plain. rewrite chars_app, forallb_app. intros -> ->. reflexivity. Qed.

Lemma Load_profile privateKey v4 v6 publicKey host :
  plain privateKey = true -> plain v4 = true -> plain v6 = true ->
  plain publicKey = true -> plain host = true ->
  goini.LoadSources goini.iniOpt (warp.profile_text privateKey v4 v6 publicKey host)
  = Ok (profile_file privateKey v4 v6 publicKey host).
Proof.
  intros Hpriv H4 H6 Hpub Hhost.
  pose proof (plain_app v4 "/24" H4 eq_refl) as H4'.
  pose proof (plain_app v6 "/128" H6 eq_refl) as H6'.
  unfold plain in *.
  unfold goini.LoadSources. rewrite profile_text_lines.
  assert (Hascii : forallb goini.is_ascii
            (unlines (profile_lines privateKey v4 v6 publicKey host)) = true).
  { rewrite forallb_unlines. unfold profile_lines. cbn [forallb].
    rewrite !forallb_app.
    rewrite (plain_ascii _ Hpriv), (plain_ascii _ H4'), (plain_ascii _ H6'),
      (plain_ascii _ Hpub), (plain_ascii _ Hhost). reflexivity. }
  rewrite Hascii. cbn [negb].
  rewrite split_unlines.
  2:{ unfold profile_lines. cbn [forallb]. rewrite !no_lf_app.
      rewrite (plain_no_lf _ Hpriv), (plain_no_lf _ H4'), (plain_no_lf _ H6'),
        (plain_no_lf _ Hpub), (plain_no_lf _ Hhost). reflexivity. }
  unfold profile_lines. cbn [app goini.parse_lines goini.Insensitive goini.iniOpt].
  rewrite parse_line_header by auto. cbn [rbind].
  rewrite parse_line_kv by (try discriminate; try reflexivity; assumption). cbn [rbind].
  rewrite parse_line_dns. cbn [rbind].
  rewrite parse_line_kv by (try discriminate; try reflexivity; assumption). cbn [rbind].
  rewrite parse_line_kv by (try discriminate; try reflexivity; assumption). cbn [rbind].
  rewrite parse_line_header by auto. cbn [rbind].
  rewrite parse_line_kv by (try discriminate; try reflexivity; assumption). cbn [rbind].
  rewrite parse_line_kv by (try discriminate; try reflexivity; assumption). cbn [rbind].
  rewrite parse_line_kv by (try discriminate; try reflexivity; assumption). cbn [rbind].
  rewrite parse_line_kv by (try discriminate; try reflexivity; assumption). cbn [rbind].
  rewrite parse_line_empty. cbn [rbind fst].
  rewrite !str_chars.
  unfold profile_file, interface_section, peer_section. f_equal. f_equal.
  unfold goini.NewKey. simpl. unfold goini.addShadow. simpl.
  rewrite suffix_differs. reflexivity.
Qed.

Lemma split_plain l : forallb plain_char l = true -> split_on ","%char l = [l].
Proof.
  induction l as [| c l IH]; intros H; [reflexivity | ].
  cbn [forallb] in H. apply andb_true_iff in H as [Hc Hl].
  apply plain_char_facts in Hc as (_ & _ & _ & _ & _ & Hcomma & _).
  cbn [split_on]. rewrite Hcomma, IH by exact Hl. reflexivity.
Qed.

Lemma nonempty_suffix a b : b <> "" -> String.eqb (a +:+ b) "" = false.
Proof.
  intros Hb. apply String.eqb_neq. intros E. apply Hb.
  apply (f_equal chars) in E. rewrite chars_app in E.
  apply app_eq_nil in E as [_ E]. rewrite <- (str_chars b), E. reflexivity.
Qed.

(** The values of a key and its one shadow, both plain and not empty. *)
Lemma StringsWithShadows_two n a b :
  plain a = true -> plain b = true ->
  String.eqb a "" = false -> String.eqb b "" = false ->
  goini.StringsWithShadows
    {| goini.name := n; goini.value := a; goini.shadows := [b] |} ","
  = [a; b].
Proof.
  unfold plain. intros Ha Hb Hae Hbe.
  unfold goini.StringsWithShadows, goini.ValueWithShadows.
  cbn [chars list_ascii_of_string goini.value goini.shadows].
  rewrite !filter_cons, filter_nil.
  destruct (decide (String.eqb a "" = false)); [ | congruence].
  destruct (decide (String.eqb b "" = false)); [ | congruence].
  cbn [flat_map app]. rewrite !split_plain by assumption. cbn [map app].
  rewrite !trim_plain by assumption. rewrite !str_chars. reflexivity.
Qed.

Lemma dns_resolvers :
  rmapM netip.ParseAddr
    (goini.StringsWithShadows
       {| goini.name := "dns"; goini.value := dns_value; goini.shadows := [] |} ",")
  = Ok resolvers.
Proof. vm_compute. reflexivity. Qed.

Lemma allowed_routes :
  rmapM netip.ParsePrefix
    (goini.StringsWithShadows
       {| goini.name := "allowedips"; goini.value := "0.0.0.0/0";
          goini.shadows := ["::/0"] |} ",")
  = Ok all_routes.
Proof. vm_compute. reflexivity. Qed.

Lemma sections_of_profile privateKey v4 v6 publicKey host :
  goini.SectionsByName (profile_file privateKey v4 v6 publicKey host) "Interface"
  = Ok [interface_section privateKey v4 v6]
  /\ goini.SectionsByName (profile_file privateKey v4 v6 publicKey host) "Peer"
     = Ok [peer_section publicKey host].
Proof. split; reflexivity. Qed.

Section Parse.
Variable ParseInt : string -> result Z.
Let L : ini.Lib := goini.lib ParseInt.

Lemma ParseInterface_profile privateKey v4 v6 publicKey host key p4 p6 :
  plain v4 = true -> plain v6 = true ->
  wiresocks.encodeBase64ToHex privateKey = Ok key ->
  netip.ParsePrefix (v4 +:+ "/24") = Ok p4 ->
  netip.ParsePrefix (v6 +:+ "/128") = Ok p6 ->
  wiresocks.ParseInterface (L := L) (profile_file privateKey v4 v6 publicKey host)
  = Ok {| wiresocks.PrivateKey := key;
          wiresocks.Addresses := [netip.Prefix_Addr p4; netip.Prefix_Addr p6];
          wiresocks.DNS := resolvers;
          wiresocks.MTU := 0 |}.
Proof.
  intros H4 H6 Hkey Hp4 Hp6.
  unfold wiresocks.ParseInterface.
  cbv [L goini.lib ini.SectionsByName ini.SectionKey ini.GetKey ini.KeyString
       ini.StringsWithShadows ini.KeyInt].
  destruct (sections_of_profile privateKey v4 v6 publicKey host) as [-> _].
  cbn [rbind map].
  change (goini.SectionKey (_, interface_section privateKey v4 v6) "Address")
    with ({| goini.name := "address"; goini.value := v4 +:+ "/24";
             goini.shadows := [v6 +:+ "/128"] |}).
  change (goini.SectionKey (_, interface_section privateKey v4 v6) "PrivateKey")
    with ({| goini.name := "privatekey"; goini.value := privateKey;
             goini.shadows := [] |}).
  change (goini.SectionKey (_, interface_section privateKey v4 v6) "DNS")
    with ({| goini.name := "dns"; goini.value := dns_value; goini.shadows := [] |}).
  change (goini.GetKey (_, interface_section privateKey v4 v6) "MTU")
    with (Err (A := goini.Key)
            "error when getting key of section interface: key mtu not exists").
  rewrite StringsWithShadows_two;
    [ | apply plain_app; [assumption | reflexivity]
      | apply plain_app; [assumption | reflexivity]
      | apply nonempty_suffix; discriminate
      | apply nonempty_suffix; discriminate ].
  cbn [rmapM rbind]. rewrite Hp4, Hp6. cbn [rbind goini.value].
  rewrite Hkey. cbn [rbind]. rewrite dns_resolvers. reflexivity.
Qed.

Lemma ParsePeers_profile privateKey v4 v6 publicKey host key :
  wiresocks.encodeBase64ToHex publicKey = Ok key ->
  wiresocks.ParsePeers (L := L) (profile_file privateKey v4 v6 publicKey host)
  = Ok [{| wiresocks.PublicKey := key;
           wiresocks.PreSharedKey := wiresocks.zero_psk;
           wiresocks.Endpoint := host;
           wiresocks.KeepAlive := 0;
           wiresocks.AllowedIPs := all_routes;
           wiresocks.Trick := false |}].
Proof.
  intros Hkey.
  unfold wiresocks.ParsePeers, wiresocks.parsePeer.
  cbv [L goini.lib ini.SectionsByName ini.SectionKey ini.GetKey ini.KeyString
       ini.StringsWithShadows ini.KeyInt].
  destruct (sections_of_profile privateKey v4 v6 publicKey host) as [_ ->].
  cbn [rbind map rmapM].
  change (goini.GetKey (_, peer_section publicKey host) "PublicKey")
    with (Ok {| goini.name := "publickey"; goini.value := publicKey;
                goini.shadows := [] |}).
  change (goini.GetKey (_, peer_section publicKey host) "PreSharedKey")
    with (Err (A := goini.Key)
            "error when getting key of section peer: key presharedkey not exists").
  change (goini.GetKey (_, peer_section publicKey host) "PersistentKeepalive")
    with (Err (A := goini.Key)
            "error when getting key of section peer: key persistentkeepalive not exists").
  change (goini.GetKey (_, peer_section publicKey host) "AllowedIPs")
    with (Ok {| goini.name := "allowedips"; goini.value := "0.0.0.0/0";
                goini.shadows := ["::/0"] |}).
  change (goini.GetKey (_, peer_section publicKey host) "Endpoint")
    with (Ok {| goini.name := "endpoint"; goini.value := host;
                goini.shadows := [] |}).
  cbn [goini.value rbind]. rewrite Hkey. cbn [rbind].
  rewrite allowed_routes. reflexivity.
Qed.

(** C8, as the code has it: for an identity with plain fields, keys
    that are base64 of 32 bytes and addresses that parse, the profile
    that createConf writes is parsed by ParseConfig into the
    configuration with the keys in hex, the two addresses without
    their masks, the twelve resolvers, MTU 0, and one peer with the
    zero pre-shared key, no keep-alive, both default routes, no trick
    and the endpoint given to ParseConfig. *)
Theorem parse_after_createConf i path endpoint fs peer0 rest key pub p4 p6 :
  warp.Peers (warp.Config i) = peer0 :: rest ->
  plain (warp.PrivateKey i) = true ->
  plain (warp.V4 (warp.InterfaceAddresses (warp.Config i))) = true ->
  plain (warp.V6 (warp.InterfaceAddresses (warp.Config i))) = true ->
  plain (warp.PublicKey peer0) = true ->
  plain (warp.Host (warp.Endpoint peer0)) = true ->
  wiresocks.encodeBase64ToHex (warp.PrivateKey i) = Ok key ->
  wiresocks.encodeBase64ToHex (warp.PublicKey peer0) = Ok pub ->
  netip.ParsePrefix (warp.V4 (warp.InterfaceAddresses (warp.Config i)) +:+ "/24") = Ok p4 ->
  netip.ParsePrefix (warp.V6 (warp.InterfaceAddresses (warp.Config i)) +:+ "/128") = Ok p6 ->
  os.denied fs (os.Join path warp.profileFile) = false ->
  exists fs',
    warp.createConf i path fs = (Ok tt, fs')
    /\ wiresocks.ParseConfig (L := L) (os.Join path warp.profileFile) endpoint fs'
       = (Ok (parsed_profile key pub p4 p6 endpoint), fs').
Proof.
  intros Hpeers Hpriv H4 H6 Hpub Hhost Hkey Hpubkey Hp4 Hp6 Hden.
  unfold warp.createConf. rewrite Hpeers.
  unfold os.WriteFile, os.open_trunc_write. rewrite Hden.
  eexists. split; [reflexivity | ].
  unfold wiresocks.ParseConfig, bind, os.ReadFile, lift.
  cbn [os.denied os.with_files os.files]. rewrite Hden.
  rewrite lookup_insert_eq. cbn [os.data].
  change (@ini.Load L) with (goini.LoadSources goini.iniOpt).
  rewrite Load_profile by assumption. cbn [rbind].
  rewrite (ParseInterface_profile _ _ _ _ _ key p4 p6) by assumption. cbn [rbind].
  rewrite (ParsePeers_profile _ _ _ _ _ pub) by assumption. cbn [rbind].
  reflexivity.
Qed.
End Parse.

Lemma parse_after_createConf_witness :
  exists fs',
    warp.createConf sample.identity "./stuff/primary" sample.disk = (Ok tt, fs')
    /\ wiresocks.ParseConfig (L := sample.L) "./stuff/primary/wgcf-profile.ini"
         "162.159.192.1:2408" fs'
       = (Ok (parsed_profile
                "c865de5fb80cc9421998ae502200bbf975f9512512b2442f058890e8b7648972"
                "6e65ce0be17517110c17d77288ad87e7fd5252dcc7d09b95a39d61db03df832a"
                (netip.PrefixFrom (netip.IPv4 [172; 16; 0; 2]%N) 24)
                (netip.PrefixFrom
                   (netip.IPv6 [38; 6; 71; 0; 1; 16; 143; 91; 124; 70; 133; 46;
                                244; 92; 109; 53]%N "") 128)
                "162.159.192.1:2408"), fs').
Proof.
  apply (parse_after_createConf sample.ParseInt sample.identity "./stuff/primary"
           "162.159.192.1:2408" sample.disk
           {| warp.PublicKey := sample.publicKey;
              warp.Endpoint := {| warp.Host := "engage.cloudflareclient.com:2408" |} |}
           []);
    vm_compute; reflexivity.
Defined.

(** C8 as stated fails: the key that comes back is in hex, not the
    base64 text that was written, even when ParseConfig is given the
    endpoint that the identity holds. *)
Lemma parse_after_createConf_is_not_identity :
  ~ round_trip sample.ParseInt sample.identity "./stuff/primary"
      "engage.cloudflareclient.com:2408" sample.disk.
Proof.
  intros (fs' & c & Hw & Hp & Hkey & _).
  vm_compute in Hw. inversion Hw; subst. clear Hw.
  vm_compute in Hp. inversion Hp; subst. clear Hp.
  vm_compute in Hkey. discriminate.
Qed.
End Profile.

(** ** The ClientHello extensions of tls.go *)

Section Extensions.
Import gostrings warptls.

Lemma copy_at_Ok off src b :
  (off + List.length src <= List.length b)%nat ->
  copy_at off src b = Ok (take off b ++ src ++ drop (off + List.length src) b).
Proof.
  intros H. unfold copy_at.
  destruct (Nat.ltb_spec (List.length b) off); [lia | ].
  rewrite Nat.min_r by lia. rewrite firstn_all. reflexivity.
Qed.

Lemma bytes_length s : List.length (bytes s) = String.length s.
Proof.
  unfold bytes, chars. rewrite length_map.
  induction s as [| c s IH]; simpl; [reflexivity | rewrite IH; reflexivity].
Qed.

Lemma name_length_0 s : Nat.eqb (String.length s) 0 = false <-> s <> "".
Proof.
  destruct s; simpl; split; intros H; try congruence; try reflexivity.
Qed.

(* SNIExtension.Read on a non-empty name and a buffer that holds it:
   the header with its three lengths, the name, and the rest of the
   buffer as it was; byte 6, the name type, is left as it was too. *)
Lemma SNI_Read_eq e b :
  SNIExtension.ServerName e <> "" ->
  (9 + String.length (SNIExtension.ServerName e) <= List.length b)%nat ->
  let n := Z.of_nat (String.length (SNIExtension.ServerName e)) in
  SNIExtension.Read e b
  = Ok ((9 + n)%Z, EOF,
        [0%N; 0%N; byte (Z.shiftr (n + 5) 8); byte (n + 5);
         byte (Z.shiftr (n + 3) 8); byte (n + 3)]
        ++ take 1 (drop 6 b)
        ++ [byte (Z.shiftr n 8); byte n]
        ++ bytes (SNIExtension.ServerName e)
        ++ drop (9 + String.length (SNIExtension.ServerName e)) b).
Proof.
  intros Hne Hlen n. unfold SNIExtension.Read, SNIExtension.Len, hostnameInSNI.
  apply name_length_0 in Hne. rewrite Hne.
  destruct (Z.ltb_spec (Z.of_nat (List.length b))
              (4 + 2 + 1 + 2 + Z.of_nat (String.length (SNIExtension.ServerName e))));
    [lia | ].
  do 9 (destruct b as [| ? b]; [simpl in Hlen; lia | ]).
  repeat progress cbn [store List.length Nat.ltb Nat.leb rbind insert list_insert].
  rewrite copy_at_Ok by (rewrite bytes_length; simpl in *; lia).
  rewrite bytes_length. fold n. reflexivity.
Qed.

Lemma be16_byte x :
  (0 <= x < 65536)%Z -> be16 (byte (Z.shiftr x 8)) (byte x) = x.
Proof.
  intros H. unfold be16, byte. rewrite Z.shiftr_div_pow2 by lia.
  change (2 ^ 8)%Z with 256%Z.
  rewrite !Z2N.id by (apply Z.mod_pos_bound; lia).
  rewrite (Z.mod_small (x / 256)) by (split; [apply Z.div_pos; lia | apply Z.div_lt_upper_bound; lia]).
  pose proof (Z.div_mod x 256). lia.
Qed.

(** The three lengths that SNIExtension.Read writes are consistent for
    a name of fewer than 65531 bytes: read as 16-bit numbers they are the
    length of the name plus 5, plus 3 and plus 0, and the name follows
    them unchanged. Byte 6, the name type, is not written: it is what the
    buffer held, as are the bytes past the extension. *)
Theorem SNI_Read_lengths e b :
  SNIExtension.ServerName e <> "" ->
  (Z.of_nat (String.length (SNIExtension.ServerName e)) < 65531)%Z ->
  (9 + String.length (SNIExtension.ServerName e) <= List.length b)%nat ->
  let n := Z.of_nat (String.length (SNIExtension.ServerName e)) in
  exists out,
    SNIExtension.Read e b = Ok (SNIExtension.Len e, EOF, out)
    /\ List.length out = List.length b
    /\ be16 (nth 0 out 0%N) (nth 1 out 0%N) = extensionServerName
    /\ be16 (nth 2 out 0%N) (nth 3 out 0%N) = (n + 5)%Z
    /\ be16 (nth 4 out 0%N) (nth 5 out 0%N) = (n + 3)%Z
    /\ be16 (nth 7 out 0%N) (nth 8 out 0%N) = n
    /\ take (String.length (SNIExtension.ServerName e)) (drop 9 out)
       = bytes (SNIExtension.ServerName e)
    /\ nth 6 out 0%N = nth 6 b 0%N
    /\ drop (9 + String.length (SNIExtension.ServerName e)) out
       = drop (9 + String.length (SNIExtension.ServerName e)) b.
Proof.
  intros Hne Hshort Hlen n. eexists. split.
  { rewrite SNI_Read_eq by assumption. unfold SNIExtension.Len, hostnameInSNI.
    apply name_length_0 in Hne. rewrite Hne. reflexivity. }
  fold n.
  assert (H6 : take 1 (drop 6 b) = [nth 6 b 0%N]).
  { do 7 (destruct b as [| ? b]; [simpl in Hlen; lia | ]). reflexivity. }
  rewrite H6. clear H6.
  split.
  { cbn [app List.length]. rewrite length_app, bytes_length, length_drop. lia. }
  assert (Hn : (0 <= n < 65531)%Z) by (subst n; lia).
  cbn [app]. cbn [nth]. rewrite !be16_byte by lia.
  do 4 (split; [reflexivity | ]).
  change (drop 9 (?a0 :: ?a1 :: ?a2 :: ?a3 :: ?a4 :: ?a5 :: ?a6 :: ?a7 :: ?a8 :: ?r)) with r.
  split; [apply take_app_length'; symmetry; apply bytes_length | ].
  split; [reflexivity | ].
  change (drop (9 + ?k) (?a0 :: ?a1 :: ?a2 :: ?a3 :: ?a4 :: ?a5 :: ?a6 :: ?a7 :: ?a8 :: ?r))
    with (drop k r).
  rewrite <- (bytes_length (SNIExtension.ServerName e)) at 1.
  apply drop_app_length.
Qed.

(** SNIExtension.Read never panics and never changes the length of the
    buffer; it writes exactly when the name is not empty and the buffer
    holds [Len] bytes, and otherwise gives 0 and leaves the buffer as it
    was: with [io.EOF] for an empty name, [io.ErrShortBuffer] for a short
    buffer. *)
Theorem SNI_Read_refusals e b :
  exists c err out,
    SNIExtension.Read e b = Ok (c, err, out)
    /\ List.length out = List.length b
    /\ ((SNIExtension.ServerName e = "" /\ c = 0%Z /\ err = EOF /\ out = b)
        \/ (SNIExtension.ServerName e <> ""
            /\ (Z.of_nat (List.length b) < SNIExtension.Len e)%Z
            /\ c = 0%Z /\ err = ErrShortBuffer /\ out = b)
        \/ (SNIExtension.ServerName e <> ""
            /\ (SNIExtension.Len e <= Z.of_nat (List.length b))%Z
            /\ c = SNIExtension.Len e /\ err = EOF)).
Proof.
  destruct (string_dec (SNIExtension.ServerName e) "") as [He | He].
  - exists 0%Z, EOF, b. unfold SNIExtension.Read, hostnameInSNI. rewrite He. simpl.
    split; [reflexivity | split; [reflexivity | left; auto]].
  - destruct (Z.ltb_spec (Z.of_nat (List.length b)) (SNIExtension.Len e)) as [Hs | Hs].
    + exists 0%Z, ErrShortBuffer, b. unfold SNIExtension.Read, hostnameInSNI.
      pose proof He as He'. apply name_length_0 in He'. rewrite He'.
      destruct (Z.ltb_spec (Z.of_nat (List.length b)) (SNIExtension.Len e)); [ | lia].
      split; [reflexivity | split; [reflexivity | right; left; auto]].
    + assert (Hlen : (9 + String.length (SNIExtension.ServerName e) <= List.length b)%nat).
      { unfold SNIExtension.Len, hostnameInSNI in Hs.
        pose proof He as He'. apply name_length_0 in He'. rewrite He' in Hs. lia. }
      assert (HL : SNIExtension.Len e
                   = (9 + Z.of_nat (String.length (SNIExtension.ServerName e)))%Z).
      { unfold SNIExtension.Len, hostnameInSNI.
        pose proof He as He'. apply name_length_0 in He'. rewrite He'. reflexivity. }
      eexists _, _, _. split; [apply SNI_Read_eq; assumption | ].
      split.
      * assert (H1 : List.length (take 1 (drop 6 b)) = 1%nat).
        { rewrite length_take, length_drop. lia. }
        rewrite !length_app, H1, bytes_length, length_drop.
        cbn [List.length]. lia.
      * right; right. rewrite HL. repeat split; [exact He | lia].
Qed.

Lemma replicate_take_0 (k m : nat) :
  take k (replicate m 0%N) = replicate (Nat.min k m) 0%N.
Proof. rewrite take_replicate. reflexivity. Qed.

(* SNICurveExtension.Read with padding on, a length that is not
   negative and a buffer that holds it: type 0x0015, the length in two
   bytes, then zeros over the next 1200 bytes of the buffer or up to its
   end, whatever the length is, and the rest of the buffer as it was. *)
Lemma SNICurve_Read_eq len b :
  (0 <= len)%Z ->
  (4 + len <= Z.of_nat (List.length b))%Z ->
  let e := {| SNICurveExtension.SNICurveLen := len;
              SNICurveExtension.WillPad := true |} in
  let k := Nat.min (List.length b - 4) 1200 in
  SNICurveExtension.Read e b
  = Ok ((4 + len)%Z, EOF,
        [0%N; 21%N; byte (Z.shiftr len 8); byte len]
        ++ replicate k 0%N ++ drop (4 + k) b).
Proof.
  intros H0 Hlen e k. unfold SNICurveExtension.Read, SNICurveExtension.Len.
  cbn [SNICurveExtension.WillPad SNICurveExtension.SNICurveLen e negb].
  destruct (Z.ltb_spec (Z.of_nat (List.length b)) (4 + len)); [lia | ].
  do 4 (destruct b as [| ? b]; [simpl in Hlen; lia | ]).
  repeat progress cbn [store List.length Nat.ltb Nat.leb rbind insert list_insert].
  unfold copy_at. cbn [List.length Nat.ltb Nat.leb].
  rewrite length_replicate. subst k. cbn [List.length].
  replace (S (S (S (S (List.length b)))) - 4)%nat with (List.length b) by lia.
  rewrite take_replicate.
  replace (Nat.min (Nat.min (List.length b) 1200) 1200)
    with (Nat.min (List.length b) 1200) by lia.
  reflexivity.
Qed.

(** For a length between 0 and 1200, that of the ClientHello included,
    the [Len] bytes that SNICurveExtension.Read gives are a padding
    extension of that length, all zero. *)
Theorem SNICurve_Read_zero_padding len b :
  (0 <= len <= 1200)%Z ->
  (4 + len <= Z.of_nat (List.length b))%Z ->
  let e := {| SNICurveExtension.SNICurveLen := len;
              SNICurveExtension.WillPad := true |} in
  exists out,
    SNICurveExtension.Read e b = Ok (SNICurveExtension.Len e, EOF, out)
    /\ List.length out = List.length b
    /\ take (Z.to_nat (SNICurveExtension.Len e)) out
       = [0%N; 21%N] ++ [byte (Z.shiftr len 8); byte len]
         ++ replicate (Z.to_nat len) 0%N
    /\ be16 (nth 2 out 0%N) (nth 3 out 0%N) = len.
Proof.
  intros H0 Hlen e. eexists. split; [apply SNICurve_Read_eq; lia | ].
  set (k := Nat.min (List.length b - 4) 1200).
  assert (Hk : (Z.to_nat len <= k)%nat) by (subst k; lia).
  split.
  { cbn [app List.length]. rewrite length_app, length_replicate, length_drop. lia. }
  split.
  - unfold SNICurveExtension.Len. cbn [SNICurveExtension.WillPad SNICurveExtension.SNICurveLen e].
    replace (Z.to_nat (4 + len)) with (4 + Z.to_nat len)%nat by lia.
    cbn [app take Nat.add]. do 4 f_equal.
    rewrite take_app_le by (rewrite length_replicate; lia).
    rewrite take_replicate. f_equal. lia.
  - cbn [app nth]. apply be16_byte. lia.
Qed.

(** SNICurveExtension.Read pads with 1200 zero bytes whatever
    [SNICurveLen] is: of the bytes after the four of the header, those
    before offset 1204 are set to zero, also past the length that Read
    gives, and those from 1204 on are left as the buffer held them, also
    within that length. *)
Theorem SNICurve_Read_fixed_padding len b :
  (0 <= len)%Z ->
  (4 + len <= Z.of_nat (List.length b))%Z ->
  let e := {| SNICurveExtension.SNICurveLen := len;
              SNICurveExtension.WillPad := true |} in
  exists out,
    SNICurveExtension.Read e b = Ok ((4 + len)%Z, EOF, out)
    /\ List.length out = List.length b
    /\ forall i, (4 <= i < List.length b)%nat ->
         out !! i = if Nat.ltb i 1204 then Some 0%N else b !! i.
Proof.
  intros H0 Hlen e. eexists. split; [apply SNICurve_Read_eq; lia | ].
  set (k := Nat.min (List.length b - 4) 1200).
  split.
  { cbn [app List.length]. rewrite length_app, length_replicate, length_drop. lia. }
  intros i Hi.
  replace i with (4 + (i - 4))%nat at 1 by lia.
  change ([0%N; 21%N; byte (Z.shiftr len 8); byte len] ++ ?r)
    with ([0%N; 21%N; byte (Z.shiftr len 8); byte len] ++ r).
  rewrite (lookup_app_r [0%N; 21%N; byte (Z.shiftr len 8); byte len])
    by (cbn [List.length]; lia).
  cbn [List.length]. replace (4 + (i - 4) - 4)%nat with (i - 4)%nat by lia.
  destruct (Nat.ltb_spec i 1204) as [Hlt | Hge].
  - rewrite lookup_app_l by (rewrite length_replicate; lia).
    apply lookup_replicate_2. lia.
  - rewrite lookup_app_r by (rewrite length_replicate; lia).
    rewrite length_replicate, lookup_drop. f_equal. lia.
Qed.
End Extensions.

Lemma SNI_Read_lengths_witness :
  exists out,
    warptls.SNIExtension.Read {| warptls.SNIExtension.ServerName := "ab" |}
      (replicate 12 7%N)
    = Ok (11%Z, warptls.EOF, out)
    /\ List.length out = 12%nat
    /\ warptls.be16 (nth 0 out 0%N) (nth 1 out 0%N) = 0%Z
    /\ warptls.be16 (nth 2 out 0%N) (nth 3 out 0%N) = 7%Z
    /\ warptls.be16 (nth 4 out 0%N) (nth 5 out 0%N) = 5%Z
    /\ warptls.be16 (nth 7 out 0%N) (nth 8 out 0%N) = 2%Z
    /\ take 2 (drop 9 out) = [97; 98]%N
    /\ nth 6 out 0%N = 7%N
    /\ drop 11 out = [7%N].
Proof.
  apply (SNI_Read_lengths {| warptls.SNIExtension.ServerName := "ab" |} (replicate 12 7%N)).
  - discriminate.
  - simpl. lia.
  - simpl. lia.
Defined.

Lemma SNICurve_Read_zero_padding_witness :
  exists out,
    warptls.SNICurveExtension.Read warptls.hello_padding (replicate 1204 9%N)
    = Ok (1204%Z, warptls.EOF, out)
    /\ List.length out = 1204%nat
    /\ take 1204 out = [0; 21; 4; 176]%N ++ replicate 1200 0%N
    /\ warptls.be16 (nth 2 out 0%N) (nth 3 out 0%N) = 1200%Z.
Proof.
  apply (SNICurve_Read_zero_padding 1200 (replicate 1204 9%N)).
  - lia.
  - rewrite length_replicate. lia.
Defined.

Lemma SNICurve_Read_fixed_padding_witness :
  exists out,
    warptls.SNICurveExtension.Read
      {| warptls.SNICurveExtension.SNICurveLen := 2;
         warptls.SNICurveExtension.WillPad := true |} (replicate 8 9%N)
    = Ok (6%Z, warptls.EOF, out)
    /\ List.length out = 8%nat
    /\ forall i, (4 <= i < 8)%nat ->
         out !! i = if Nat.ltb i 1204 then Some 0%N else replicate 8 9%N !! i.
Proof.
  apply (SNICurve_Read_fixed_padding 2 (replicate 8 9%N)); simpl; lia.
Defined.

(** ** The registration API: the shared header map *)

Section Api.
Import warpapi.
Variable env : Env.

Lemma insert_token_twice t t' :
  <["Authorization" := "Bearer " +:+ t']>
    (<["Authorization" := "Bearer " +:+ t]> makeDefaultHeaders)
  = <["Authorization" := "Bearer " +:+ t']> makeDefaultHeaders.
Proof. apply insert_insert_eq. Qed.

(** The headers that a request gets from the map, in its two states. *)
Lemma set_headers_clean method url body :
  set_headers makeDefaultHeaders
    {| Method := method; URL := url; Header := ∅; Body := body |}
  = {| Method := method; URL := url; Header := default_request_headers;
       Body := body |}.
Proof. vm_compute. reflexivity. Qed.

Lemma set_headers_token t method url body :
  set_headers (<["Authorization" := "Bearer " +:+ t]> makeDefaultHeaders)
    {| Method := method; URL := url; Header := ∅; Body := body |}
  = {| Method := method; URL := url;
       Header := <["Authorization" := "Bearer " +:+ t]> default_request_headers;
       Body := body |}.
Proof. vm_compute. reflexivity. Qed.

Lemma authorize_known t w :
  known w ->
  authorize t w
  = (Ok (<["Authorization" := "Bearer " +:+ t]> makeDefaultHeaders),
     {| defaultHeaders := <["Authorization" := "Bearer " +:+ t]> makeDefaultHeaders;
        sent := sent w |}).
Proof.
  intros [H | [t0 H]]; unfold authorize; rewrite H; [reflexivity | ].
  rewrite insert_token_twice. reflexivity.
Qed.


Lemma new_requests_app w reqs :
  new_requests w {| defaultHeaders := defaultHeaders w; sent := sent w ++ reqs |} = reqs.
Proof. unfold new_requests. cbn [sent]. apply drop_app_length. Qed.

(** What a call of updateLicenseKey does to the world. *)
Lemma updateLicenseKey_trace accountID token license w r w' :
  known w ->
  updateLicenseKey env accountID token license w = (r, w') ->
  (w' = w /\ is_ok r = false)
  \/ (holds_token token w'
      /\ exists reqs,
           sent w' = sent w ++ reqs
           /\ Forall (fun q => URL q = account_url accountID /\ bearer token q) reqs
           /\ (map Method reqs = ["PATCH"] /\ is_ok r = false
               \/ map Method reqs = ["PATCH"; "GET"])).
Proof.
  intros Hk. unfold updateLicenseKey, NewRequest, activation_error.
  unfold bind at 1. unfold lift at 1.
  destruct (json_Marshal env _) as [jsonData | e | e];
    [ | intros H; inversion H; subst; left; auto ..].
  unfold bind at 1. unfold bind at 1. unfold lift at 1.
  destruct (request_ok env "PATCH" _) as [[] | e | e];
    [ | intros H; inversion H; subst; left; auto ..].
  unfold ret at 1. unfold bind at 1. rewrite (authorize_known token w Hk).
  rewrite (set_headers_token token).
  set (h := <["Authorization" := "Bearer " +:+ token]> makeDefaultHeaders).
  set (patch := {| Method := "PATCH"; URL := _; Header := _; Body := Some jsonData |}).
  assert (Hpatch : URL patch = account_url accountID /\ bearer token patch).
  { split; [reflexivity | ]. unfold bearer, patch. cbn [Header].
    apply lookup_insert_eq. }
  unfold bind at 1. unfold Do at 1. cbn [sent defaultHeaders].
  destruct (client_Do env (sent w) patch) as [resp | e | e];
    [ | intros H; inversion H; subst; right; split; [reflexivity | ];
        exists [patch]; split; [reflexivity | split; [constructor; auto | left; auto]] ..].
  destruct (negb (StatusCode resp =? 200)%Z).
  { unfold bind, lift. destruct (RespBody resp);
      intros H; inversion H; subst; right; (split; [reflexivity | ]);
      exists [patch]; (split; [reflexivity | split; [constructor; auto | left; auto]]). }
  unfold bind at 1. unfold bind at 1. unfold lift at 1.
  destruct (request_ok env "GET" _) as [[] | e | e];
    [ | intros H; inversion H; subst; right; (split; [reflexivity | ]);
        exists [patch]; (split; [reflexivity | split; [constructor; auto | left; auto]]) ..].
  unfold ret at 1. rewrite (set_headers_token token).
  set (get := {| Method := "GET"; URL := _; Header := _; Body := None |}).
  assert (Hget : URL get = account_url accountID /\ bearer token get).
  { split; [reflexivity | ]. unfold bearer, get. cbn [Header].
    apply lookup_insert_eq. }
  unfold bind at 1. unfold Do at 1. cbn [sent defaultHeaders].
  assert (Hboth : forall r0,
    (r0, {| defaultHeaders := h; sent := (sent w ++ [patch]) ++ [get] |}) = (r, w') ->
    (w' = w /\ is_ok r = false)
    \/ (holds_token token w'
        /\ exists reqs,
             sent w' = sent w ++ reqs
             /\ Forall (fun q => URL q = account_url accountID /\ bearer token q) reqs
             /\ (map Method reqs = ["PATCH"] /\ is_ok r = false
                 \/ map Method reqs = ["PATCH"; "GET"]))).
  { intros r0 H; inversion H; subst. right. split; [reflexivity | ].
    exists [patch; get]. cbn [sent]. rewrite <- app_assoc.
    split; [reflexivity | split; [repeat constructor; tauto | right; reflexivity]]. }
  destruct (client_Do env (sent w ++ [patch]) get) as [resp1 | e | e];
    [ | apply Hboth ..].
  destruct (negb (StatusCode resp1 =? 200)%Z).
  { unfold bind, lift. destruct (RespBody resp1); apply Hboth. }
  unfold lift. apply Hboth.
Qed.


(** doRegister, once its body is marshalled and its request built,
    whatever the map holds. *)
Lemma doRegister_run publicKey w body :
  json_Marshal env (register_data (now_RFC3339Nano env (sent w)) publicKey) = Ok body ->
  request_ok env "POST" regURL = Ok tt ->
  let req := set_headers (defaultHeaders w)
               {| Method := "POST"; URL := regURL; Header := ∅; Body := Some body |} in
  doRegister env publicKey w
  = (let? resp := client_Do env (sent w) req in
     let? responseData := RespBody resp in
     json_Unmarshal env responseData,
     {| defaultHeaders := defaultHeaders w; sent := sent w ++ [req] |}).
Proof.
  intros Hm Hr req. unfold doRegister, NewRequest.
  unfold bind at 1. unfold gets at 1.
  unfold bind at 1. unfold lift at 1. rewrite Hm.
  unfold bind at 1. unfold bind at 1. unfold lift at 1. rewrite Hr.
  unfold ret at 1. unfold bind at 1. unfold gets at 1.
  unfold bind at 1. unfold Do at 1. fold req.
  destruct (client_Do env (sent w) req) as [resp | e | e]; try reflexivity.
  cbn [rbind]. unfold bind, lift.
  destruct (RespBody resp); reflexivity.
Qed.

(** In a process that has not yet used a token, doRegister sends one
    POST to the registration URL with the three default headers and no
    other, and gives what the body of the answer decodes to, whatever
    the status of the answer is. *)
Theorem doRegister_fresh_request publicKey w body resp :
  clean w ->
  json_Marshal env (register_data (now_RFC3339Nano env (sent w)) publicKey) = Ok body ->
  request_ok env "POST" regURL = Ok tt ->
  let req := {| Method := "POST"; URL := regURL;
                Header := default_request_headers; Body := Some body |} in
  client_Do env (sent w) req = Ok resp ->
  doRegister env publicKey w
  = (let? responseData := RespBody resp in json_Unmarshal env responseData,
     {| defaultHeaders := makeDefaultHeaders; sent := sent w ++ [req] |})
  /\ Header req !! "Authorization" = None.
Proof.
  intros Hc Hm Hr req Hdo. split; [ | reflexivity].
  rewrite (doRegister_run publicKey w body Hm Hr). rewrite Hc.
  rewrite set_headers_clean. fold req. rewrite Hdo. reflexivity.
Qed.

(** The token given to updateLicenseKey stays in the shared header map:
    once that call has sent a request, the next registration carries
    [Authorization: Bearer] with that token. *)
Theorem license_token_reaches_next_registration
    accountID token license publicKey w r w1 body :
  known w ->
  updateLicenseKey env accountID token license w = (r, w1) ->
  sent w1 <> sent w ->
  json_Marshal env (register_data (now_RFC3339Nano env (sent w1)) publicKey) = Ok body ->
  request_ok env "POST" regURL = Ok tt ->
  exists req r2,
    doRegister env publicKey w1
    = (r2, {| defaultHeaders := defaultHeaders w1; sent := sent w1 ++ [req] |})
    /\ Method req = "POST" /\ URL req = regURL
    /\ Header req !! "Authorization" = Some ("Bearer " +:+ token).
Proof.
  intros Hk Hu Hs Hm Hr.
  destruct (updateLicenseKey_trace _ _ _ _ _ _ Hk Hu) as [[-> _] | [Ht _]];
    [congruence | ].
  rewrite (doRegister_run publicKey w1 body Hm Hr). rewrite Ht.
  rewrite (set_headers_token token). eexists _, _. split; [reflexivity | ].
  split; [reflexivity | split; [reflexivity | ]].
  cbn [Header]. apply lookup_insert_eq.
Qed.

(** updateLicenseKey sends at most two requests, a PATCH and then a GET
    to the account URL, both with the bearer token; the GET follows only
    a PATCH answered with status 200, and the call succeeds only when
    both were sent and both answered 200. *)
Theorem updateLicenseKey_requests accountID token license w r w1 :
  known w ->
  updateLicenseKey env accountID token license w = (r, w1) ->
  exists reqs,
    sent w1 = sent w ++ reqs
    /\ Forall (fun q => URL q = account_url accountID /\ bearer token q) reqs
    /\ (map Method reqs = [] \/ map Method reqs = ["PATCH"]
        \/ map Method reqs = ["PATCH"; "GET"])
    /\ (is_ok r = true -> map Method reqs = ["PATCH"; "GET"]).
Proof.
  intros Hk Hu.
  destruct (updateLicenseKey_trace _ _ _ _ _ _ Hk Hu)
    as [[-> Hr] | [_ (reqs & Hs & Hf & Hm)]].
  - exists []. rewrite app_nil_r. repeat split; auto. rewrite Hr. discriminate.
  - exists reqs. repeat split; auto.
    + destruct Hm as [[Hm _] | Hm]; auto.
    + destruct Hm as [[_ Hr] | Hm]; [rewrite Hr; discriminate | auto].
Qed.


(** RemoveDevice sends one DELETE to the device URL with the bearer
    token and succeeds exactly on status 204; it too leaves its token in
    the shared header map. *)
Theorem RemoveDevice_request accountID token w r w1 :
  known w ->
  request_ok env "DELETE" (regURL +:+ "/" +:+ accountID) = Ok tt ->
  RemoveDevice env accountID token w = (r, w1) ->
  exists req,
    sent w1 = sent w ++ [req]
    /\ Method req = "DELETE" /\ URL req = regURL +:+ "/" +:+ accountID
    /\ Body req = None /\ bearer token req
    /\ holds_token token w1
    /\ (r = Ok tt <->
        exists resp, client_Do env (sent w) req = Ok resp /\ StatusCode resp = 204%Z).
Proof.
  intros Hk Hr. unfold RemoveDevice, NewRequest.
  unfold bind at 1. unfold bind at 1. unfold lift at 1. rewrite Hr.
  unfold ret at 1. unfold bind at 1. rewrite (authorize_known token w Hk).
  rewrite (set_headers_token token).
  set (req := {| Method := "DELETE"; URL := _; Header := _; Body := None |}).
  unfold bind at 1. unfold Do at 1. cbn [sent defaultHeaders].
  assert (Hb : bearer token req).
  { unfold bearer, req. cbn [Header]. apply lookup_insert_eq. }
  destruct (client_Do env (sent w) req) as [resp | e | e] eqn:Hdo.
  - destruct (Z.eqb_spec (StatusCode resp) 204) as [Hs | Hs]; cbn [negb].
    + unfold ret. intros H. inversion H; subst. exists req.
      repeat split; auto. intros _. exists resp. auto.
    + unfold lift. intros H. inversion H; subst. exists req.
      repeat split; auto; [discriminate | ].
      intros (resp' & Hr' & Hs'). congruence.
  - intros H. inversion H; subst. exists req.
    repeat split; auto; [discriminate | ].
    intros (resp' & Hr' & Hs'). congruence.
  - intros H. inversion H; subst. exists req.
    repeat split; auto; [discriminate | ].
    intros (resp' & Hr' & Hs'). congruence.
Qed.

End Api.

Lemma doRegister_fresh_request_witness :
  warpapi.doRegister more_samples.api_env "pub" warpapi.fresh
  = (Ok sample.identity,
     {| warpapi.defaultHeaders := warpapi.makeDefaultHeaders;
        warpapi.sent :=
          [{| warpapi.Method := "POST"; warpapi.URL := warpapi.regURL;
              warpapi.Header := warpapi.default_request_headers;
              warpapi.Body := Some "{}" |}] |})
  /\ warpapi.default_request_headers !! "Authorization" = None.
Proof.
  apply (doRegister_fresh_request more_samples.api_env "pub" warpapi.fresh "{}"
           {| warpapi.StatusCode := 200; warpapi.Status := "200 OK";
              warpapi.RespBody := Ok "{}" |});
    reflexivity.
Defined.

Lemma license_token_reaches_next_registration_witness :
  exists req r2,
    warpapi.doRegister more_samples.api_env "pub"
      (warpapi.updateLicenseKey more_samples.api_env "id-1" "token-1" "key-1" warpapi.fresh).2
    = (r2, {| warpapi.defaultHeaders :=
                warpapi.defaultHeaders
                  (warpapi.updateLicenseKey more_samples.api_env
                     "id-1" "token-1" "key-1" warpapi.fresh).2;
              warpapi.sent :=
                warpapi.sent (warpapi.updateLicenseKey more_samples.api_env
                                "id-1" "token-1" "key-1" warpapi.fresh).2 ++ [req] |})
    /\ warpapi.Method req = "POST" /\ warpapi.URL req = warpapi.regURL
    /\ warpapi.Header req !! "Authorization" = Some ("Bearer " +:+ "token-1").
Proof.
  apply (license_token_reaches_next_registration more_samples.api_env
           "id-1" "token-1" "key-1" "pub" warpapi.fresh (Ok more_samples.account)
           (warpapi.updateLicenseKey more_samples.api_env
              "id-1" "token-1" "key-1" warpapi.fresh).2 "{}").
  - left. reflexivity.
  - vm_compute. reflexivity.
  - vm_compute. discriminate.
  - reflexivity.
  - reflexivity.
Defined.

Lemma updateLicenseKey_requests_witness :
  exists reqs,
    warpapi.sent (warpapi.updateLicenseKey more_samples.api_env
                    "id-1" "token-1" "key-1" warpapi.fresh).2
    = [] ++ reqs
    /\ Forall (fun q => warpapi.URL q = warpapi.account_url "id-1" /\ warpapi.bearer "token-1" q) reqs
    /\ (map warpapi.Method reqs = [] \/ map warpapi.Method reqs = ["PATCH"]
        \/ map warpapi.Method reqs = ["PATCH"; "GET"])
    /\ (true = true -> map warpapi.Method reqs = ["PATCH"; "GET"]).
Proof.
  apply (updateLicenseKey_requests more_samples.api_env "id-1" "token-1" "key-1"
           warpapi.fresh (Ok more_samples.account)).
  - left. reflexivity.
  - vm_compute. reflexivity.
Defined.

Lemma RemoveDevice_request_witness :
  exists req,
    warpapi.sent (warpapi.RemoveDevice more_samples.api_env "id-1" "token-1" warpapi.fresh).2
    = [] ++ [req]
    /\ warpapi.Method req = "DELETE"
    /\ warpapi.URL req = warpapi.regURL +:+ "/" +:+ "id-1"
    /\ warpapi.Body req = None /\ warpapi.bearer "token-1" req
    /\ warpapi.holds_token "token-1"
         (warpapi.RemoveDevice more_samples.api_env "id-1" "token-1" warpapi.fresh).2
    /\ (Ok tt = Ok tt <->
        exists resp,
          warpapi.client_Do more_samples.api_env [] req = Ok resp
          /\ warpapi.StatusCode resp = 204%Z).
Proof.
  apply (RemoveDevice_request more_samples.api_env "id-1" "token-1" warpapi.fresh (Ok tt)).
  - left. reflexivity.
  - reflexivity.
  - vm_compute. reflexivity.
Defined.

(** ** The identity directory *)

Section Directory.
Import disk_view.
Variable env : warp.Env.

Lemma prefix_Join path name : String.prefix (path +:+ "/") (os.Join path name) = true.
Proof.
  unfold os.Join. induction path as [| c path IH]; simpl.
  - destruct (ascii_dec "/" "/"); [ | congruence].
    change ("" +:+ name) with name. destruct name; reflexivity.
  - destruct (ascii_dec c c); [exact IH | congruence].
Qed.

Lemma under_Join path name : under path (os.Join path name) = true.
Proof. unfold under. rewrite prefix_Join. apply orb_true_r. Qed.

Lemma Join_inj path a b : os.Join path a = os.Join path b -> a = b.
Proof.
  unfold os.Join. induction path as [| c path IH]; simpl; intros H.
  - inversion H as [H1]. exact H1.
  - inversion H. auto.
Qed.

Lemma identity_not_profile path :
  os.Join path warp.identityFile <> os.Join path warp.profileFile.
Proof. intros H. apply Join_inj in H. discriminate. Qed.

Lemma same_outside_refl path fs : same_outside path fs fs.
Proof. repeat split. Qed.

Lemma same_outside_trans path fs1 fs2 fs3 :
  same_outside path fs1 fs2 -> same_outside path fs2 fs3 -> same_outside path fs1 fs3.
Proof.
  intros (U1 & D1 & F1) (U2 & D2 & F2). repeat split; try congruence.
  intros name H. rewrite F2, F1 by exact H. reflexivity.
Qed.

Lemma outside_ne path name name' :
  under path name = true -> under path name' = false -> name <> name'.
Proof. intros H1 H2 ->. congruence. Qed.

Lemma open_trunc_write_outside path name perm contents :
  under path name = true ->
  steps (same_outside path) (os.open_trunc_write name perm contents).
Proof.
  intros Hu fs r fs'. unfold os.open_trunc_write.
  destruct (os.denied fs name); intros H; inversion H; subst;
    [apply same_outside_refl | ].
  repeat split. intros n Hn. cbn [os.files os.with_files].
  apply lookup_insert_ne. eapply outside_ne; eauto.
Qed.

Lemma Write_outside path name contents :
  under path name = true ->
  steps (same_outside path) (os.Write name contents).
Proof.
  intros Hu fs r fs'. unfold os.Write, modify. intros H; inversion H; subst.
  repeat split. intros n Hn. cbn [os.files os.with_files].
  apply lookup_alter_ne. eapply outside_ne; eauto.
Qed.

Lemma RemoveAll_outside path : steps (same_outside path) (os.RemoveAll path).
Proof.
  intros fs r fs'. unfold os.RemoveAll, modify. intros H; inversion H; subst.
  repeat split. intros n Hn. cbn [os.files os.with_files].
  rewrite map_lookup_filter. destruct (os.files fs !! n) as [f | ]; [ | reflexivity].
  cbn. unfold under in Hn. rewrite option_guard_True; [reflexivity | ].
  cbn. rewrite Hn. reflexivity.
Qed.



Lemma Stat_keeps name fs r fs' : os.Stat name fs = (r, fs') -> fs' = fs.
Proof.
  unfold os.Stat. destruct (os.files fs !! name); intros H; inversion H; reflexivity.
Qed.

Lemma LoadIdentity_inv path fs r fs' :
  warp.LoadIdentity env path fs = (r, fs') ->
  fs' = fs
  /\ forall i, r = Ok i ->
       exists f p,
         os.files fs !! os.Join path warp.identityFile = Some f
         /\ os.files fs !! os.Join path warp.profileFile = Some p
         /\ os.denied fs (os.Join path warp.identityFile) = false
         /\ warp.json_Unmarshal env (os.data f) = Ok i
         /\ warp.Peers (warp.Config i) <> [].
Proof.
  unfold warp.LoadIdentity, bind, os.Stat, os.ReadFile, lift, ret.
  destruct (os.files fs !! os.Join path warp.identityFile) as [f | ] eqn:Ef;
    [ | intros H; inversion H; subst; split; [reflexivity | discriminate]].
  destruct (os.files fs !! os.Join path warp.profileFile) as [p | ] eqn:Ep;
    [ | intros H; inversion H; subst; split; [reflexivity | discriminate]].
  destruct (os.denied fs (os.Join path warp.identityFile)) eqn:Ed;
    [intros H; inversion H; subst; split; [reflexivity | discriminate] | ].
  rewrite Ef.
  destruct (warp.json_Unmarshal env (os.data f)) as [i | e | e] eqn:Ej;
    [ | intros H; inversion H; subst; split; [reflexivity | discriminate] ..].
  destruct (warp.Peers (warp.Config i)) as [| peer0 rest] eqn:Epeers;
    cbn [List.length Nat.ltb Nat.leb];
    intros H; inversion H; subst; (split; [reflexivity | ]); [discriminate | ].
  intros i0 Hi. inversion Hi; subst. exists f, p. rewrite Epeers. repeat split; auto.
Qed.

(** LoadIdentity reads and never writes; it gives an identity exactly
    when both files are there, the identity file can be read and decodes
    to it, and it has a peer. The profile is only looked for: its text
    is not read. *)
Theorem LoadIdentity_reads_only path fs r fs' :
  warp.LoadIdentity env path fs = (r, fs') ->
  fs' = fs
  /\ forall i, r = Ok i <->
       exists f p,
         os.files fs !! os.Join path warp.identityFile = Some f
         /\ os.files fs !! os.Join path warp.profileFile = Some p
         /\ os.denied fs (os.Join path warp.identityFile) = false
         /\ warp.json_Unmarshal env (os.data f) = Ok i
         /\ warp.Peers (warp.Config i) <> [].
Proof.
  intros H. destruct (LoadIdentity_inv _ _ _ _ H) as [-> Hi].
  split; [reflexivity | ]. intros i. split; [apply Hi | ].
  intros (f & p & Hf & Hp & Hd & Hj & Hpeers). revert H.
  unfold warp.LoadIdentity, bind, os.Stat, os.ReadFile, lift, ret.
  rewrite Hf, Hp, Hd. cbn beta iota. rewrite ?Hf. cbn beta iota. rewrite Hj.
  destruct (warp.Peers (warp.Config i)) as [| peer0 rest]; [congruence | ].
  cbn [List.length Nat.ltb Nat.leb]. intros H. inversion H. reflexivity.
Qed.

Lemma saveIdentity_outside a path :
  steps (same_outside path) (warp.saveIdentity env a path).
Proof.
  unfold warp.saveIdentity.
  apply steps_bind; [apply same_outside_trans | | intros _].
  { apply open_trunc_write_outside, under_Join. }
  apply steps_bind; [apply same_outside_trans | | intros text].
  { apply steps_lift, same_outside_refl. }
  apply Write_outside, under_Join.
Qed.

Lemma createConf_outside i path : steps (same_outside path) (warp.createConf i path).
Proof.
  unfold warp.createConf. destruct (warp.Peers (warp.Config i)).
  - apply steps_lift, same_outside_refl.
  - apply open_trunc_write_outside, under_Join.
Qed.

Lemma CreateIdentity_outside path license :
  steps (same_outside path) (warp.CreateIdentity env path license).
Proof.
  unfold warp.CreateIdentity.
  apply steps_bind; [apply same_outside_trans | | intros [privateKey publicKey]].
  { apply steps_lift, same_outside_refl. }
  apply steps_bind; [apply same_outside_trans | | intros i].
  { apply steps_lift, same_outside_refl. }
  apply steps_bind; [apply same_outside_trans | | intros i'].
  { destruct (negb (String.eqb license "")).
    - apply steps_bind; [apply same_outside_trans | | intros ac].
      + apply steps_lift, same_outside_refl.
      + apply steps_ret, same_outside_refl.
    - apply steps_ret, same_outside_refl. }
  apply steps_bind; [apply same_outside_trans | | intros _].
  { apply saveIdentity_outside. }
  apply steps_ret, same_outside_refl.
Qed.

Lemma recreate_outside path license :
  steps (same_outside path) (warp.recreate env path license).
Proof.
  unfold warp.recreate.
  apply steps_bind; [apply same_outside_trans | | intros _].
  { apply RemoveAll_outside. }
  apply steps_bind; [apply same_outside_trans | | intros _].
  { apply steps_ret, same_outside_refl. }
  apply CreateIdentity_outside.
Qed.

(** LoadOrCreateIdentity, whatever its result, leaves every file that
    is not the directory or below it as it was, and leaves the umask
    and the permissions alone. *)
Theorem LoadOrCreateIdentity_stays_in_directory path license fs r fs' :
  warp.LoadOrCreateIdentity env path license fs = (r, fs') ->
  same_outside path fs fs'.
Proof.
  unfold warp.LoadOrCreateIdentity.
  set (first := match warp.LoadIdentity env path fs with
                | (Ok i, _) => ret i
                | (Err _, _) => warp.recreate env path license
                | (Panic e, _) => lift (Panic e)
                end).
  assert (Hfirst : steps (same_outside path) first).
  { subst first. destruct (warp.LoadIdentity env path fs) as [[i | e | e] ?].
    - apply steps_ret, same_outside_refl.
    - apply recreate_outside.
    - apply steps_lift, same_outside_refl. }
  assert (Hall : steps (same_outside path)
            (let* i := first in
             let* i := if negb (String.eqb license "")
                          && negb (String.eqb (warp.License (warp.Account i)) license)
                       then warp.recreate env path license else ret i in
             wrap "unable to enable write config file: " (warp.createConf i path))).
  { apply steps_bind; [apply same_outside_trans | exact Hfirst | intros i].
    apply steps_bind; [apply same_outside_trans | | intros i'].
    - destruct (negb (String.eqb license "")
                && negb (String.eqb (warp.License (warp.Account i)) license)).
      + apply recreate_outside.
      + apply steps_ret, same_outside_refl.
    - apply steps_wrap, createConf_outside. }
  intros H. exact (Hall fs r fs' H).
Qed.


Lemma saveIdentity_stores a path fs fs' :
  warp.saveIdentity env a path fs = (Ok tt, fs') ->
  os.denied fs' = os.denied fs
  /\ os.denied fs (os.Join path warp.identityFile) = false
  /\ exists m text,
       warp.json_Encode env a = Ok text
       /\ os.files fs' !! os.Join path warp.identityFile = Some (os.File m text).
Proof.
  unfold warp.saveIdentity, bind, os.Create, os.open_trunc_write.
  destruct (os.denied fs _) eqn:Ed; [discriminate | ].
  unfold lift. destruct (warp.json_Encode env a) as [text | e | e]; try discriminate.
  unfold os.Write, modify. intros H; inversion H; subst. clear H.
  split; [reflexivity | split; [reflexivity | ]].
  eexists _, text. split; [reflexivity | ].
  cbn [os.files os.with_files]. rewrite lookup_alter_eq, lookup_insert_eq. reflexivity.
Qed.

Lemma eqb_empty_false license : negb (String.eqb license "") = false -> license = "".
Proof. destruct (String.eqb_spec license ""); [auto | discriminate]. Qed.

Lemma recreate_stores path license fs i fs1 :
  codec_round_trip env ->
  license_echoed env license ->
  warp.recreate env path license fs = (Ok i, fs1) ->
  stored env path license fs1 i.
Proof.
  intros Hcodec Hecho H. unfold warp.recreate in H.
  apply bind_Ok_inv in H as ([] & fs_a & E1 & H).
  apply bind_Ok_inv in H as ([] & fs_b & E2 & H).
  apply ret_inv in E2 as (_ & ->).
  unfold warp.CreateIdentity in H.
  apply bind_Ok_inv in H as ([privateKey publicKey] & s1 & E3 & H).
  apply lift_inv in E3 as (_ & ->).
  apply bind_Ok_inv in H as (i0 & s2 & E4 & H).
  apply lift_inv in E4 as (_ & ->).
  apply bind_Ok_inv in H as (i1 & s3 & E5 & H).
  apply bind_Ok_inv in H as ([] & s4 & E6 & H).
  apply ret_inv in H as (Hi & ->). inversion Hi; subst i. clear Hi.
  apply saveIdentity_stores in E6 as (Hd & Hden & m & text & Henc & Hf).
  assert (Hs3 : s3 = fs_a /\ (license = "" \/ warp.License (warp.Account i1) = license)).
  { destruct (negb (String.eqb license "")) eqn:El.
    - apply bind_Ok_inv in E5 as (ac & s5 & E7 & E5).
      apply lift_inv in E7 as (E7 & ->). apply ret_inv in E5 as (E5 & ->).
      inversion E5; subst i1. split; [reflexivity | right]. cbn [warp.set_Account warp.Account].
      eapply Hecho. symmetry. exact E7.
    - apply ret_inv in E5 as (_ & ->). split; [reflexivity | left].
      apply eqb_empty_false, El. }
  destruct Hs3 as [-> Hlic].
  split; [ | split].
  - exists (os.File m text). split; [exact Hf | ]. apply Hcodec. exact Henc.
  - rewrite Hd. exact Hden.
  - exact Hlic.
Qed.

Lemma createConf_settles path license fs i fs' :
  stored env path license fs i ->
  warp.createConf i path fs = (Ok tt, fs') ->
  settled env path license fs' i.
Proof.
  intros ((f & Hf & Hj) & Hden & Hlic). unfold warp.createConf.
  destruct (warp.Peers (warp.Config i)) as [| peer0 rest] eqn:Ep; [discriminate | ].
  unfold os.WriteFile, os.open_trunc_write.
  destruct (os.denied fs (os.Join path warp.profileFile)) eqn:Ed; [discriminate | ].
  intros H; inversion H; subst. clear H.
  unfold settled. cbn [os.files os.with_files os.denied].
  split; [ | split; [ | auto]].
  - exists f. rewrite lookup_insert_ne by (apply not_eq_sym, identity_not_profile). auto.
  - eexists. rewrite lookup_insert_eq. split; [reflexivity | ].
    unfold profile_of. rewrite Ep. reflexivity.
Qed.

Lemma LoadOrCreateIdentity_settles path license fs fs' :
  codec_round_trip env ->
  license_echoed env license ->
  warp.LoadOrCreateIdentity env path license fs = (Ok tt, fs') ->
  exists i, settled env path license fs' i.
Proof.
  intros Hcodec Hecho. unfold warp.LoadOrCreateIdentity. intros H.
  apply bind_Ok_inv in H as (i & fs1 & E1 & H).
  apply bind_Ok_inv in H as (i' & fs2 & E2 & H).
  apply wrap_inv in H as (r0 & H & Hr). symmetry in Hr. apply wrap_err_Ok in Hr. subst r0.
  exists i'. eapply createConf_settles; [ | exact H].
  destruct (negb (String.eqb license "")
            && negb (String.eqb (warp.License (warp.Account i)) license)) eqn:Ec.
  { eapply recreate_stores; eauto. }
  apply ret_inv in E2 as (E2 & ->). inversion E2; subst i'. clear E2.
  destruct (warp.LoadIdentity env path fs) as [[i0 | e | e] fs0] eqn:El.
  - apply ret_inv in E1 as (E1 & ->). inversion E1; subst i0. clear E1.
    apply LoadIdentity_inv in El as (-> & Hi).
    destruct (Hi i eq_refl) as (f & p & Hf & _ & Hd & Hj & _).
    split; [exists f; auto | split; [exact Hd | ]].
    apply andb_false_iff in Ec as [Ec | Ec].
    + left. apply eqb_empty_false, Ec.
    + right. apply negb_false_iff in Ec. apply String.eqb_eq in Ec. exact Ec.
  - eapply recreate_stores; eauto.
  - apply lift_inv in E1 as (E1 & _). discriminate.
Qed.

Lemma with_files_same fs : os.with_files fs (os.files fs) = fs.
Proof. destruct fs; reflexivity. Qed.

(** On a settled directory LoadOrCreateIdentity loads the identity and
    writes the same profile again. *)
Lemma LoadOrCreateIdentity_settled_is_kept path license fs i :
  settled env path license fs i ->
  warp.LoadOrCreateIdentity env path license fs = (Ok tt, fs).
Proof.
  intros ((f & Hf & Hj) & (p & Hp & Hprof) & Hdi & Hdp & Hlic).
  unfold profile_of in Hprof.
  destruct (warp.Peers (warp.Config i)) as [| peer0 rest] eqn:Epeers; [discriminate | ].
  inversion Hprof as [Htext]. clear Hprof.
  assert (Hload : warp.LoadIdentity env path fs = (Ok i, fs)).
  { unfold warp.LoadIdentity, bind, os.Stat, os.ReadFile, lift, ret.
    rewrite Hf, Hp, Hdi, Hf, Hj, Epeers. reflexivity. }
  unfold warp.LoadOrCreateIdentity. rewrite Hload.
  unfold bind at 1. unfold ret at 1.
  assert (Hc : negb (String.eqb license "")
               && negb (String.eqb (warp.License (warp.Account i)) license) = false).
  { destruct Hlic as [-> | Hl]; [reflexivity | ].
    rewrite Hl, String.eqb_refl. apply andb_false_r. }
  rewrite Hc. unfold bind at 1. unfold ret at 1.
  unfold wrap, warp.createConf. rewrite Epeers.
  unfold os.WriteFile, os.open_trunc_write. rewrite Hdp, Hp, Htext.
  cbn [wrap_err]. f_equal.
  replace (os.File (os.mode p) (os.data p)) with p by (destruct p; reflexivity).
  rewrite insert_id by exact Hp. apply with_files_same.
Qed.

(** A run of LoadOrCreateIdentity that succeeds leaves the directory
    settled: the identity file decodes to an identity with a peer and
    with the license asked for, and the profile is the one that
    createConf writes for that identity. A second run with the same
    license then succeeds and changes nothing, file modes included. The
    codec is taken to read back what it writes, and the server to give
    back the license it is sent. *)
Theorem LoadOrCreateIdentity_idempotent path license fs fs' :
  codec_round_trip env ->
  license_echoed env license ->
  warp.LoadOrCreateIdentity env path license fs = (Ok tt, fs') ->
  (exists i, settled env path license fs' i)
  /\ warp.LoadOrCreateIdentity env path license fs' = (Ok tt, fs').
Proof.
  intros Hcodec Hecho H.
  destruct (LoadOrCreateIdentity_settles _ _ _ _ Hcodec Hecho H) as [i Hi].
  split; [exists i; exact Hi | ].
  eapply LoadOrCreateIdentity_settled_is_kept. exact Hi.
Qed.

Lemma wrap_err_Panic {A} prefix (e : string) : @wrap_err A prefix (Panic e) = Panic e.
Proof. reflexivity. Qed.

(** CreateIdentity does not look at the peers of what the server
    answers: a registration answered without peers is saved, and then
    createConf panics on [Peers[0]], where LoadIdentity gives an error
    for such an identity. The identity file stays, without a profile. *)
Theorem registration_without_peers_panics path fs privateKey publicKey i text :
  os.files fs !! os.Join path warp.identityFile = None ->
  os.denied fs (os.Join path warp.identityFile) = false ->
  warp.GeneratePrivateKey env = Ok (privateKey, publicKey) ->
  warp.doRegister env publicKey = Ok i ->
  warp.Peers (warp.Config i) = [] ->
  warp.json_Encode env (warp.set_PrivateKey privateKey i) = Ok text ->
  exists fs',
    warp.LoadOrCreateIdentity env path "" fs
    = (Panic "runtime error: index out of range [0] with length 0", fs')
    /\ (os.data <$> os.files fs' !! os.Join path warp.identityFile) = Some text
    /\ os.files fs' !! os.Join path warp.profileFile = None.
Proof.
  intros Hf Hd Hk Hreg Hp Henc.
  assert (Hload : exists e, warp.LoadIdentity env path fs = (Err e, fs)).
  { unfold warp.LoadIdentity, bind, os.Stat. rewrite Hf. eexists. reflexivity. }
  destruct Hload as [e Hload].
  unfold warp.LoadOrCreateIdentity. rewrite Hload.
  unfold bind at 1. unfold warp.recreate.
  unfold bind at 1. unfold os.RemoveAll at 1. unfold modify at 1.
  unfold bind at 1. unfold os.MkdirAll at 1. unfold ret at 1.
  unfold warp.CreateIdentity.
  unfold bind at 1. unfold lift at 1. rewrite Hk.
  unfold bind at 1. unfold lift at 1. rewrite Hreg.
  unfold bind at 1. cbn [String.eqb negb]. unfold ret at 1.
  unfold bind at 1. unfold warp.saveIdentity.
  unfold bind at 1. unfold os.Create, os.open_trunc_write.
  cbn [os.denied os.with_files os.files]. rewrite Hd.
  unfold bind at 1. unfold lift at 1. rewrite Henc.
  unfold os.Write, modify. unfold ret at 1.
  cbn [String.eqb negb andb]. unfold bind at 1. unfold ret at 1.
  unfold wrap, warp.createConf. cbn [warp.set_PrivateKey warp.Config]. rewrite Hp.
  unfold lift. cbn [wrap_err].
  eexists. split; [reflexivity | ].
  cbn [os.files os.with_files]. split.
  - rewrite lookup_alter_eq, lookup_insert_eq. reflexivity.
  - rewrite lookup_alter_ne, lookup_insert_ne by apply identity_not_profile.
    apply map_lookup_filter_None_2.
    destruct (os.files fs !! os.Join path warp.profileFile); [right | left; reflexivity].
    intros x _. cbn. fold (under path (os.Join path warp.profileFile)).
    rewrite under_Join. discriminate.
Qed.







End Directory.

Lemma LoadIdentity_reads_only_witness :
  let fs := (warp.LoadOrCreateIdentity sample.warp_env "./stuff/primary" "" sample.disk).2 in
  fs = fs
  /\ forall i, Ok sample.identity = Ok i <->
       exists f p,
         os.files fs !! os.Join "./stuff/primary" warp.identityFile = Some f
         /\ os.files fs !! os.Join "./stuff/primary" warp.profileFile = Some p
         /\ os.denied fs (os.Join "./stuff/primary" warp.identityFile) = false
         /\ warp.json_Unmarshal sample.warp_env (os.data f) = Ok i
         /\ warp.Peers (warp.Config i) <> [].
Proof.
  apply (LoadIdentity_reads_only sample.warp_env "./stuff/primary"
           (warp.LoadOrCreateIdentity sample.warp_env "./stuff/primary" "" sample.disk).2
           (Ok sample.identity)).
  vm_compute. reflexivity.
Defined.

Lemma LoadOrCreateIdentity_stays_in_directory_witness :
  disk_view.same_outside "./stuff/primary" more_samples.used_disk
    (warp.LoadOrCreateIdentity sample.warp_env "./stuff/primary" "" more_samples.used_disk).2.
Proof.
  apply (LoadOrCreateIdentity_stays_in_directory sample.warp_env "./stuff/primary" ""
           more_samples.used_disk (Ok tt)).
  vm_compute. reflexivity.
Defined.

Lemma sample_codec_round_trip : disk_view.codec_round_trip more_samples.codec_env.
Proof.
  intros i text H. cbn [warp.json_Encode warp.json_Unmarshal more_samples.codec_env] in *.
  case_bool_decide; [subst; reflexivity | discriminate].
Defined.

Lemma sample_license_echoed license : disk_view.license_echoed more_samples.codec_env license.
Proof. intros accountID token ac H. inversion H. reflexivity. Defined.

Lemma LoadOrCreateIdentity_idempotent_witness :
  let fs' := (warp.LoadOrCreateIdentity more_samples.codec_env "./stuff/primary" ""
                sample.disk).2 in
  (exists i, disk_view.settled more_samples.codec_env "./stuff/primary" "" fs' i)
  /\ warp.LoadOrCreateIdentity more_samples.codec_env "./stuff/primary" "" fs' = (Ok tt, fs').
Proof.
  apply (LoadOrCreateIdentity_idempotent more_samples.codec_env "./stuff/primary" ""
           sample.disk).
  - exact sample_codec_round_trip.
  - exact (sample_license_echoed "").
  - vm_compute. reflexivity.
Defined.

Lemma registration_without_peers_panics_witness :
  exists fs',
    warp.LoadOrCreateIdentity more_samples.no_peers_env "./stuff/primary" "" sample.disk
    = (Panic "runtime error: index out of range [0] with length 0", fs')
    /\ (os.data <$> os.files fs' !! os.Join "./stuff/primary" warp.identityFile) = Some "{}"
    /\ os.files fs' !! os.Join "./stuff/primary" warp.profileFile = None.
Proof.
  apply (registration_without_peers_panics more_samples.no_peers_env "./stuff/primary"
           sample.disk sample.privateKey sample.publicKey more_samples.no_peers "{}");
    reflexivity.
Defined.


(** ** The retries of RunPsiphon *)

Section Retries.
Variable env : psiphon.Env.


End Retries.


(** ** The keys of a parsed configuration *)

Section Keys.
Import gostrings key_view.

Lemma sextet_bound c n : base64.sextet c = Some n -> (n < 64)%N.
Proof.
  unfold base64.sextet, is_upper, is_lower, is_digit, in_range.
  destruct c as [[] [] [] [] [] [] [] []]; vm_compute; intros H; inversion H; reflexivity.
Qed.

Lemma decode_quanta_bytes l : forall bs,
  base64.decode_quanta l = Ok bs -> Forall (fun b => (b < 256)%N) bs.
Proof.
  induction l as [l IH] using (induction_ltof1 _ (@List.length ascii)).
  unfold ltof in IH. intros bs.
  destruct l as [| c1 [| c2 [| c3 [| c4 rest]]]]; cbn [base64.decode_quanta];
    try discriminate.
  { intros H; inversion H. constructor. }
  destruct (base64.sextet c1) as [a | ] eqn:E1; [ | discriminate].
  destruct (base64.sextet c2) as [b | ] eqn:E2; [ | discriminate].
  apply sextet_bound in E1, E2.
  assert (H1 : (a * 4 + b / 16 < 256)%N).
  { pose proof (N.Div0.div_lt_upper_bound b 16 4). lia. }
  destruct (base64.sextet c3) as [c | ] eqn:E3.
  - apply sextet_bound in E3.
    assert (H2 : (b mod 16 * 16 + c / 4 < 256)%N).
    { pose proof (N.mod_upper_bound b 16). pose proof (N.Div0.div_lt_upper_bound c 4 16). lia. }
    destruct (base64.sextet c4) as [d | ] eqn:E4.
    + apply sextet_bound in E4.
      destruct (base64.decode_quanta rest) as [tl | e | e] eqn:Er; cbn [rbind]; try discriminate.
      intros H; inversion H; subst.
      assert (H3 : (c mod 4 * 64 + d < 256)%N).
      { pose proof (N.mod_upper_bound c 4). lia. }
      repeat constructor; auto. apply (IH rest); [simpl; lia | exact Er].
    + destruct (Ascii.eqb c4 "=" && match rest with [] => true | _ => false end);
        [ | discriminate].
      intros H; inversion H; subst. repeat constructor; auto.
  - destruct (Ascii.eqb c3 "=" && Ascii.eqb c4 "="
              && match rest with [] => true | _ => false end); [ | discriminate].
    intros H; inversion H; subst. repeat constructor; auto.
Qed.

Lemma hex_digit_is_hex n : (n < 16)%N -> is_hex_digit (hex.hex_digit n) = true.
Proof.
  intros H. destruct n as [| p]; [reflexivity | ].
  do 4 (destruct p as [p | p | ]; try reflexivity); lia.
Qed.

Lemma EncodeToString_hex bs :
  Forall (fun b => (b < 256)%N) bs ->
  List.length (chars (hex.EncodeToString bs)) = (2 * List.length bs)%nat
  /\ forallb is_hex_digit (chars (hex.EncodeToString bs)) = true.
Proof.
  unfold hex.EncodeToString. rewrite chars_str.
  induction 1 as [| b bs Hb Hbs [IH1 IH2]]; [split; reflexivity | ].
  cbn [flat_map app List.length forallb]. rewrite IH1, IH2.
  rewrite !hex_digit_is_hex.
  - split; [lia | reflexivity].
  - apply N.mod_upper_bound. lia.
  - apply N.Div0.div_lt_upper_bound. lia.
Qed.

Lemma encodeBase64ToHex_hex64 key h :
  wiresocks.encodeBase64ToHex key = Ok h -> is_hex64 h.
Proof.
  unfold wiresocks.encodeBase64ToHex.
  destruct (base64.DecodeString key) as [decoded | e | e] eqn:Ed; try discriminate.
  destruct (Nat.eqb_spec (List.length decoded) 32) as [Hl | Hl]; cbn [negb];
    [ | discriminate].
  intros H; inversion H; subst.
  apply decode_quanta_bytes in Ed. apply EncodeToString_hex in Ed as [H1 H2].
  split; [rewrite H1, Hl; reflexivity | exact H2].
Qed.

(** encodeBase64ToHex gives 64 lower-case hexadecimal digits, the bytes
    of a key that is base64 of exactly 32 bytes, and otherwise one of its
    two errors, which name the key: never anything else. The empty text
    is base64 of no byte, so it is turned away for its length. *)
Theorem encodeBase64ToHex_outcomes key :
  (exists decoded,
     base64.DecodeString key = Ok decoded /\ List.length decoded = 32%nat
     /\ wiresocks.encodeBase64ToHex key = Ok (hex.EncodeToString decoded)
     /\ is_hex64 (hex.EncodeToString decoded))
  \/ (is_ok (base64.DecodeString key) = false
      /\ wiresocks.encodeBase64ToHex key = Err ("invalid base64 string: " +:+ key))
  \/ (exists decoded,
        base64.DecodeString key = Ok decoded /\ List.length decoded <> 32%nat
        /\ wiresocks.encodeBase64ToHex key = Err ("key should be 32 bytes: " +:+ key)).
Proof.
  pose proof (encodeBase64ToHex_hex64 key) as Hhex.
  unfold wiresocks.encodeBase64ToHex in *.
  destruct (base64.DecodeString key) as [decoded | e | e] eqn:Ed.
  - destruct (Nat.eqb_spec (List.length decoded) 32) as [Hl | Hl]; cbn [negb] in *.
    + left. exists decoded. repeat split; auto; apply (Hhex _ eq_refl).
    + right; right. exists decoded. auto.
  - right; left. auto.
  - right; left. auto.
Qed.

Lemma encodeBase64ToHex_empty :
  wiresocks.encodeBase64ToHex "" = Err "key should be 32 bytes: ".
Proof. reflexivity. Qed.


Section Parsed.
Context {L : ini.Lib}.

Lemma zero_psk_hex64 : is_hex64 wiresocks.zero_psk.
Proof. split; reflexivity. Qed.

Lemma parsePeer_keys section peer :
  wiresocks.parsePeer section = Ok peer ->
  (wiresocks.PublicKey peer = "" \/ is_hex64 (wiresocks.PublicKey peer))
  /\ is_hex64 (wiresocks.PreSharedKey peer)
  /\ wiresocks.Trick peer = false.
Proof.
  unfold wiresocks.parsePeer.
  destruct (ini.GetKey section "PublicKey") as [k1 | e1 | e1].
  - destruct (wiresocks.encodeBase64ToHex (ini.KeyString k1)) as [pub | e | e] eqn:Epub;
      cbn [rbind]; try discriminate.
    apply encodeBase64ToHex_hex64 in Epub.
    destruct (ini.GetKey section "PreSharedKey") as [k2 | e2 | e2];
      [destruct (wiresocks.encodeBase64ToHex (ini.KeyString k2)) as [psk | e | e] eqn:Epsk;
         cbn [rbind]; try discriminate; apply encodeBase64ToHex_hex64 in Epsk | ..];
      cbn [rbind];
      (destruct (match ini.GetKey section "PersistentKeepalive" with
                 | Ok sectionKey => ini.KeyInt sectionKey | _ => Ok 0%Z end);
       cbn [rbind]; try discriminate);
      (destruct (match ini.GetKey section "AllowedIPs" with
                 | Ok sectionKey =>
                     rmapM netip.ParsePrefix (ini.StringsWithShadows sectionKey ",")
                 | _ => Ok [] end);
       cbn [rbind]; try discriminate);
      intros H; inversion H; subst; cbn; auto using zero_psk_hex64.
  - cbn [rbind].
    destruct (ini.GetKey section "PreSharedKey") as [k2 | e2 | e2];
      [destruct (wiresocks.encodeBase64ToHex (ini.KeyString k2)) as [psk | e | e] eqn:Epsk;
         cbn [rbind]; try discriminate; apply encodeBase64ToHex_hex64 in Epsk | ..];
      cbn [rbind];
      (destruct (match ini.GetKey section "PersistentKeepalive" with
                 | Ok sectionKey => ini.KeyInt sectionKey | _ => Ok 0%Z end);
       cbn [rbind]; try discriminate);
      (destruct (match ini.GetKey section "AllowedIPs" with
                 | Ok sectionKey =>
                     rmapM netip.ParsePrefix (ini.StringsWithShadows sectionKey ",")
                 | _ => Ok [] end);
       cbn [rbind]; try discriminate);
      intros H; inversion H; subst; cbn; auto using zero_psk_hex64.
  - cbn [rbind].
    destruct (ini.GetKey section "PreSharedKey") as [k2 | e2 | e2];
      [destruct (wiresocks.encodeBase64ToHex (ini.KeyString k2)) as [psk | e | e] eqn:Epsk;
         cbn [rbind]; try discriminate; apply encodeBase64ToHex_hex64 in Epsk | ..];
      cbn [rbind];
      (destruct (match ini.GetKey section "PersistentKeepalive" with
                 | Ok sectionKey => ini.KeyInt sectionKey | _ => Ok 0%Z end);
       cbn [rbind]; try discriminate);
      (destruct (match ini.GetKey section "AllowedIPs" with
                 | Ok sectionKey =>
                     rmapM netip.ParsePrefix (ini.StringsWithShadows sectionKey ",")
                 | _ => Ok [] end);
       cbn [rbind]; try discriminate);
      intros H; inversion H; subst; cbn; auto using zero_psk_hex64.
Qed.

Lemma rmapM_length {A B} (f : A -> result B) xs ys :
  rmapM f xs = Ok ys -> List.length ys = List.length xs.
Proof.
  revert ys. induction xs as [| x xs IH]; simpl; intros ys H.
  - inversion H. reflexivity.
  - destruct (f x) as [y | e | e]; simpl in H; try discriminate.
    destruct (rmapM f xs) as [ys0 | e | e]; simpl in H; try discriminate.
    inversion H; subst. simpl. rewrite (IH ys0 eq_refl). reflexivity.
Qed.

Lemma ParseInterface_key cfg iface :
  wiresocks.ParseInterface cfg = Ok iface -> is_hex64 (wiresocks.PrivateKey iface).
Proof.
  unfold wiresocks.ParseInterface.
  destruct (ini.SectionsByName cfg "Interface") as [[| s [| s' secs]] | e | e];
    try discriminate.
  destruct (rmapM _ _) as [addresses | e | e]; cbn [rbind]; try discriminate.
  destruct (wiresocks.encodeBase64ToHex _) as [key | e | e] eqn:Ek;
    cbn [rbind]; try discriminate.
  apply encodeBase64ToHex_hex64 in Ek.
  destruct (rmapM netip.ParseAddr _) as [dns | e | e]; cbn [rbind]; try discriminate.
  destruct (match ini.GetKey s "MTU" with
            | Ok sectionKey => ini.KeyInt sectionKey | _ => Ok 0%Z end);
    cbn [rbind]; try discriminate.
  intros H; inversion H; subst. exact Ek.
Qed.

(** A configuration that ParseConfig gives has a private key of 64
    hexadecimal digits and at least one peer; every peer has the
    endpoint given to ParseConfig, whatever the file says, the trick off,
    a pre-shared key of 64 digits, and a public key of 64 digits or none.
    The file is only read. *)
Theorem ParseConfig_checked path endpoint fs conf fs' :
  wiresocks.ParseConfig path endpoint fs = (Ok conf, fs') ->
  fs' = fs
  /\ is_hex64 (wiresocks.PrivateKey (wiresocks.Interface conf))
  /\ wiresocks.Peers conf <> []
  /\ Forall (peer_checked endpoint) (wiresocks.Peers conf).
Proof.
  unfold wiresocks.ParseConfig, bind, lift.
  destruct (os.ReadFile path fs) as [[text | e | e] f0] eqn:Er; try discriminate.
  apply ReadFile_keeps in Er. subst f0.
  destruct (ini.Load text) as [cfg | e | e]; cbn [rbind]; try discriminate.
  destruct (wiresocks.ParseInterface cfg) as [iface | e | e] eqn:Ei;
    cbn [rbind]; try discriminate.
  destruct (wiresocks.ParsePeers cfg) as [peers | e | e] eqn:Ep;
    cbn [rbind]; try discriminate.
  intros H; inversion H; subst. cbn [wiresocks.Interface wiresocks.Peers].
  split; [reflexivity | split; [eapply ParseInterface_key; eauto | ]].
  unfold wiresocks.ParsePeers in Ep.
  destruct (ini.SectionsByName cfg "Peer") as [[| s secs] | e | e]; try discriminate.
  split.
  - pose proof (rmapM_length _ _ _ Ep) as Hl. intros Hn.
    apply (f_equal (@List.length _)) in Hn. rewrite length_map, Hl in Hn. discriminate.
  - apply Forall_map.
    eapply Forall_impl; [apply (rmapM_Forall _ _ _ _ parsePeer_keys Ep) | ].
    intros p (H1 & H2 & H3). unfold peer_checked.
    cbn [wiresocks.set_Endpoint wiresocks.PublicKey wiresocks.PreSharedKey
         wiresocks.Endpoint wiresocks.Trick].
    auto.
Qed.

End Parsed.

End Keys.

Lemma ParseConfig_checked_witness :
  let fs := (warp.createConf sample.identity "./stuff/primary" sample.disk).2 in
  let conf :=
    profile.parsed_profile
      "c865de5fb80cc9421998ae502200bbf975f9512512b2442f058890e8b7648972"
      "6e65ce0be17517110c17d77288ad87e7fd5252dcc7d09b95a39d61db03df832a"
      (netip.PrefixFrom (netip.IPv4 [172; 16; 0; 2]%N) 24)
      (netip.PrefixFrom
         (netip.IPv6 [38; 6; 71; 0; 1; 16; 143; 91; 124; 70; 133; 46;
                      244; 92; 109; 53]%N "") 128)
      "162.159.192.1:2408" in
  fs = fs
  /\ key_view.is_hex64 (wiresocks.PrivateKey (wiresocks.Interface conf))
  /\ wiresocks.Peers conf <> []
  /\ Forall (key_view.peer_checked "162.159.192.1:2408") (wiresocks.Peers conf).
Proof.
  apply (ParseConfig_checked (L := sample.L) "./stuff/primary/wgcf-profile.ini"
           "162.159.192.1:2408"
           (warp.createConf sample.identity "./stuff/primary" sample.disk).2).
  vm_compute. reflexivity.
Defined.

(** ** The wiring of the scenarios *)

Section Wiring.
Context {L : ini.Lib}.
Variable env : app.Env.
Import wiring_view.

Lemma StartWireguard_tunnel conf tr vt tr' :
  wiresocks.StartWireguard (app.ws_env env) conf tr = (Ok vt, tr') ->
  tunnel (app.ws_env env) conf vt.
Proof.
  unfold wiresocks.StartWireguard, wiresocks.log, bind, modify, lift, ret.
  destruct (wiresocks.CreateNetTUN _ _ _ _) as [tnet | e | e] eqn:E1; try discriminate.
  destruct (wiresocks.IpcSet _ _ _) as [[] | e | e] eqn:E2; try discriminate.
  destruct (wiresocks.Up _ _) as [[] | e | e] eqn:E3; try discriminate.
  intros H; inversion H; subst. unfold tunnel. cbn [wiresocks.Tnet wiresocks.Dev].
  auto.
Qed.

Lemma ParseConfig_reach path endpoint fs conf fs' :
  wiresocks.ParseConfig path endpoint fs = (Ok conf, fs') ->
  peers_reach endpoint conf.
Proof.
  unfold wiresocks.ParseConfig, bind, lift, rbind.
  destruct (os.ReadFile path fs) as [[text | e | e] f0]; try discriminate.
  destruct (ini.Load text) as [cfg | e | e]; try discriminate.
  destruct (wiresocks.ParseInterface cfg) as [iface | e | e]; try discriminate.
  destruct (wiresocks.ParsePeers cfg) as [peers | e | e]; try discriminate.
  intros H; inversion H; subst. unfold peers_reach. cbn [wiresocks.Peers].
  apply Forall_map. apply Forall_forall. intros p _. reflexivity.
Qed.

Lemma with_peers_reach f endpoint conf :
  (forall p, wiresocks.Endpoint (f p) = wiresocks.Endpoint p) ->
  peers_reach endpoint conf ->
  peers_reach endpoint (app.with_peers f (wiresocks.set_MTU app.singleMTU conf))
  /\ peers_reach endpoint (app.with_peers f (wiresocks.set_MTU app.doubleMTU conf)).
Proof.
  intros Hf H. unfold peers_reach in *.
  split; cbn [app.with_peers wiresocks.Peers wiresocks.set_MTU]; apply Forall_map;
    (eapply Forall_impl; [exact H | ]); intros p Hp; cbn; rewrite Hf; exact Hp.
Qed.

Lemma runWarp_wiring b endpoint s s' :
  app.runWarp env b endpoint s = (Ok tt, s') ->
  exists conf vt,
    app.wg s' = app.wg s ++ [wiresocks.EvStartWireguard conf; wiresocks.EvStartProxy vt b]
    /\ app.fs s' = app.fs s /\ app.psi s' = app.psi s
    /\ wiresocks.MTU (wiresocks.Interface conf) = app.singleMTU
    /\ peers_reach endpoint conf
    /\ tunnel (app.ws_env env) conf vt
    /\ is_ok (wiresocks.net_Listen (app.ws_env env)
                (wiresocks.AddrPortString (app.ws_env env) b)) = true.
Proof.
  unfold app.runWarp. intros H. inv_bind H.
  apply on_fs_inv in E as (E & Ew & Ep).
  pose proof (ParseConfig_keeps _ _ _ _ _ E) as Hfs.
  apply ParseConfig_reach in E.
  apply on_wg_inv in E0 as (E0 & Ef0 & Ep0).
  pose proof (StartWireguard_tunnel _ _ _ _ E0) as Ht.
  apply StartWireguard_log in E0.
  apply on_wg_inv in E1 as (E1 & Ef1 & Ep1). apply StartProxy_log in E1 as (E1 & Er).
  apply ret_inv in H as (_ & ->).
  eexists _, _. split; [rewrite E1, E0, Ew, <- app_assoc; reflexivity | ].
  split; [congruence | split; [congruence | ]].
  split; [reflexivity | ].
  split; [apply (with_peers_reach app.outer_peer); [reflexivity | exact E] | ].
  split; [exact Ht | ]. rewrite <- Er. reflexivity.
Qed.


Lemma NewVtunUDPForwarder_Ok b d vt mtu tr local tr' :
  wiresocks.NewVtunUDPForwarder (app.ws_env env) b d vt mtu tr = (Ok local, tr') ->
  wiresocks.ListenUDP (app.ws_env env) b = Ok local
  /\ exists destAddr,
       wiresocks.ResolveUDPAddr (app.ws_env env) d = Ok destAddr
       /\ wiresocks.DialUDP (app.ws_env env) (wiresocks.Tnet vt) destAddr = Ok tt.
Proof.
  unfold wiresocks.NewVtunUDPForwarder, wiresocks.log, bind, modify, lift, ret.
  destruct (wiresocks.ResolveUDPAddr _ d) as [destAddr | e | e]; try discriminate.
  destruct (wiresocks.ListenUDP _ b) as [l | e | e]; try discriminate.
  destruct (wiresocks.DialUDP _ _ _) as [[] | e | e] eqn:Ed; try discriminate.
  intros H; inversion H; subst. split; [reflexivity | ]. exists destAddr. auto.
Qed.

Lemma runWarpInWarp_wiring b endpoints s s' :
  app.runWarpInWarp env b endpoints s = (Ok tt, s') ->
  exists e0 e1 outer inner vt1 vt2 local,
    endpoints !! 0%nat = Some e0 /\ endpoints !! 1%nat = Some e1
    /\ app.wg s' = app.wg s
         ++ [wiresocks.EvStartWireguard outer;
             wiresocks.EvUDPForwarder netip.loopback_any_port e1 vt1 app.singleMTU;
             wiresocks.EvStartWireguard inner;
             wiresocks.EvStartProxy vt2 b]
    /\ app.fs s' = app.fs s /\ app.psi s' = app.psi s
    /\ wiresocks.MTU (wiresocks.Interface outer) = app.singleMTU
    /\ wiresocks.MTU (wiresocks.Interface inner) = app.doubleMTU
    /\ peers_reach e0 outer
    /\ wiresocks.ListenUDP (app.ws_env env) netip.loopback_any_port = Ok local
    /\ peers_reach (wiresocks.AddrPortString (app.ws_env env) local) inner
    /\ tunnel (app.ws_env env) outer vt1
    /\ tunnel (app.ws_env env) inner vt2.
Proof.
  unfold app.runWarpInWarp. intros H. inv_bind H.
  apply lift_inv in E as (E & ->).
  apply on_fs_inv in E0 as (E0 & Ew0 & Ep0).
  pose proof (ParseConfig_keeps _ _ _ _ _ E0) as Hfs0. apply ParseConfig_reach in E0.
  apply on_wg_inv in E1 as (E1 & Ef1 & Ep1).
  pose proof (StartWireguard_tunnel _ _ _ _ E1) as Ht1. apply StartWireguard_log in E1.
  apply lift_inv in E2 as (E2 & ->).
  apply on_wg_inv in E3 as (E3 & Ef3 & Ep3).
  pose proof (NewVtunUDPForwarder_Ok _ _ _ _ _ _ _ E3) as (Hl & _).
  apply NewVtunUDPForwarder_log in E3.
  apply on_fs_inv in E4 as (E4 & Ew4 & Ep4).
  pose proof (ParseConfig_keeps _ _ _ _ _ E4) as Hfs4. apply ParseConfig_reach in E4.
  apply on_wg_inv in E5 as (E5 & Ef5 & Ep5).
  pose proof (StartWireguard_tunnel _ _ _ _ E5) as Ht2. apply StartWireguard_log in E5.
  apply on_wg_inv in E6 as (E6 & Ef6 & Ep6). apply StartProxy_log in E6 as (E6 & _).
  apply ret_inv in H as (_ & ->).
  unfold app.index in E, E2.
  destruct (endpoints !! 0%nat) as [e0 | ] eqn:H0; [ | discriminate].
  destruct (endpoints !! 1%nat) as [e1 | ] eqn:H1; [ | discriminate].
  inversion E; subst a. inversion E2; subst a2.
  exists e0, e1. eexists _, _, _, _, _.
  split; [reflexivity | split; [reflexivity | ]].
  split; [rewrite E6, E5, Ew4, E3, E1, Ew0, <- !app_assoc; reflexivity | ].
  split; [congruence | split; [congruence | ]].
  split; [reflexivity | split; [reflexivity | ]].
  split; [apply (with_peers_reach app.outer_peer); [reflexivity | exact E0] | ].
  split; [exact Hl | ].
  split; [apply (with_peers_reach app.inner_peer); [reflexivity | exact E4] | ].
  split; [exact Ht1 | exact Ht2].
Qed.

(** The plain scenario, with the endpoint of the options: one tunnel is
    started, with MTU 1330 and every peer at that endpoint, and the mixed
    proxy is asked to listen on the bind address of the options, on that
    tunnel; nothing is asked of Psiphon. *)
Theorem RunWarp_plain_wiring opts s s' :
  app.Psiphon opts = None -> app.Gool opts = false -> app.Scan opts = None ->
  app.RunWarp env opts s = (Ok tt, s') ->
  exists conf vt,
    app.wg s' = app.wg s ++ [wiresocks.EvStartWireguard conf;
                             wiresocks.EvStartProxy vt (app.Bind opts)]
    /\ app.psi s' = app.psi s
    /\ wiresocks.MTU (wiresocks.Interface conf) = 1330%Z
    /\ peers_reach (app.Endpoint opts) conf
    /\ tunnel (app.ws_env env) conf vt.
Proof.
  intros Hp Hg Hs. unfold app.RunWarp, app.has_psiphon. rewrite Hp, Hg, Hs. cbn [andb].
  intros H. apply bind_Ok_inv in H as ([] & s1 & E1 & H).
  apply identities_keep in E1 as (Ew1 & Ep1).
  apply bind_Ok_inv in H as (endpoints & s2 & E2 & H).
  apply ret_inv in E2 as (E2 & ->). inversion E2; subst endpoints.
  apply bind_Ok_inv in H as (endpoint0 & s3 & E3 & H).
  apply lift_inv in E3 as (E3 & ->). inversion E3; subst endpoint0.
  apply runWarp_wiring in H as (conf & vt & Hw & _ & Hpsi & Hm & Hr & Ht & _).
  exists conf, vt. rewrite Hw, Ew1, Hpsi, Ep1. auto.
Qed.

(** The warp-in-warp scenario, with the endpoint of the options: the
    outer tunnel has MTU 1330 and its peers at that endpoint; the UDP
    forwarder is asked for 127.0.0.1:0 toward that endpoint through the
    outer tunnel; the inner tunnel has MTU 1280 and its peers at the
    address the forwarder listens on; and the mixed proxy is asked to
    listen on the bind address of the options, on the inner tunnel. *)
Theorem RunWarp_gool_wiring opts s s' :
  app.Psiphon opts = None -> app.Gool opts = true -> app.Scan opts = None ->
  app.RunWarp env opts s = (Ok tt, s') ->
  exists outer inner vt1 vt2 local,
    app.wg s' = app.wg s
      ++ [wiresocks.EvStartWireguard outer;
          wiresocks.EvUDPForwarder netip.loopback_any_port (app.Endpoint opts) vt1 1330;
          wiresocks.EvStartWireguard inner;
          wiresocks.EvStartProxy vt2 (app.Bind opts)]
    /\ app.psi s' = app.psi s
    /\ wiresocks.MTU (wiresocks.Interface outer) = 1330%Z
    /\ wiresocks.MTU (wiresocks.Interface inner) = 1280%Z
    /\ peers_reach (app.Endpoint opts) outer
    /\ wiresocks.ListenUDP (app.ws_env env) netip.loopback_any_port = Ok local
    /\ peers_reach (wiresocks.AddrPortString (app.ws_env env) local) inner
    /\ tunnel (app.ws_env env) outer vt1
    /\ tunnel (app.ws_env env) inner vt2.
Proof.
  intros Hp Hg Hs. unfold app.RunWarp, app.has_psiphon. rewrite Hp, Hg, Hs. cbn [andb].
  intros H. apply bind_Ok_inv in H as ([] & s1 & E1 & H).
  apply identities_keep in E1 as (Ew1 & Ep1).
  apply bind_Ok_inv in H as (endpoints & s2 & E2 & H).
  apply ret_inv in E2 as (E2 & ->). inversion E2; subst endpoints.
  apply runWarpInWarp_wiring in H
    as (e0 & e1 & outer & inner & vt1 & vt2 & local & H0 & H1 & Hw & _ & Hpsi
        & Hm1 & Hm2 & Hr1 & Hl & Hr2 & Ht1 & Ht2).
  inversion H0; subst e0. inversion H1; subst e1.
  exists outer, inner, vt1, vt2, local. rewrite Hw, Ew1, Hpsi, Ep1.
  split; [reflexivity | split; [reflexivity | ]]. tauto.
Qed.


(** The polling loop of RunScan. *)
Lemma poll_outcome snapshots :
  match wiresocks.poll snapshots with
  | Ok res =>
      exists before ipList after a b,
        snapshots = before ++ ipList :: after
        /\ Forall (fun l => (List.length l <= 1)%nat) before
        /\ (2 <= List.length ipList)%nat
        /\ take 2 ipList = [a; b] /\ res = [a; b]
  | Err e =>
      e = "user canceled the operation"
      /\ Forall (fun l => (List.length l <= 1)%nat) snapshots
  | Panic _ => False
  end.
Proof.
  induction snapshots as [| ipList rest IH]; cbn [wiresocks.poll].
  - split; [reflexivity | constructor].
  - destruct (Nat.ltb_spec 1 (List.length ipList)) as [Hl | Hl].
    + destruct ipList as [| a [| b l]]; cbn [List.length] in Hl; try lia.
      exists [], (a :: b :: l), rest, a, b.
      repeat split; [constructor | cbn [List.length]; lia].
    + destruct (wiresocks.poll rest) as [res | e | e].
      * destruct IH as (before & l & after & a & b & -> & Hb & Hl2 & Ht & ->).
        exists (ipList :: before), l, after, a, b.
        repeat split; auto.
      * destruct IH as [-> Hall]. split; [reflexivity | constructor; auto].
      * exact IH.
Qed.

(** RunScan reads the keys of the primary profile, asks the scanner,
    and looks at what the scanner has every second: the first time it has
    two addresses or more, RunScan gives the first two of them, and no
    more; it looks no further. When its context ends before that, the
    error says that the user canceled, also when the two minutes of the
    scan have run out. The files are only read. *)
Theorem RunScan_outcome opts fs tr r fs' tr' :
  wiresocks.RunScan (app.ws_env env) opts (fs, tr) = (r, (fs', tr')) ->
  fs' = fs
  /\ match r with
     | Ok res =>
         tr' = tr ++ [wiresocks.EvRunScan opts]
         /\ exists text cfg before ipList after a b,
              os.ReadFile "./stuff/primary/wgcf-profile.ini" fs = (Ok text, fs)
              /\ ini.LoadDefault text = Ok cfg
              /\ wiresocks.GetAvailableIPs (app.ws_env env)
                   (ini.KeyString (ini.SectionKey (ini.SectionOf cfg "Interface")
                                     "PrivateKey"))
                   (ini.KeyString (ini.SectionKey (ini.SectionOf cfg "Peer")
                                     "PublicKey"))
                   opts
                 = before ++ ipList :: after
              /\ Forall (fun l => (List.length l <= 1)%nat) before
              /\ (2 <= List.length ipList)%nat
              /\ take 2 ipList = [a; b] /\ res = [a; b]
     | Err e =>
         (tr' = tr /\ exists e0, e = "failed to read file: " +:+ e0)
         \/ (tr' = tr ++ [wiresocks.EvRunScan opts]
             /\ e = "user canceled the operation")
     | Panic _ => tr' = tr
     end.
Proof.
  unfold wiresocks.RunScan, bind, wrap, zoom, lift, wiresocks.log, modify.
  cbn [fst snd].
  destruct (os.ReadFile _ fs) as [r0 f0] eqn:E.
  pose proof (ReadFile_keeps _ _ _ _ E) as ->.
  destruct r0 as [text | e | e]; cbn [wrap_err].
  - destruct (ini.LoadDefault text) as [cfg | e | e] eqn:El; cbn [wrap_err].
    + match goal with
      | |- context [wiresocks.poll ?snaps] =>
          pose proof (poll_outcome snaps) as Hp;
          destruct (wiresocks.poll snaps) as [res | e | e] eqn:Epoll
      end.
      * intros H; inversion H; subst. split; [reflexivity | ].
        split; [reflexivity | ].
        destruct Hp as (before & ipList & after & a & b & Hs & Hb & Hl & Ht & Hr).
        exists text, cfg, before, ipList, after, a, b. auto 10.
      * intros H; inversion H; subst. split; [reflexivity | ].
        right. destruct Hp as [-> _]. auto.
      * contradiction.
    + intros H; inversion H; subst. split; [reflexivity | ]. left. eauto.
    + intros H; inversion H; subst. auto.
  - intros H; inversion H; subst. split; [reflexivity | ]. left. eauto.
  - intros H; inversion H; subst. auto.
Qed.


Lemma RunScan_two opts st res st' :
  wiresocks.RunScan (app.ws_env env) opts st = (Ok res, st') ->
  exists k1 k2 ipList a b,
    In ipList (wiresocks.GetAvailableIPs (app.ws_env env) k1 k2 opts)
    /\ take 2 ipList = [a; b] /\ res = [a; b].
Proof.
  unfold wiresocks.RunScan. intros H. inv_bind H.
  apply lift_inv in H as (H & _).
  match type of H with
  | Ok res = wiresocks.poll ?snaps => pose proof (poll_outcome snaps) as Hp
  end.
  rewrite <- H in Hp.
  destruct Hp as (before & ipList & after & x & y & Hs & _ & _ & Ht & Hr).
  eexists _, _, ipList, x, y. split; [ | auto].
  rewrite Hs. apply in_or_app. right. left. reflexivity.
Qed.

(** With a scan asked for, RunWarp does not use the endpoint of its
    options: the scan runs once, before any tunnel; its first address is
    the endpoint of the single tunnel or of the outer tunnel, and in
    warp-in-warp its second address is where the UDP forwarder sends. *)
Theorem RunWarp_scan_endpoints opts scan s s' :
  app.Psiphon opts = None -> app.Scan opts = Some scan ->
  app.RunWarp env opts s = (Ok tt, s') ->
  exists k1 k2 ipList a b events,
    In ipList (wiresocks.GetAvailableIPs (app.ws_env env) k1 k2 scan)
    /\ take 2 ipList = [a; b]
    /\ app.wg s' = app.wg s ++ wiresocks.EvRunScan scan :: events
    /\ let first := wiresocks.AddrPortString (app.ws_env env) (statute.AddrPort a) in
       let second := wiresocks.AddrPortString (app.ws_env env) (statute.AddrPort b) in
       if app.Gool opts
       then exists outer inner vt1 vt2,
              events = [wiresocks.EvStartWireguard outer;
                        wiresocks.EvUDPForwarder netip.loopback_any_port second vt1 1330;
                        wiresocks.EvStartWireguard inner;
                        wiresocks.EvStartProxy vt2 (app.Bind opts)]
              /\ peers_reach first outer
       else exists conf vt,
              events = [wiresocks.EvStartWireguard conf;
                        wiresocks.EvStartProxy vt (app.Bind opts)]
              /\ peers_reach first conf.
Proof.
  intros Hp Hs. unfold app.RunWarp, app.has_psiphon. rewrite Hp, Hs. cbn [andb].
  intros H. apply bind_Ok_inv in H as ([] & s1 & E1 & H).
  apply identities_keep in E1 as (Ew1 & Ep1).
  apply bind_Ok_inv in H as (endpoints & s2 & E2 & H).
  apply bind_Ok_inv in E2 as (res & s3 & E2 & E3).
  apply ret_inv in E3 as (E3 & ->). inversion E3; subst endpoints. clear E3.
  destruct s3 as [fs3 wg3 psi3].
  apply on_fs_wg_inv in E2 as (E2 & Ep2). cbn [app.fs app.wg app.psi] in *.
  pose proof (RunScan_two _ _ _ _ E2) as (k1 & k2 & ipList & a & b & Hin & Ht & ->).
  apply RunScan_log in E2 as (_ & _ & Hlog). specialize (Hlog eq_refl).
  exists k1, k2, ipList, a, b. cbn [map] in H.
  destruct (app.Gool opts).
  - apply runWarpInWarp_wiring in H
      as (e0 & e1 & outer & inner & vt1 & vt2 & local & H0 & H1 & Hw & _ & _
          & _ & _ & Hr1 & _).
    inversion H0; subst e0. inversion H1; subst e1. cbn [app.wg] in Hw.
    eexists. split; [exact Hin | split; [exact Ht | split]].
    + rewrite Hw, Hlog, Ew1, <- app_assoc. reflexivity.
    + exists outer, inner, vt1, vt2. split; [reflexivity | exact Hr1].
  - apply bind_Ok_inv in H as (endpoint0 & s4 & E4 & H).
    apply lift_inv in E4 as (E4 & ->). inversion E4; subst endpoint0.
    apply runWarp_wiring in H as (conf & vt & Hw & _ & _ & _ & Hr & _).
    cbn [app.wg] in Hw.
    eexists. split; [exact Hin | split; [exact Ht | split]].
    + rewrite Hw, Hlog, Ew1, <- app_assoc. reflexivity.
    + exists conf, vt. split; [reflexivity | exact Hr].
Qed.

End Wiring.

Lemma RunWarp_plain_wiring_witness :
  exists conf vt,
    app.wg (app.RunWarp (L := sample.L) sample.env
              (sample.options None false false) sample.sys).2
    = app.wg sample.sys ++ [wiresocks.EvStartWireguard conf;
                            wiresocks.EvStartProxy vt (sample.loopback 8086)]
    /\ app.psi (app.RunWarp (L := sample.L) sample.env
                  (sample.options None false false) sample.sys).2
       = app.psi sample.sys
    /\ wiresocks.MTU (wiresocks.Interface conf) = 1330%Z
    /\ wiring_view.peers_reach "162.159.192.1:2408" conf
    /\ wiring_view.tunnel sample.ws_env conf vt.
Proof.
  apply (RunWarp_plain_wiring (L := sample.L) sample.env
           (sample.options None false false) sample.sys);
    [reflexivity | reflexivity | reflexivity | vm_compute; reflexivity].
Defined.

Lemma RunWarp_gool_wiring_witness :
  exists outer inner vt1 vt2 local,
    app.wg (app.RunWarp (L := sample.L) sample.env
              (sample.options None true false) sample.sys).2
    = app.wg sample.sys
      ++ [wiresocks.EvStartWireguard outer;
          wiresocks.EvUDPForwarder netip.loopback_any_port "162.159.192.1:2408" vt1 1330;
          wiresocks.EvStartWireguard inner;
          wiresocks.EvStartProxy vt2 (sample.loopback 8086)]
    /\ app.psi (app.RunWarp (L := sample.L) sample.env
                  (sample.options None true false) sample.sys).2
       = app.psi sample.sys
    /\ wiresocks.MTU (wiresocks.Interface outer) = 1330%Z
    /\ wiresocks.MTU (wiresocks.Interface inner) = 1280%Z
    /\ wiring_view.peers_reach "162.159.192.1:2408" outer
    /\ wiresocks.ListenUDP sample.ws_env netip.loopback_any_port = Ok local
    /\ wiring_view.peers_reach (wiresocks.AddrPortString sample.ws_env local) inner
    /\ wiring_view.tunnel sample.ws_env outer vt1
    /\ wiring_view.tunnel sample.ws_env inner vt2.
Proof.
  apply (RunWarp_gool_wiring (L := sample.L) sample.env
           (sample.options None true false) sample.sys);
    [reflexivity | reflexivity | reflexivity | vm_compute; reflexivity].
Defined.

Lemma RunScan_outcome_witness :
  (warp.createConf sample.identity "./stuff/primary" sample.disk).2
  = (warp.createConf sample.identity "./stuff/primary" sample.disk).2
  /\ [wiresocks.EvRunScan {| wiresocks.V4 := true; wiresocks.V6 := false;
                             wiresocks.MaxRTT := 1000000000 |}]
     = [] ++ [wiresocks.EvRunScan {| wiresocks.V4 := true; wiresocks.V6 := false;
                                     wiresocks.MaxRTT := 1000000000 |}]
     /\ exists text cfg before ipList after a b,
          os.ReadFile "./stuff/primary/wgcf-profile.ini"
            (warp.createConf sample.identity "./stuff/primary" sample.disk).2
          = (Ok text, (warp.createConf sample.identity "./stuff/primary" sample.disk).2)
          /\ ini.LoadDefault (Lib := sample.L) text = Ok cfg
          /\ wiresocks.GetAvailableIPs sample.ws_env
               (ini.KeyString (ini.SectionKey (ini.SectionOf cfg "Interface")
                                 "PrivateKey"))
               (ini.KeyString (ini.SectionKey (ini.SectionOf cfg "Peer") "PublicKey"))
               {| wiresocks.V4 := true; wiresocks.V6 := false;
                  wiresocks.MaxRTT := 1000000000 |}
             = before ++ ipList :: after
          /\ Forall (fun l => (List.length l <= 1)%nat) before
          /\ (2 <= List.length ipList)%nat
          /\ take 2 ipList = [a; b]
          /\ [sample.scanned 1 20; sample.scanned 7 35] = [a; b].
Proof.
  apply (RunScan_outcome (L := sample.L) sample.env
           {| wiresocks.V4 := true; wiresocks.V6 := false;
              wiresocks.MaxRTT := 1000000000 |}
           (warp.createConf sample.identity "./stuff/primary" sample.disk).2 []
           (Ok [sample.scanned 1 20; sample.scanned 7 35])
           (warp.createConf sample.identity "./stuff/primary" sample.disk).2
           [wiresocks.EvRunScan {| wiresocks.V4 := true; wiresocks.V6 := false;
                                   wiresocks.MaxRTT := 1000000000 |}]).
  vm_compute. reflexivity.
Defined.

Lemma RunWarp_scan_endpoints_witness :
  exists k1 k2 ipList a b events,
    In ipList (wiresocks.GetAvailableIPs sample.ws_env k1 k2
                 {| wiresocks.V4 := true; wiresocks.V6 := false;
                    wiresocks.MaxRTT := 1000000000 |})
    /\ take 2 ipList = [a; b]
    /\ app.wg (app.RunWarp (L := sample.L) sample.env
                 (sample.options None true true) sample.sys).2
       = app.wg sample.sys
         ++ wiresocks.EvRunScan {| wiresocks.V4 := true; wiresocks.V6 := false;
                                   wiresocks.MaxRTT := 1000000000 |} :: events
    /\ exists outer inner vt1 vt2,
         events = [wiresocks.EvStartWireguard outer;
                   wiresocks.EvUDPForwarder netip.loopback_any_port
                     (wiresocks.AddrPortString sample.ws_env (statute.AddrPort b))
                     vt1 1330;
                   wiresocks.EvStartWireguard inner;
                   wiresocks.EvStartProxy vt2 (sample.loopback 8086)]
         /\ wiring_view.peers_reach
              (wiresocks.AddrPortString sample.ws_env (statute.AddrPort a)) outer.
Proof.
  apply (RunWarp_scan_endpoints (L := sample.L) sample.env
           (sample.options None true true)
           {| wiresocks.V4 := true; wiresocks.V6 := false;
              wiresocks.MaxRTT := 1000000000 |} sample.sys);
    [reflexivity | reflexivity | vm_compute; reflexivity].
Defined.

(** ** The profile as the scanner reads it *)

Section ScanKeys.
Import gostrings profile default_profile.

Lemma parse_line_kv_any o key l secs cur :
  key <> [] -> forallb is_letter key = true -> forallb plain_char l = true ->
  goini.parse_line o (key ++ chars " = " ++ l) (secs, cur)
  = Ok (alter (goini.NewKey o (str key) (str l)) cur secs, cur).
Proof.
  intros Hne Hk Hl. unfold goini.parse_line.
  destruct key as [| c key]; [congruence | ].
  pose proof Hk as H0. cbn [forallb] in H0. apply andb_true_iff in H0 as [Hc Hk'].
  pose proof (letter_facts c Hc) as (Hs & H1 & H2 & H3 & H4 & H5 & _ & _ & H6).
  change ((c :: key) ++ chars " = " ++ l)
    with (c :: (key ++ " "%char :: "="%char :: " "%char :: l)).
  cbn [trim_left]. rewrite Hs, H1, H2, H3. cbn [orb].
  unfold goini.readKeyName. rewrite H4, H5. cbn [orb].
  change (c :: key ++ " "%char :: "="%char :: " "%char :: l)
    with ((c :: key) ++ " "%char :: "="%char :: " "%char :: l).
  rewrite index_delim by exact Hk.
  replace (take (S (List.length (c :: key)))
             ((c :: key) ++ " "%char :: "="%char :: " "%char :: l))
    with ((c :: key) ++ [" "%char]).
  2:{ change ((c :: key) ++ " "%char :: "="%char :: " "%char :: l)
        with ((c :: key) ++ [" "%char] ++ "="%char :: " "%char :: l).
      rewrite app_assoc. rewrite take_app_length'; [reflexivity | ].
      rewrite length_app. simpl. lia. }
  rewrite trim_letters by exact Hk.
  replace (drop (S (S (List.length (c :: key))))
             ((c :: key) ++ " "%char :: "="%char :: " "%char :: l))
    with (" "%char :: l).
  2:{ change ((c :: key) ++ " "%char :: "="%char :: " "%char :: l)
        with ((c :: key) ++ [" "%char; "="%char] ++ " "%char :: l).
      rewrite app_assoc. rewrite drop_app_length'; [reflexivity | ].
      rewrite length_app. simpl. lia. }
  assert (Hdash : String.eqb (str (c :: key)) "-" = false).
  { apply String.eqb_neq. intros E. apply (f_equal chars) in E.
    rewrite chars_str in E. inversion E; subst. discriminate. }
  rewrite Hdash. cbn [rbind]. rewrite readValue_plain by exact Hl. reflexivity.
Qed.

Lemma parse_line_dns_any o secs cur :
  goini.parse_line o (chars "DNS" ++ chars " = " ++ chars dns_value) (secs, cur)
  = Ok (alter (goini.NewKey o "DNS" dns_value) cur secs, cur).
Proof. reflexivity. Qed.

Lemma parse_line_Interface_default :
  goini.parse_line goini.noOpt (chars "[Interface]")
    ([{| goini.sname := "DEFAULT"; goini.keys := [] |}], 0%nat)
  = Ok ([{| goini.sname := "DEFAULT"; goini.keys := [] |};
         {| goini.sname := "Interface"; goini.keys := [] |}], 1%nat).
Proof. reflexivity. Qed.

Lemma parse_line_Peer_default ks :
  goini.parse_line goini.noOpt (chars "[Peer]")
    ([{| goini.sname := "DEFAULT"; goini.keys := [] |};
      {| goini.sname := "Interface"; goini.keys := ks |}], 1%nat)
  = Ok ([{| goini.sname := "DEFAULT"; goini.keys := [] |};
         {| goini.sname := "Interface"; goini.keys := ks |};
         {| goini.sname := "Peer"; goini.keys := [] |}], 2%nat).
Proof. reflexivity. Qed.

Ltac names :=
  unfold goini.NewKey;
  cbn [goini.sname goini.keys goini.NewKey_in goini.fold_name
       goini.Insensitive goini.noOpt goini.AllowShadows goini.name goini.shadows];
  repeat (match goal with
          | |- context [String.eqb ?a ?b] =>
              let v := eval vm_compute in (String.eqb a b) in
              change (String.eqb a b) with v
          end;
          cbn [goini.NewKey_in goini.name goini.shadows goini.AllowShadows goini.noOpt]).

Lemma Load_profile_default privateKey v4 v6 publicKey host :
  plain privateKey = true -> plain v4 = true -> plain v6 = true ->
  plain publicKey = true -> plain host = true ->
  goini.LoadSources goini.noOpt (warp.profile_text privateKey v4 v6 publicKey host)
  = Ok (default_file privateKey v6 publicKey host).
Proof.
  intros Hpriv H4 H6 Hpub Hhost.
  pose proof (plain_app v4 "/24" H4 eq_refl) as H4'.
  pose proof (plain_app v6 "/128" H6 eq_refl) as H6'.
  unfold plain in *.
  unfold goini.LoadSources. rewrite profile_text_lines.
  assert (Hascii : forallb goini.is_ascii
            (unlines (profile_lines privateKey v4 v6 publicKey host)) = true).
  { rewrite forallb_unlines. unfold profile_lines. cbn [forallb].
    rewrite !forallb_app.
    rewrite (plain_ascii _ Hpriv), (plain_ascii _ H4'), (plain_ascii _ H6'),
      (plain_ascii _ Hpub), (plain_ascii _ Hhost). reflexivity. }
  rewrite Hascii. cbn [negb].
  rewrite split_unlines.
  2:{ unfold profile_lines. cbn [forallb]. rewrite !no_lf_app.
      rewrite (plain_no_lf _ Hpriv), (plain_no_lf _ H4'), (plain_no_lf _ H6'),
        (plain_no_lf _ Hpub), (plain_no_lf _ Hhost). reflexivity. }
  unfold profile_lines. cbn [app goini.parse_lines goini.Insensitive goini.noOpt].
  rewrite parse_line_Interface_default. cbn [rbind].
  rewrite parse_line_kv_any by (try discriminate; try reflexivity; assumption). cbn [rbind].
  rewrite parse_line_dns_any. cbn [rbind].
  rewrite parse_line_kv_any by (try discriminate; try reflexivity; assumption). cbn [rbind].
  rewrite parse_line_kv_any by (try discriminate; try reflexivity; assumption). cbn [rbind].
  rewrite !str_chars. cbn [alter list_alter]. names.
  rewrite parse_line_Peer_default. cbn [rbind].
  rewrite parse_line_kv_any by (try discriminate; try reflexivity; assumption). cbn [rbind].
  rewrite parse_line_kv_any by (try discriminate; try reflexivity; assumption). cbn [rbind].
  rewrite parse_line_kv_any by (try discriminate; try reflexivity; assumption). cbn [rbind].
  rewrite parse_line_kv_any by (try discriminate; try reflexivity; assumption). cbn [rbind].
  rewrite !str_chars. cbn [alter list_alter]. names.
  reflexivity.
Qed.

Section Scan.
Variable ParseInt : string -> result Z.
Variable env : wiresocks.Env.
Let L : ini.Lib := goini.lib ParseInt.

(** RunScan on the profile that createConf has written for an identity
    with plain fields: the scanner is given the private key of the
    identity and the public key of its first peer as they are written,
    in base64, and RunScan gives what its polling of that scanner gives. *)
Theorem RunScan_after_createConf i fs peer0 rest opts tr :
  warp.Peers (warp.Config i) = peer0 :: rest ->
  plain (warp.PrivateKey i) = true ->
  plain (warp.V4 (warp.InterfaceAddresses (warp.Config i))) = true ->
  plain (warp.V6 (warp.InterfaceAddresses (warp.Config i))) = true ->
  plain (warp.PublicKey peer0) = true ->
  plain (warp.Host (warp.Endpoint peer0)) = true ->
  os.denied fs "./stuff/primary/wgcf-profile.ini" = false ->
  exists fs',
    warp.createConf i "./stuff/primary" fs = (Ok tt, fs')
    /\ wiresocks.RunScan (L := L) env opts (fs', tr)
       = (wiresocks.poll
            (wiresocks.GetAvailableIPs env (warp.PrivateKey i) (warp.PublicKey peer0) opts),
          (fs', tr ++ [wiresocks.EvRunScan opts])).
Proof.
  intros Hpeers Hpriv H4 H6 Hpub Hhost Hden.
  unfold warp.createConf. rewrite Hpeers.
  unfold os.WriteFile, os.open_trunc_write.
  change (os.Join "./stuff/primary" warp.profileFile)
    with "./stuff/primary/wgcf-profile.ini".
  rewrite Hden. eexists. split; [reflexivity | ].
  unfold wiresocks.RunScan, bind, wrap, zoom, os.ReadFile, lift, wiresocks.log, modify.
  cbn [fst snd os.denied os.with_files os.files]. rewrite Hden.
  rewrite lookup_insert_eq. cbn [os.data wrap_err].
  change (@ini.LoadDefault L) with (goini.LoadSources goini.noOpt).
  rewrite Load_profile_default by assumption. cbn [wrap_err].
  reflexivity.
Qed.
End Scan.

End ScanKeys.

Lemma RunScan_after_createConf_witness :
  exists fs',
    warp.createConf sample.identity "./stuff/primary" sample.disk = (Ok tt, fs')
    /\ wiresocks.RunScan (L := sample.L) sample.ws_env
         {| wiresocks.V4 := true; wiresocks.V6 := false; wiresocks.MaxRTT := 1000000000 |}
         (fs', [])
       = (wiresocks.poll
            (wiresocks.GetAvailableIPs sample.ws_env sample.privateKey sample.publicKey
               {| wiresocks.V4 := true; wiresocks.V6 := false;
                  wiresocks.MaxRTT := 1000000000 |}),
          (fs', [] ++ [wiresocks.EvRunScan
                         {| wiresocks.V4 := true; wiresocks.V6 := false;
                            wiresocks.MaxRTT := 1000000000 |}])).
Proof.
  apply (RunScan_after_createConf sample.ParseInt sample.ws_env sample.identity sample.disk
           {| warp.PublicKey := sample.publicKey;
              warp.Endpoint := {| warp.Host := "engage.cloudflareclient.com:2408" |} |}
           []);
    vm_compute; reflexivity.
Defined.

(** ** The UDP forwarder after cancellation *)

Section Shutdown.
Import wiresocks.fwd shutdown_view.

Lemma closing_order_step s a : closing_order s -> closing_order (step s a).
Proof.
  unfold closing_order.
  destruct s as [c gh gt cd ca lo ro hq tq cs]. cbn [closer_done g_host g_tun listener_open rconn_open].
  destruct a as [ | src p | p | | | [ | | ]]; cbn;
    unfold run_host, run_tun, run_closer, fail_read; cbn;
    destruct cd, gh, gt, c, hq as [| [? ?] ?], tq; cbn; intros H; intuition congruence.
Qed.

Lemma closing_order_run tr s : closing_order s -> closing_order (run tr s).
Proof.
  revert s. induction tr as [| a tr IH]; intros s H; [exact H | ].
  apply IH, closing_order_step, H.
Qed.

Lemma closing_order_init : closing_order init.
Proof. split; reflexivity. Qed.

(** Cancellation works once the blocked reads return: in any state the
    forwarder can reach with its context cancelled, one more datagram on
    each socket and turns for the three goroutines end both forwarding
    goroutines and close both sockets. *)
Theorem cancel_then_traffic_closes tr src p q :
  let s := run tr init in
  cancelled s = true ->
  let s' := run (wake_up src p q) s in
  g_host s' = Exited /\ g_tun s' = Exited
  /\ listener_open s' = false /\ rconn_open s' = false.
Proof.
  intros s Hc.
  pose proof (closing_order_run tr init closing_order_init) as Ho. fold s in Ho.
  clearbody s. unfold closing_order in Ho.
  destruct s as [c gh gt cd ca lo ro hq tq cs].
  cbn [cancelled closer_done g_host g_tun listener_open rconn_open] in *. subst c.
  destruct cd.
  - destruct Ho as (-> & -> & -> & ->). cbn. auto.
  - destruct Ho as (-> & ->).
    destruct gh, gt, hq as [| [? ?] ?], tq; cbn; auto.
Qed.
End Shutdown.

Lemma cancel_then_traffic_closes_witness :
  let s := wiresocks.fwd.run
             [wiresocks.fwd.Run wiresocks.fwd.HostToTun;
              wiresocks.fwd.Run wiresocks.fwd.TunToHost; wiresocks.fwd.Cancel]
             wiresocks.fwd.init in
  let s' := wiresocks.fwd.run (shutdown_view.wake_up sample.client1 "a" "b") s in
  wiresocks.fwd.g_host s' = wiresocks.fwd.Exited
  /\ wiresocks.fwd.g_tun s' = wiresocks.fwd.Exited
  /\ wiresocks.fwd.listener_open s' = false /\ wiresocks.fwd.rconn_open s' = false.
Proof.
  apply (cancel_then_traffic_closes
           [wiresocks.fwd.Run wiresocks.fwd.HostToTun;
            wiresocks.fwd.Run wiresocks.fwd.TunToHost; wiresocks.fwd.Cancel]
           sample.client1 "a" "b").
  reflexivity.
Defined.

(** ** What the handler delivers *)

Section Relay.
Import wiresocks.handler relay_view.

Lemma relayed_receive_data l src dst cp d :
  relayed l src dst cp -> relayed (l ++ [d]) (receive (Some d) src) dst cp.
Proof.
  intros (lost & dropped & Hl & H1 & H2). unfold receive.
  destruct (closed src || peer_eof src) eqn:E.
  - exists lost, (dropped ++ [d]). rewrite Hl, <- !app_assoc.
    split; [reflexivity | split; [exact H1 | intros _; exact E]].
  - assert (dropped = []) as ->.
    { destruct dropped as [| x dropped]; [reflexivity | ].
      assert (Hd : x :: dropped <> []) by congruence.
      discriminate (H2 Hd). }
    exists lost, []. cbn [inbox outbox closed peer_eof]. rewrite Hl, !app_nil_r, <- !app_assoc.
    split; [reflexivity | split; [exact H1 | intros H; congruence]].
Qed.

Lemma relayed_receive_eof l src dst cp :
  relayed l src dst cp -> relayed l (receive None src) dst cp.
Proof.
  intros (lost & dropped & Hl & H1 & H2). unfold receive.
  destruct (closed src || peer_eof src) eqn:E.
  - exists lost, dropped. auto.
  - exists lost, dropped. cbn [inbox outbox closed peer_eof].
    split; [exact Hl | split; [exact H1 | intros _; apply orb_true_r]].
Qed.

(** A change of the destination that leaves its outbox alone. *)
Lemma relayed_dst l src dst dst' cp :
  outbox dst' = outbox dst -> relayed l src dst cp -> relayed l src dst' cp.
Proof.
  intros Ho (lost & dropped & Hl & H1 & H2). exists lost, dropped. rewrite Ho. auto.
Qed.

(** A change of the source that leaves its inbox alone and does not
    reopen it. *)
Lemma relayed_src l src src' dst cp :
  inbox src' = inbox src ->
  (closed src || peer_eof src = true -> closed src' || peer_eof src' = true) ->
  relayed l src dst cp -> relayed l src' dst cp.
Proof.
  intros Hi Hc (lost & dropped & Hl & H1 & H2). exists lost, dropped. rewrite Hi. auto.
Qed.

Lemma relayed_copier l src dst cp cp' :
  (cp <> Copying -> cp' <> Copying) -> relayed l src dst cp -> relayed l src dst cp'.
Proof.
  intros Hc (lost & dropped & Hl & H1 & H2). exists lost, dropped. auto.
Qed.

Lemma relayed_copy_turn l src dst src' dst' cp' :
  copy_turn src dst = (src', dst', cp') ->
  relayed l src dst Copying -> relayed l src' dst' cp'.
Proof.
  unfold copy_turn. intros H (lost & dropped & Hl & H1 & H2).
  assert (lost = []) as ->.
  { destruct lost as [| x lost]; [reflexivity | ]. exfalso.
    apply H1; [congruence | reflexivity]. }
  cbn [app] in Hl. revert H.
  destruct (closed src) eqn:Ec.
  { intros [= <- <- <-]. exists [], dropped.
    split; [exact Hl | split; [intros _; congruence | rewrite ?Ec; exact H2]]. }
  destruct (inbox src) as [| chunk rest] eqn:Ei.
  { destruct (peer_eof src) eqn:Ee; intros [= <- <- <-]; exists [], dropped;
      rewrite ?Ei, ?Ec, ?Ee;
      (split; [exact Hl | split; [intros ?; congruence | exact H2]]). }
  destruct (closed dst) eqn:Ed; intros [= <- <- <-].
  - exists [chunk], dropped. cbn [inbox outbox closed peer_eof].
    split; [exact Hl | split; [intros _; congruence | ]].
    exact H2.
  - exists [], dropped. cbn [inbox outbox closed peer_eof].
    rewrite <- !app_assoc. split; [exact Hl | split; [congruence | ]].
    exact H2.
Qed.

(** The other direction's turn: it reads our destination and writes to
    our source. *)
Lemma relayed_other_turn l src dst src' dst' cp cp' :
  copy_turn dst src = (dst', src', cp') ->
  relayed l src dst cp -> relayed l src' dst' cp.
Proof.
  unfold copy_turn. intros H Hr. revert H.
  destruct (closed dst).
  { intros [= <- <- <-]. exact Hr. }
  destruct (inbox dst) as [| chunk rest] eqn:Ei.
  { destruct (peer_eof dst); intros [= <- <- <-]; exact Hr. }
  destruct (closed src) eqn:Ec; intros [= <- <- <-].
  - eapply relayed_dst; [ | exact Hr]. reflexivity.
  - eapply relayed_dst; [ | eapply relayed_src; [ | | exact Hr]]; try reflexivity.
    cbn [closed peer_eof]. rewrite Ec. auto.
Qed.

Lemma relayed_close l src dst cp :
  relayed l src dst cp -> relayed l (close src) (close dst) cp.
Proof.
  intros Hr. eapply relayed_dst; [ | eapply relayed_src; [ | | exact Hr]].
  - reflexivity.
  - reflexivity.
  - intros _. reflexivity.
Qed.

Lemma sent_snoc sd tr a :
  sent sd (tr ++ [a])
  = sent sd tr ++ match a, sd with
                  | PeerSend Client d, Client => [d]
                  | PeerSend Upstream d, Upstream => [d]
                  | _, _ => []
                  end.
Proof.
  unfold sent. rewrite omap_app. f_equal.
  destruct a as [[] d | [] | []], sd; reflexivity.
Qed.

Lemma relays_step tr s a : relays tr s -> relays (tr ++ [a]) (step s a).
Proof.
  intros [Hc Hu]. unfold relays. rewrite !sent_snoc.
  destruct a as [[] d | [] | []]; cbn [step on_side client upstream c2u u2c];
    rewrite ?app_nil_r.
  - (* the client sends *)
    split; [apply relayed_receive_data, Hc | ].
    eapply relayed_dst; [ | exact Hu]. unfold receive.
    destruct (closed (client s) || peer_eof (client s)); reflexivity.
  - (* the upstream sends *)
    split; [ | apply relayed_receive_data, Hu].
    eapply relayed_dst; [ | exact Hc]. unfold receive.
    destruct (closed (upstream s) || peer_eof (upstream s)); reflexivity.
  - split; [apply relayed_receive_eof, Hc | ].
    eapply relayed_dst; [ | exact Hu]. unfold receive.
    destruct (closed (client s) || peer_eof (client s)); reflexivity.
  - split; [ | apply relayed_receive_eof, Hu].
    eapply relayed_dst; [ | exact Hc]. unfold receive.
    destruct (closed (upstream s) || peer_eof (upstream s)); reflexivity.
  - (* the handler *)
    unfold run_main. destruct (main s).
    + destruct (done s); cbn [client upstream c2u u2c]; auto.
    + cbn [client upstream c2u u2c]. split; apply relayed_close; assumption.
    + destruct (done s); cbn [client upstream c2u u2c]; auto.
      split; apply relayed_close; assumption.
    + auto.
  - (* the copy from the client *)
    unfold run_copier. destruct (c2u s) eqn:Ecp.
    + destruct (copy_turn (client s) (upstream s)) as [[src' dst'] cp'] eqn:Et.
      cbn [client upstream c2u u2c]. split.
      * eapply relayed_copy_turn; eauto.
      * eapply relayed_other_turn; eauto.
    + destruct (done s); cbn [client upstream c2u u2c]; [ | rewrite Ecp; auto].
      split; [ | exact Hu]. eapply relayed_copier; [ | exact Hc]. discriminate.
    + rewrite Ecp. auto.
  - (* the copy from the upstream *)
    unfold run_copier. destruct (u2c s) eqn:Ecp.
    + destruct (copy_turn (upstream s) (client s)) as [[src' dst'] cp'] eqn:Et.
      cbn [client upstream c2u u2c]. split.
      * eapply relayed_other_turn; eauto.
      * eapply relayed_copy_turn; eauto.
    + destruct (done s); cbn [client upstream c2u u2c]; [ | rewrite Ecp; auto].
      split; [exact Hc | ]. eapply relayed_copier; [ | exact Hu]. discriminate.
    + rewrite Ecp. auto.
Qed.

Lemma relays_run tr : relays tr (run tr init).
Proof.
  induction tr as [| a tr IH] using rev_ind.
  - split; exists [], []; repeat split; intros H; congruence.
  - unfold run. rewrite fold_left_app. cbn [fold_left]. apply relays_step, IH.
Qed.

(** The handler delivers to each side a prefix of what the other side
    has sent, in order and unchanged: nothing is delivered twice, out of
    order, or that was not sent. *)
Theorem handler_delivers_prefix tr :
  let s := run tr init in
  outbox (upstream s) `prefix_of` sent Client tr
  /\ outbox (client s) `prefix_of` sent Upstream tr.
Proof.
  intros s. destruct (relays_run tr) as [(l1 & d1 & H1 & _) (l2 & d2 & H2 & _)].
  fold s in H1, H2. split; eexists; eassumption.
Qed.

Lemma warned_step s a :
  (main s = WaitFirst -> warned s = []) /\ (List.length (warned s) <= 1)%nat ->
  (main (step s a) = WaitFirst -> warned (step s a) = [])
  /\ (List.length (warned (step s a)) <= 1)%nat.
Proof.
  intros [H1 H2].
  destruct a as [[] d | [] | []]; cbn [step on_side main warned]; auto.
  - unfold run_main. destruct (main s) eqn:Em; cbn [main warned]; auto.
    + destruct (done s) as [| [e |] rest]; cbn [main warned]; auto.
      split; [discriminate | ]. rewrite H1 by reflexivity. cbn. lia.
    + split; [discriminate | exact H2].
    + destruct (done s); cbn [main warned]; [rewrite Em; auto | ].
      split; [discriminate | exact H2].
    + rewrite Em. auto.
  - unfold run_copier. destruct (c2u s).
    + destruct (copy_turn (client s) (upstream s)) as [[? ?] ?]. cbn [main warned]. auto.
    + destruct (done s); cbn [main warned]; auto.
    + auto.
  - unfold run_copier. destruct (u2c s).
    + destruct (copy_turn (upstream s) (client s)) as [[? ?] ?]. cbn [main warned]. auto.
    + destruct (done s); cbn [main warned]; auto.
    + auto.
Qed.

(** The handler logs at most one warning for a connection: the result
    of the copy that ends first, when it is an error; what the other copy
    gives is taken from the channel and dropped. *)
Theorem handler_warns_at_most_once tr :
  (List.length (warned (run tr init)) <= 1)%nat.
Proof.
  assert (H : (main (run tr init) = WaitFirst -> warned (run tr init) = [])
              /\ (List.length (warned (run tr init)) <= 1)%nat).
  { induction tr as [| a tr IH] using rev_ind.
    - split; [reflexivity | cbn; lia].
    - unfold run in *. rewrite fold_left_app. cbn [fold_left]. apply warned_step, IH. }
  apply H.
Qed.
End Relay.
